(** * ai-vox-dashboard-backend: a shallow embedding of the sync routine,
    the list, agent and user routes, the auth and error middleware and
    the superadmin bootstrap, with the properties of the specification
    proved or refuted over it.

    Source files embedded here:
    - [src/lib/retell.js]            (module [Retell])
    - [src/middleware/errorHandler.js] (module [ErrorHandler])
    - [src/middleware/auth.js]       (module [Auth])
    - [src/routes/dashboard.js]      (modules [Joi], [Store], [Dashboard],
                                      [Users], [Router])
    - [src/lib/superadmin.js]        (module [SuperAdmin])

    JavaScript numbers that hold integers (timestamps, durations, limits,
    offsets, counters) are [Z]; strings are [string]; [undefined]/[null]
    is [None]; a JS [Map] is a [gmap]; thrown exceptions are the [Throw]
    case of [result]. *)

From Stdlib Require Import ZArith String List Bool Lia Sorted.
From stdpp Require Import base option list gmap strings.
Import ListNotations.

Set Warnings "-register-all".
Local Open Scope string_scope.
Local Open Scope list_scope.
Local Open Scope Z_scope.

(** ** JavaScript truthiness on the values the code tests *)

Module Js.

(** A string is falsy exactly when it is empty. *)
Definition truthy (s : string) : bool := negb (String.eqb s "").

(** [undefined], [null] and the empty string are falsy. *)
Definition truthy_opt (o : option string) : bool :=
  match o with
  | Some s => truthy s
  | None => false
  end.

(** [a || b] on optional strings. *)
Definition or_else (a b : option string) : option string :=
  if truthy_opt a then a else b.

(** [a || null]. *)
Definition or_null (a : option string) : option string :=
  if truthy_opt a then a else None.

(** [n || d] on optional numbers: [undefined] and [0] are falsy. *)
Definition num_or (n : option Z) (d : Z) : Z :=
  match n with
  | Some v => if v =? 0 then d else v
  | None => d
  end.

(** [s.startsWith("Bearer ")]. *)
Definition startsWith (p s : string) : bool := String.prefix p s.

(** [s.slice(n)] for [0 <= n]. *)
Definition slice (n : nat) (s : string) : string :=
  String.substring n (String.length s - n) s.

End Js.

(** ** JSON values written by [res.json] *)

Inductive json :=
| JNull
| JBool (b : bool)
| JNum (n : Z)
| JStr (s : string)
| JDate (ms : Z)  (* [date.toISOString()] of the instant [ms] *)
| JArr (items : list json)
| JObj (fields : list (string * json)).

(** Property access [o.k] on a JSON object; [None] is [undefined]. *)
Fixpoint assoc (k : string) (fields : list (string * json)) : option json :=
  match fields with
  | [] => None
  | (k', v) :: rest => if String.eqb k k' then Some v else assoc k rest
  end.

Definition jget (k : string) (j : json) : option json :=
  match j with
  | JObj fields => assoc k fields
  | _ => None
  end.

(** Nested property access [o.k1.k2...]. *)
Fixpoint jpath (ks : list string) (j : json) : option json :=
  match ks with
  | [] => Some j
  | k :: ks' =>
      match jget k j with
      | Some j' => jpath ks' j'
      | None => None
      end
  end.

(** The value passed to [res.status(...)]: a number, or the string an
    [AppError] keeps in its [status] field. *)
Inductive status_val :=
| StNum (n : Z)
| StStr (s : string).

Record http_response := {
  res_status : status_val;
  res_body : json
}.

(** [res.json(body)] without [res.status]: Express answers 200. *)
Definition res_json (body : json) : http_response :=
  {| res_status := StNum 200; res_body := body |}.

(** ** Exceptions *)

Record js_error := {
  err_name : string;
  err_message : string;
  err_statusCode : option Z;
  err_status : option string;
  err_code : option string;
  err_stack : string
}.

Inductive result (A : Type) :=
| Ok (a : A)
| Throw (e : js_error).
Arguments Ok {A} a.
Arguments Throw {A} e.

(** Sequencing of calls that may throw: [x ← r; k] runs [k] on the value
    of [r] and passes an exception of [r] on. *)
#[export] Instance result_bind : MBind result :=
  fun A B (k : A -> result B) (r : result A) =>
    match r with
    | Ok a => k a
    | Throw e => Throw e
    end.

(** ** src/middleware/errorHandler.js *)

Module ErrorHandler.

(** [new Error(message)] as thrown by libraries and by [retell.js]. *)
Definition PlainError (message : string) : js_error :=
  {| err_name := "Error"; err_message := message; err_statusCode := None;
     err_status := None; err_code := None; err_stack := "" |}.

(** [class AppError]: [status] is ["fail"] when the decimal rendering of
    the status code starts with 4, which is the case for each of the four
    subclasses below. *)
Definition AppError (name message : string) (statusCode : Z) (fourxx : bool)
  : js_error :=
  {| err_name := name; err_message := message;
     err_statusCode := Some statusCode;
     err_status := Some (if fourxx then "fail" else "error");
     err_code := None; err_stack := "" |}.

Definition ValidationError (message : string) : js_error :=
  AppError "ValidationError" message 400 true.

Definition UnauthorizedError (message : string) : js_error :=
  AppError "UnauthorizedError" message 401 true.

Definition ForbiddenError (message : string) : js_error :=
  AppError "ForbiddenError" message 403 true.

Definition NotFoundError (message : string) : js_error :=
  AppError "NotFoundError" message 404 true.

(** [err.statusCode || err.status || 500]. *)
Definition default_status (err : js_error) : status_val :=
  match err_statusCode err with
  | Some n => if n =? 0 then
                match err_status err with
                | Some s => if Js.truthy s then StStr s else StNum 500
                | None => StNum 500
                end
              else StNum n
  | None => match err_status err with
            | Some s => if Js.truthy s then StStr s else StNum 500
            | None => StNum 500
            end
  end.

(** [err.message || "Internal Server Error"]. *)
Definition default_message (err : js_error) : string :=
  if Js.truthy (err_message err) then err_message err
  else "Internal Server Error".

Definition is_500 (s : status_val) : bool :=
  match s with
  | StNum n => n =? 500
  | StStr _ => false
  end.

Definition code_is (err : js_error) (c : string) : bool :=
  match err_code err with
  | Some c' => String.eqb c' c
  | None => false
  end.

(** The status and message chosen by the chain of [if]/[else if] on
    [err.name] and [err.code]. *)
Definition classify (err : js_error) : status_val * string :=
  if String.eqb (err_name err) "ValidationError" then
    (StNum 400, "Validation Error")
  else if String.eqb (err_name err) "UnauthorizedError" then
    (StNum 401, "Unauthorized")
  else if String.eqb (err_name err) "ForbiddenError" then
    (StNum 403, "Forbidden")
  else if String.eqb (err_name err) "NotFoundError" then
    (StNum 404, "Not Found")
  else if code_is err "P2002" then
    (StNum 409, "Resource already exists")
  else if code_is err "P2025" then
    (StNum 404, "Resource not found")
  else (default_status err, default_message err).

Definition env_is (v : option string) (s : string) : bool :=
  match v with
  | Some x => String.eqb x s
  | None => false
  end.

Definition errorHandler (NODE_ENV : option string) (err : js_error)
  : http_response :=
  let '(statusCode, message0) := classify err in
  let message :=
    if env_is NODE_ENV "production" && is_500 statusCode
    then "Internal Server Error" else message0 in
  {| res_status := statusCode;
     res_body :=
       JObj ([("error", JBool true); ("message", JStr message)]
             ++ (if env_is NODE_ENV "development"
                 then [("stack", JStr (err_stack err))] else [])) |}.

(** [asyncHandler(fn)]: a rejected handler promise goes to [next], which
    ends in [errorHandler], the last middleware of the app. *)
Definition asyncHandler (NODE_ENV : option string)
  (r : result http_response) : http_response :=
  match r with
  | Ok resp => resp
  | Throw e => errorHandler NODE_ENV e
  end.

End ErrorHandler.

(** ** src/middleware/auth.js *)

Module Auth.

Record request_headers := {
  authorization : option string;
  x_api_key : option string
}.

Record auth_env := {
  API_AUTH_KEY : option string;
  JWT_SECRET : option string
}.

(** The decoded token payload; [req.user = { id: decoded.sub, role }]. *)
Record req_user := {
  user_id : option string;
  user_role : option string
}.

(** What the middleware does with the request: call [next()] (with the
    user it attached, if any), call [next(error)], or answer itself. *)
Inductive outcome :=
| Next (user : option req_user)
| NextError (e : js_error)
| Responded (r : http_response).

Section WithJwt.

(** [jwt.verify(token, secret)]: the decoded payload, or [None] when the
    library throws (bad signature, malformed or expired token). *)
Variable jwt_verify : string -> string -> option req_user.

Definition bearerToken_of (h : request_headers) : option string :=
  match authorization h with
  | Some authHeader =>
      if Js.truthy authHeader && Js.startsWith "Bearer " authHeader
      then Some (Js.slice 7 authHeader) else None
  | None => None
  end.

(** The fallback at the end of [authMiddleware]. *)
Definition apiKeyAuth (apiKey : string) (h : request_headers)
  (bearerToken : option string) : outcome :=
  let providedKey := Js.or_else (x_api_key h) bearerToken in
  match providedKey with
  | Some k =>
      if String.eqb k apiKey then Next None
      else NextError (ErrorHandler.UnauthorizedError "Invalid credentials")
  | None => NextError (ErrorHandler.UnauthorizedError "Invalid credentials")
  end.

Definition authMiddleware (env : auth_env) (h : request_headers) : outcome :=
  if negb (Js.truthy_opt (API_AUTH_KEY env)) then
    Responded {| res_status := StNum 500;
                 res_body := JObj [("error", JBool true);
                                   ("message", JStr "Server configuration error")] |}
  else
    let apiKey := default "" (API_AUTH_KEY env) in
    let bearerToken := bearerToken_of h in
    if negb (Js.truthy_opt bearerToken) && negb (Js.truthy_opt (x_api_key h))
    then NextError (ErrorHandler.UnauthorizedError "API key required")
    else
      let verified :=
        if Js.truthy_opt bearerToken && Js.truthy_opt (JWT_SECRET env)
        then jwt_verify (default "" bearerToken) (default "" (JWT_SECRET env))
        else None in
      match verified with
      | Some decoded => Next (Some decoded)
      | None => apiKeyAuth apiKey h bearerToken
      end.

(** The response of a request the middleware stops, as the app sends it:
    [next(error)] reaches [errorHandler]. *)
Definition rejection (NODE_ENV : option string) (o : outcome)
  : option http_response :=
  match o with
  | Next _ => None
  | NextError e => Some (ErrorHandler.errorHandler NODE_ENV e)
  | Responded r => Some r
  end.

End WithJwt.

(** [optionalAuthMiddleware] always calls [next()]; what it decides is
    the flag [req.authenticated]: [None] when it leaves the flag unset
    (no static key configured). Here the bearer token comes before the
    [x-api-key] header in [bearerToken || apiKeyHeader]. *)
Definition optionalAuthMiddleware (env : auth_env) (h : request_headers)
  : option bool :=
  if negb (Js.truthy_opt (API_AUTH_KEY env)) then None
  else
    let apiKey := default "" (API_AUTH_KEY env) in
    let bearerToken := bearerToken_of h in
    let apiKeyHeader := x_api_key h in
    let providedKey := Js.or_else bearerToken apiKeyHeader in
    Some (match providedKey with
          | Some k => Js.truthy k && String.eqb k apiKey
          | None => false
          end).

Definition role_is_admin (u : req_user) : bool :=
  match user_role u with
  | Some r => String.eqb r "ADMIN"
  | None => false
  end.

(** [adminMiddleware], on the [req.user] the auth middleware left. *)
Definition adminMiddleware (user : option req_user) : outcome :=
  match user with
  | None =>
      NextError (ErrorHandler.UnauthorizedError "Authentication required")
  | Some u =>
      if negb (Js.truthy_opt (user_id u)) then
        NextError (ErrorHandler.UnauthorizedError "Authentication required")
      else if negb (role_is_admin u) then
        NextError (ErrorHandler.ForbiddenError "Admin access required")
      else Next (Some u)
  end.

(** The chain in front of the user-management routes:
    [app.use("/api/dashboard", authMiddleware, ...)] and then
    [router.<verb>("/users...", adminMiddleware, ...)]. *)
Definition admin_chain (jwt_verify : string -> string -> option req_user)
  (env : auth_env) (h : request_headers) : outcome :=
  match authMiddleware jwt_verify env h with
  | Next user => adminMiddleware user
  | stopped => stopped
  end.

End Auth.

(** ** src/lib/retell.js *)

Module Retell.

Record call_analysis := {
  call_summary : option string;
  user_sentiment : option string;
  call_successful : option bool
}.

Record call_cost := {
  combined_cost : option Z
}.

(** A call record of the provider. A field the provider may leave out is
    an [option]; for the two timestamps [None] stands for any value
    [BigInt(...)] refuses ([undefined], [null], a non-integer number). *)
Record call := {
  call_id : string;
  agent_id : string;
  caller_info : option string;
  start_timestamp : option Z;
  end_timestamp : option Z;
  duration_ms : option Z;
  transcript : option string;
  call_status : string;
  disconnection_reason : option string;
  cost : option call_cost;
  analysis : option call_analysis;
  recording_url : option string
}.

Record agent := {
  a_agent_id : string;
  a_agent_name : option string;
  a_is_published : option bool;
  a_last_modification_timestamp : option Z
}.

(** The [options] argument of [getCalls]. *)
Record getCalls_options := {
  limit : option Z;
  startAfter : option string;
  startTimestamp : option Z;
  endTimestamp : option Z
}.

(** The body posted to [/list-calls]. *)
Record list_calls_body := {
  body_limit : Z;
  body_start_after : option string;
  body_start_timestamp : option Z;
  body_end_timestamp : option Z
}.

(** [response.data]: an array, an object with or without a [calls]
    property, or [null]. *)
Inductive list_calls_data :=
| DataArray (calls : list call)
| DataObject (calls : option (list call))
| DataNull.

(** [n && { key: n }]: zero and [undefined] leave the key out. *)
Definition num_if_truthy (n : option Z) : option Z :=
  match n with
  | Some v => if v =? 0 then None else Some v
  | None => None
  end.

Definition requestBody (options : getCalls_options) : list_calls_body :=
  {| body_limit := Js.num_or (limit options) 100;
     body_start_after := Js.or_null (startAfter options);
     body_start_timestamp := num_if_truthy (startTimestamp options);
     body_end_timestamp := num_if_truthy (endTimestamp options) |}.

Section WithProvider.

(** [this.client.post("/list-calls", body)]: the data of the response, or
    the error axios rejects with. *)
Variable post_list_calls : list_calls_body -> result list_calls_data.

Definition getCalls (options : getCalls_options) : result list_calls_data :=
  match post_list_calls (requestBody options) with
  | Ok data => Ok data
  | Throw error =>
      Throw (ErrorHandler.PlainError
               ("Failed to fetch calls: " +:+ err_message error))
  end.

(** [Array.isArray(response) ? response : response.calls || []]. *)
Definition calls_of (response : list_calls_data) : result (list call) :=
  match response with
  | DataArray calls => Ok calls
  | DataObject (Some calls) => Ok calls
  | DataObject None => Ok []
  | DataNull =>
      Throw {| err_name := "TypeError";
               err_message := "Cannot read properties of null (reading 'calls')";
               err_statusCode := None; err_status := None;
               err_code := None; err_stack := "" |}
  end.

(** The [while (hasMore)] loop of [getAllCallsInRange]. The loop has no
    bound of its own, so the model takes fuel: [None] means the fuel ran
    out before a page ended the loop. The first component lists the
    [options] of every [getCalls] made, oldest first. *)
Fixpoint drain (fuel : nat) (lim : Z) (startTs endTs : Z)
  (cursor : option string) (allCalls : list call)
  : option (list getCalls_options * result (list call)) :=
  match fuel with
  | O => None
  | S fuel' =>
      let options := {| limit := Some lim; startAfter := cursor;
                        startTimestamp := Some startTs;
                        endTimestamp := Some endTs |} in
      match response ← getCalls options; calls_of response with
      | Throw error => Some ([options], Throw error)
      | Ok calls =>
          let allCalls' := allCalls ++ calls in
          let hasMore :=
            (Z.of_nat (length calls) =? lim) && (0 <? Z.of_nat (length calls)) in
          if hasMore then
            match drain fuel' lim startTs endTs
                    (call_id <$> last calls) allCalls' with
            | Some (trace, r) => Some (options :: trace, r)
            | None => None
            end
          else Some ([options], Ok allCalls')
      end
  end.

(** [getAllCallsInRange(startDate, endDate, limit = 100)]; the dates are
    milliseconds since the epoch. *)
Definition getAllCallsInRange (fuel : nat) (startDate endDate : Z)
  (lim : Z) : option (list getCalls_options * result (list call)) :=
  drain fuel lim (startDate / 1000) (endDate / 1000) None [].

End WithProvider.

End Retell.

(** ** The Joi schemas of src/routes/dashboard.js *)

Module Joi.

(** The value a request gives to a numeric key. Query values arrive as
    strings and Joi converts them; [Int n] is a number, or a string that
    converts to the integer [n], within the safe range. *)
Inductive raw_num :=
| NumAbsent
| Int (n : Z)
| NonInteger
| NotNumber.

(** The value a request gives to a string key. *)
Inductive raw_str :=
| StrAbsent
| Str (s : string)
| NotString.

Definition dq : string := String (Ascii.ascii_of_nat 34) EmptyString.

Definition quoted (key : string) : string := dq +:+ key +:+ dq.

(** [Joi.number().integer().min(lo).max(hi).default(d)]; [hi] is [None]
    when the schema has no [max]. The second component of [lo] and [hi]
    is the bound as Joi prints it. *)
Definition number_integer (key : string) (lo : Z * string)
  (hi : option (Z * string)) (d : Z) (v : raw_num) : string + Z :=
  match v with
  | NumAbsent => inr d
  | NotNumber => inl (quoted key +:+ " must be a number")
  | NonInteger => inl (quoted key +:+ " must be an integer")
  | Int n =>
      if n <? fst lo then
        inl (quoted key +:+ " must be greater than or equal to " +:+ snd lo)
      else
        match hi with
        | Some (h, hs) =>
            if h <? n then
              inl (quoted key +:+ " must be less than or equal to " +:+ hs)
            else inr n
        | None => inr n
        end
  end.

(** [Joi.string().optional()]. *)
Definition string_optional (key : string) (v : raw_str)
  : string + option string :=
  match v with
  | StrAbsent => inr None
  | NotString => inl (quoted key +:+ " must be a string")
  | Str s =>
      if Js.truthy s then inr (Some s)
      else inl (quoted key +:+ " is not allowed to be empty")
  end.

(** [Joi.string().valid("date", "duration", "cost").default("date")]. *)
Definition sortBy_valid (v : raw_str) : string + string :=
  match v with
  | StrAbsent => inr "date"
  | NotString =>
      inl (quoted "sortBy" +:+ " must be one of [date, duration, cost]")
  | Str s =>
      if String.eqb s "date" || String.eqb s "duration" || String.eqb s "cost"
      then inr s
      else inl (quoted "sortBy" +:+ " must be one of [date, duration, cost]")
  end.

(** Keys the schema does not declare are refused after the declared ones
    have been checked. *)
Definition no_unknown (unknown : list string) : string + unit :=
  match unknown with
  | [] => inr tt
  | key :: _ => inl (quoted key +:+ " is not allowed")
  end.

(** [req.query] of the call-history routes. *)
Record history_query := {
  q_limit : raw_num;
  q_offset : raw_num;
  q_sortBy : raw_str;
  q_unknown : list string
}.

Record history_value := {
  limit : Z;
  offset : Z;
  sortBy : string
}.

(** [callHistorySchema.validate(req.query)]: [inl] is
    [error.details[0].message]. *)
Definition callHistorySchema (q : history_query) : string + history_value :=
  match number_integer "limit" (1, "1") (Some (100, "100")) 20 (q_limit q) with
  | inl m => inl m
  | inr l =>
      match number_integer "offset" (0, "0") None 0 (q_offset q) with
      | inl m => inl m
      | inr o =>
          match sortBy_valid (q_sortBy q) with
          | inl m => inl m
          | inr s =>
              match no_unknown (q_unknown q) with
              | inl m => inl m
              | inr _ => inr {| limit := l; offset := o; sortBy := s |}
              end
          end
      end
  end.

(** [req.body] of [POST /sync-calls]. *)
Record sync_body := {
  b_days : raw_num;
  b_agentId : raw_str;
  b_unknown : list string
}.

Record sync_value := {
  days : Z;
  agentId : option string
}.

Definition syncCallsSchema (b : sync_body) : string + sync_value :=
  match number_integer "days" (1, "1") (Some (90, "90")) 30 (b_days b) with
  | inl m => inl m
  | inr d =>
      match string_optional "agentId" (b_agentId b) with
      | inl m => inl m
      | inr a =>
          match no_unknown (b_unknown b) with
          | inl m => inl m
          | inr _ => inr {| days := d; agentId := a |}
          end
      end
  end.

(** [Joi.string().max(n)], required or optional: the type, the empty
    string and then the length are checked. The second component of
    [maxlen] is the bound as Joi prints it. *)
Definition string_max (key : string) (required : bool)
  (maxlen : option (nat * string)) (v : raw_str) : string + option string :=
  match v with
  | StrAbsent =>
      if required then inl (quoted key +:+ " is required") else inr None
  | NotString => inl (quoted key +:+ " must be a string")
  | Str s =>
      if negb (Js.truthy s) then
        inl (quoted key +:+ " is not allowed to be empty")
      else
        match maxlen with
        | Some (n, ns) =>
            if (n <? String.length s)%nat then
              inl (quoted key +:+ " length must be less than or equal to "
                   +:+ ns +:+ " characters long")
            else inr (Some s)
        | None => inr (Some s)
        end
  end.

(** [Joi.string().valid(a, b)], optional. *)
Definition string_valid2 (key a b : string) (v : raw_str)
  : string + option string :=
  match v with
  | StrAbsent => inr None
  | NotString =>
      inl (quoted key +:+ " must be one of [" +:+ a +:+ ", " +:+ b +:+ "]")
  | Str s =>
      if String.eqb s a || String.eqb s b then inr (Some s)
      else inl (quoted key +:+ " must be one of [" +:+ a +:+ ", " +:+ b +:+ "]")
  end.

(** [req.body] of [POST /agents]. *)
Record agent_body := {
  b_agent_id : raw_str;
  b_agent_name : raw_str;
  b_status : raw_str;
  b_agent_unknown : list string
}.

Record createAgent_value := {
  agent_id : string;
  agent_name : string;
  status : string
}.

Definition createAgentSchema (b : agent_body) : string + createAgent_value :=
  match string_max "agent_id" true None (b_agent_id b) with
  | inl m => inl m
  | inr id =>
      match string_max "agent_name" true (Some (200%nat, "200"))
              (b_agent_name b) with
      | inl m => inl m
      | inr name =>
          match string_valid2 "status" "ACTIVE" "INACTIVE" (b_status b) with
          | inl m => inl m
          | inr st =>
              match no_unknown (b_agent_unknown b) with
              | inl m => inl m
              | inr _ =>
                  inr {| agent_id := default "" id;
                         agent_name := default "" name;
                         status := default "ACTIVE" st |}
              end
          end
      end
  end.

(** [req.body] of [PUT /agents/:agentId]. *)
Record agent_update_body := {
  u_agent_name : raw_str;
  u_status : raw_str;
  u_unknown : list string
}.

(** The keys of [value] after [updateAgentSchema]: the ones the body
    gave. *)
Record updateAgent_value := {
  new_agent_name : option string;
  new_status : option string
}.

Definition updateAgentSchema (b : agent_update_body)
  : string + updateAgent_value :=
  match string_max "agent_name" false (Some (200%nat, "200"))
          (u_agent_name b) with
  | inl m => inl m
  | inr name =>
      match string_valid2 "status" "ACTIVE" "INACTIVE" (u_status b) with
      | inl m => inl m
      | inr st =>
          match no_unknown (u_unknown b) with
          | inl m => inl m
          | inr _ => inr {| new_agent_name := name; new_status := st |}
          end
      end
  end.

(** [req.body] of [PUT /users/:userId]. *)
Record user_body := {
  b_name : raw_str;
  b_role : raw_str;
  b_user_unknown : list string
}.

Record updateUser_value := {
  new_name : option string;
  new_role : option string
}.

Definition updateUserSchema (b : user_body) : string + updateUser_value :=
  match string_max "name" false (Some (120%nat, "120")) (b_name b) with
  | inl m => inl m
  | inr name =>
      match string_valid2 "role" "USER" "ADMIN" (b_role b) with
      | inl m => inl m
      | inr role =>
          match no_unknown (b_user_unknown b) with
          | inl m => inl m
          | inr _ => inr {| new_name := name; new_role := role |}
          end
      end
  end.

(** The value a request gives to a date key: absent, a value that Joi's
    date conversion accepts ([DateAt t]: the time of the resulting
    [Date], in milliseconds), or one it refuses. *)
Inductive raw_date :=
| DateAbsent
| DateAt (t : Z)
| NotDate.

(** [Joi.date().optional()]. *)
Definition date_optional (key : string) (v : raw_date)
  : string + option Z :=
  match v with
  | DateAbsent => inr None
  | DateAt t => inr (Some t)
  | NotDate => inl (quoted key +:+ " must be a valid date")
  end.

(** [req.query] of [GET /agents] and what [agentListSchema] makes of
    it. *)
Module AgentList.
Record query := {
  q_limit : raw_num;
  q_offset : raw_num;
  q_status : raw_str;
  q_search : raw_str;
  q_unknown : list string
}.
Record value := {
  limit : Z;
  offset : Z;
  status : option string;
  search : option string
}.
End AgentList.

Definition agentListSchema (q : AgentList.query)
  : string + AgentList.value :=
  match number_integer "limit" (1, "1") (Some (100, "100")) 20
          (AgentList.q_limit q) with
  | inl m => inl m
  | inr l =>
      match number_integer "offset" (0, "0") None 0 (AgentList.q_offset q) with
      | inl m => inl m
      | inr o =>
          match string_valid2 "status" "ACTIVE" "INACTIVE"
                  (AgentList.q_status q) with
          | inl m => inl m
          | inr st =>
              match string_max "search" false (Some (200%nat, "200"))
                      (AgentList.q_search q) with
              | inl m => inl m
              | inr se =>
                  match no_unknown (AgentList.q_unknown q) with
                  | inl m => inl m
                  | inr _ =>
                      inr {| AgentList.limit := l; AgentList.offset := o;
                             AgentList.status := st;
                             AgentList.search := se |}
                  end
              end
          end
      end
  end.

(** [req.query] of [GET /calls] and what [callsListSchema] makes of
    it. *)
Module CallsList.
Record query := {
  q_limit : raw_num;
  q_offset : raw_num;
  q_agentId : raw_str;
  q_startDate : raw_date;
  q_endDate : raw_date;
  q_callStatus : raw_str;
  q_sortBy : raw_str;
  q_unknown : list string
}.
Record value := {
  limit : Z;
  offset : Z;
  agentId : option string;
  startDate : option Z;
  endDate : option Z;
  callStatus : option string;
  sortBy : string
}.
End CallsList.

Definition callsListSchema (q : CallsList.query)
  : string + CallsList.value :=
  match number_integer "limit" (1, "1") (Some (100, "100")) 20
          (CallsList.q_limit q) with
  | inl m => inl m
  | inr l =>
  match number_integer "offset" (0, "0") None 0 (CallsList.q_offset q) with
  | inl m => inl m
  | inr o =>
  match string_optional "agentId" (CallsList.q_agentId q) with
  | inl m => inl m
  | inr a =>
  match date_optional "startDate" (CallsList.q_startDate q) with
  | inl m => inl m
  | inr sd =>
  match date_optional "endDate" (CallsList.q_endDate q) with
  | inl m => inl m
  | inr ed =>
  match string_optional "callStatus" (CallsList.q_callStatus q) with
  | inl m => inl m
  | inr cs =>
  match sortBy_valid (CallsList.q_sortBy q) with
  | inl m => inl m
  | inr sb =>
  match no_unknown (CallsList.q_unknown q) with
  | inl m => inl m
  | inr _ =>
      inr {| CallsList.limit := l; CallsList.offset := o;
             CallsList.agentId := a; CallsList.startDate := sd;
             CallsList.endDate := ed; CallsList.callStatus := cs;
             CallsList.sortBy := sb |}
  end end end end end end end end.

(** [req.query] of [GET /users] and what [userListSchema] makes of it. *)
Module UserList.
Record query := {
  q_limit : raw_num;
  q_offset : raw_num;
  q_role : raw_str;
  q_search : raw_str;
  q_unknown : list string
}.
Record value := {
  limit : Z;
  offset : Z;
  role : option string;
  search : option string
}.
End UserList.

Definition userListSchema (q : UserList.query) : string + UserList.value :=
  match number_integer "limit" (1, "1") (Some (100, "100")) 20
          (UserList.q_limit q) with
  | inl m => inl m
  | inr l =>
      match number_integer "offset" (0, "0") None 0 (UserList.q_offset q) with
      | inl m => inl m
      | inr o =>
          match string_valid2 "role" "USER" "ADMIN" (UserList.q_role q) with
          | inl m => inl m
          | inr ro =>
              match string_max "search" false (Some (200%nat, "200"))
                      (UserList.q_search q) with
              | inl m => inl m
              | inr se =>
                  match no_unknown (UserList.q_unknown q) with
                  | inl m => inl m
                  | inr _ =>
                      inr {| UserList.limit := l; UserList.offset := o;
                             UserList.role := ro; UserList.search := se |}
                  end
              end
          end
      end
  end.

(** [req.query] of [GET /search/calls] and what [searchCallsSchema]
    makes of it. The [min(1)] of [query] never decides: an empty string
    is refused before it. *)
Module SearchCalls.
Record query := {
  q_query : raw_str;
  q_limit : raw_num;
  q_offset : raw_num;
  q_agentId : raw_str;
  q_unknown : list string
}.
Record value := {
  query_text : string;
  limit : Z;
  offset : Z;
  agentId : option string
}.
End SearchCalls.

Definition searchCallsSchema (q : SearchCalls.query)
  : string + SearchCalls.value :=
  match string_max "query" true (Some (500%nat, "500"))
          (SearchCalls.q_query q) with
  | inl m => inl m
  | inr t =>
      match number_integer "limit" (1, "1") (Some (100, "100")) 20
              (SearchCalls.q_limit q) with
      | inl m => inl m
      | inr l =>
          match number_integer "offset" (0, "0") None 0
                  (SearchCalls.q_offset q) with
          | inl m => inl m
          | inr o =>
              match string_optional "agentId" (SearchCalls.q_agentId q) with
              | inl m => inl m
              | inr a =>
                  match no_unknown (SearchCalls.q_unknown q) with
                  | inl m => inl m
                  | inr _ =>
                      inr {| SearchCalls.query_text := default "" t;
                             SearchCalls.limit := l;
                             SearchCalls.offset := o;
                             SearchCalls.agentId := a |}
                  end
              end
          end
      end
  end.

(** [req.query] of [GET /search/agents] and what [searchAgentsSchema]
    makes of it. *)
Module SearchAgents.
Record query := {
  q_query : raw_str;
  q_limit : raw_num;
  q_offset : raw_num;
  q_unknown : list string
}.
Record value := {
  query_text : string;
  limit : Z;
  offset : Z
}.
End SearchAgents.

Definition searchAgentsSchema (q : SearchAgents.query)
  : string + SearchAgents.value :=
  match string_max "query" true (Some (200%nat, "200"))
          (SearchAgents.q_query q) with
  | inl m => inl m
  | inr t =>
      match number_integer "limit" (1, "1") (Some (100, "100")) 20
              (SearchAgents.q_limit q) with
      | inl m => inl m
      | inr l =>
          match number_integer "offset" (0, "0") None 0
                  (SearchAgents.q_offset q) with
          | inl m => inl m
          | inr o =>
              match no_unknown (SearchAgents.q_unknown q) with
              | inl m => inl m
              | inr _ =>
                  inr {| SearchAgents.query_text := default "" t;
                         SearchAgents.limit := l;
                         SearchAgents.offset := o |}
              end
          end
      end
  end.

End Joi.

(** ** The relational store behind the Prisma client *)

Module Store.

Module Agent.
Record row := {
  agent_id : string;
  agent_name : string;
  status : string;
  created_at : Z;
  updated_at : Z
}.
End Agent.

Module Call.
(** The [callData] object of the sync routine; [None] in a duration is
    [undefined] (or [NaN] for the seconds). *)
Record data := {
  call_id : string;
  agent_id : string;
  caller_info : option string;
  start_timestamp : Z;
  end_timestamp : Z;
  duration_ms : option Z;
  duration_seconds : option Z;
  transcript : option string;
  call_status : string;
  disconnection_reason : option string;
  cost : Z;
  call_summary : option string;
  user_sentiment : option string;
  call_successful : bool;
  recording_url : option string
}.

Record row := {
  fields : data;
  created_at : Z;
  updated_at : Z
}.
End Call.

(** The two tables. Agents are keyed by their unique [agent_id]; calls
    are kept in insertion order. Neither order is the order of a
    [findMany]: see [ordered]. *)
Record db := {
  agents : gmap string Agent.row;
  calls : list Call.row
}.

Inductive level := info | warn | error | debug.

(** One [logger.<level>(message, meta)] call. *)
Record log_entry := {
  lvl : level;
  msg : string;
  meta : list (string * json)
}.

(** The state a request handler threads: the database, the number of
    store operations issued so far, and the log written so far. *)
Record world := {
  database : db;
  ops : nat;
  log : list log_entry
}.

Definition logger (l : level) (m : string) (mt : list (string * json))
  (w : world) : world :=
  {| database := database w; ops := ops w;
     log := log w ++ [{| lvl := l; msg := m; meta := mt |}] |}.

Definition set_db (d : db) (w : world) : world :=
  {| database := d; ops := S (ops w); log := log w |}.

Definition tick (w : world) : world :=
  {| database := database w; ops := S (ops w); log := log w |}.

(** Replace the row of [call_id] in place, or [None] if there is none. *)
Fixpoint replace_call (id : string) (f : Call.row -> Call.row)
  (rows : list Call.row) : option (list Call.row) :=
  match rows with
  | [] => None
  | r :: rest =>
      if String.eqb (Call.call_id (Call.fields r)) id
      then Some (f r :: rest)
      else cons r <$> replace_call id f rest
  end.

Definition find_call (id : string) (rows : list Call.row) : option Call.row :=
  List.find (fun r => String.eqb (Call.call_id (Call.fields r)) id) rows.

Section WithStore.

(** [fault n]: the exception with which the [n]-th store operation of
    the request is rejected for a reason of the store's own (connection,
    timeout, a constraint not modelled here), if it is.
    [clock n]: the time in milliseconds at that operation. *)
Variable fault : nat -> option js_error.
Variable clock : nat -> Z.

(** [call_tie n], [agent_tie n]: how the database ranks the rows of
    equal sort key in the [n]-th operation, when that is a [findMany].
    No [orderBy] of the code names a tie-breaker, so the rank is the
    database's choice and may change from one query to the next. *)
Variable call_tie : nat -> Call.row -> Z.
Variable agent_tie : nat -> Agent.row -> Z.

(** [prisma.agent.findUnique({ where: { agent_id } })]. *)
Definition agent_findUnique (id : string) (w : world)
  : world * result (option Agent.row) :=
  match fault (ops w) with
  | Some e => (tick w, Throw e)
  | None => (tick w, Ok (agents (database w) !! id))
  end.

(** [prisma.agent.upsert]: the update branch sets the name and the
    update time, the create branch makes an ACTIVE agent. *)
Definition agent_upsert (id name : string) (w : world)
  : world * result Agent.row :=
  match fault (ops w) with
  | Some e => (tick w, Throw e)
  | None =>
      let now := clock (ops w) in
      let r :=
        match agents (database w) !! id with
        | Some old =>
            {| Agent.agent_id := id; Agent.agent_name := name;
               Agent.status := Agent.status old;
               Agent.created_at := Agent.created_at old;
               Agent.updated_at := now |}
        | None =>
            {| Agent.agent_id := id; Agent.agent_name := name;
               Agent.status := "ACTIVE";
               Agent.created_at := now; Agent.updated_at := now |}
        end in
      (set_db {| agents := <[id := r]> (agents (database w));
                 calls := calls (database w) |} w, Ok r)
  end.

(** Modelled from the spec: the relational schema (prisma/schema.prisma)
    is not among the sources. The README and the specification declare
    [calls.agent_id] a foreign reference to the agents table, so the
    store rejects (Prisma code P2003) a call whose agent has no row. *)
Definition foreign_key_error : js_error :=
  {| err_name := "PrismaClientKnownRequestError";
     err_message := "Foreign key constraint failed on the field: agent_id";
     err_statusCode := None; err_status := None;
     err_code := Some "P2003"; err_stack := "" |}.

(** [prisma.call.upsert({ where: { call_id }, update: d, create: d })]. *)
Definition call_upsert (d : Call.data) (w : world)
  : world * result Call.row :=
  match fault (ops w) with
  | Some e => (tick w, Throw e)
  | None =>
      match agents (database w) !! Call.agent_id d with
      | None => (tick w, Throw foreign_key_error)
      | Some _ =>
          let now := clock (ops w) in
          let rows := calls (database w) in
          match find_call (Call.call_id d) rows with
          | Some old =>
              let r := {| Call.fields := d;
                          Call.created_at := Call.created_at old;
                          Call.updated_at := now |} in
              (set_db {| agents := agents (database w);
                         calls := default rows
                                    (replace_call (Call.call_id d)
                                       (fun _ => r) rows) |} w, Ok r)
          | None =>
              let r := {| Call.fields := d; Call.created_at := now;
                          Call.updated_at := now |} in
              (set_db {| agents := agents (database w);
                         calls := rows ++ [r] |} w, Ok r)
          end
      end
  end.

(** Stable insertion sort, largest key first. *)
Fixpoint insert_desc {A : Type} (key : A -> Z) (x : A) (l : list A)
  : list A :=
  match l with
  | [] => [x]
  | y :: l' =>
      if key y <=? key x then x :: y :: l'
      else y :: insert_desc key x l'
  end.

Definition sort_desc {A : Type} (key : A -> Z) (l : list A) : list A :=
  foldr (insert_desc key) [] l.

(** [orderBy: { column: "desc" }] on the rows [l] of one query: largest
    [key] first. The order among rows of equal key is not the code's: it
    is given by [tie], the rank the database gives the rows in this
    query (largest first; rows it ranks alike stay in table order). Any
    arrangement of distinct rows that is largest key first is [ordered]
    for some [tie]. *)
Definition ordered {A : Type} (key tie : A -> Z) (l : list A) : list A :=
  sort_desc key (sort_desc tie l).

(** [prisma.call.findMany({ where: { agent_id }, orderBy, skip, take })]. *)
Definition call_findMany (id : string) (key : Call.row -> Z)
  (skip take : Z) (w : world) : world * result (list Call.row) :=
  match fault (ops w) with
  | Some e => (tick w, Throw e)
  | None =>
      let matching :=
        filter (fun r => Call.agent_id (Call.fields r) = id)
               (calls (database w)) in
      (tick w,
       Ok (firstn (Z.to_nat take)
             (skipn (Z.to_nat skip)
                (ordered key (call_tie (ops w)) matching))))
  end.

(** [prisma.call.count({ where: { agent_id } })]. *)
Definition call_count (id : string) (w : world) : world * result Z :=
  match fault (ops w) with
  | Some e => (tick w, Throw e)
  | None =>
      (tick w,
       Ok (Z.of_nat (length (filter
                               (fun r => Call.agent_id (Call.fields r) = id)
                               (calls (database w))))))
  end.

(** Modelled from the spec: the relational schema (prisma/schema.prisma)
    is not among the sources. The README and the specification declare
    [agents.agent_id] unique, which the [where: { agent_id }] of every
    [findUnique] presupposes; Prisma rejects a second row with code
    P2002, and an update of a missing row with code P2025. *)
Definition unique_constraint_error : js_error :=
  {| err_name := "PrismaClientKnownRequestError";
     err_message := "Unique constraint failed on the fields: (agent_id)";
     err_statusCode := None; err_status := None;
     err_code := Some "P2002"; err_stack := "" |}.

Definition record_not_found_error : js_error :=
  {| err_name := "PrismaClientKnownRequestError";
     err_message := "Record to update not found.";
     err_statusCode := None; err_status := None;
     err_code := Some "P2025"; err_stack := "" |}.

(** [prisma.agent.create({ data: { agent_id, agent_name, status } })]. *)
Definition agent_create (id name status : string) (w : world)
  : world * result Agent.row :=
  match fault (ops w) with
  | Some e => (tick w, Throw e)
  | None =>
      match agents (database w) !! id with
      | Some _ => (tick w, Throw unique_constraint_error)
      | None =>
          let now := clock (ops w) in
          let r := {| Agent.agent_id := id; Agent.agent_name := name;
                      Agent.status := status;
                      Agent.created_at := now; Agent.updated_at := now |} in
          (set_db {| agents := <[id := r]> (agents (database w));
                     calls := calls (database w) |} w, Ok r)
      end
  end.

(** [prisma.agent.update({ where: { agent_id }, data })], [data] holding
    a new name, a new status, both or neither. *)
Definition agent_update (id : string) (name status : option string)
  (w : world) : world * result Agent.row :=
  match fault (ops w) with
  | Some e => (tick w, Throw e)
  | None =>
      match agents (database w) !! id with
      | None => (tick w, Throw record_not_found_error)
      | Some old =>
          let r := {| Agent.agent_id := id;
                      Agent.agent_name := default (Agent.agent_name old) name;
                      Agent.status := default (Agent.status old) status;
                      Agent.created_at := Agent.created_at old;
                      Agent.updated_at := clock (ops w) |} in
          (set_db {| agents := <[id := r]> (agents (database w));
                     calls := calls (database w) |} w, Ok r)
      end
  end.

(** The [prisma.agent.upsert] of the agent sync: both branches set the
    name and the status. *)
Definition agent_upsert_status (id name status : string) (w : world)
  : world * result Agent.row :=
  match fault (ops w) with
  | Some e => (tick w, Throw e)
  | None =>
      let now := clock (ops w) in
      let r :=
        match agents (database w) !! id with
        | Some old =>
            {| Agent.agent_id := id; Agent.agent_name := name;
               Agent.status := status;
               Agent.created_at := Agent.created_at old;
               Agent.updated_at := now |}
        | None =>
            {| Agent.agent_id := id; Agent.agent_name := name;
               Agent.status := status;
               Agent.created_at := now; Agent.updated_at := now |}
        end in
      (set_db {| agents := <[id := r]> (agents (database w));
                 calls := calls (database w) |} w, Ok r)
  end.

(** [prisma.call.findUnique({ where: { call_id } })]. *)
Definition call_findUnique (id : string) (w : world)
  : world * result (option Call.row) :=
  match fault (ops w) with
  | Some e => (tick w, Throw e)
  | None => (tick w, Ok (find_call id (calls (database w))))
  end.

(** [prisma.agent.count({ where })], the filter as a test on rows. *)
Definition agent_count (p : Agent.row -> bool) (w : world)
  : world * result Z :=
  match fault (ops w) with
  | Some e => (tick w, Throw e)
  | None =>
      (tick w,
       Ok (Z.of_nat (length (List.filter p
                               (snd <$> map_to_list (agents (database w)))))))
  end.

(** [prisma.call.count()]. *)
Definition call_count_all (w : world) : world * result Z :=
  match fault (ops w) with
  | Some e => (tick w, Throw e)
  | None => (tick w, Ok (Z.of_nat (length (calls (database w)))))
  end.

(** [prisma.call.aggregate({ _sum: { cost: true } })]: the value of
    [_sum.cost], [null] on an empty table. *)
Definition call_sum_cost (w : world) : world * result (option Z) :=
  match fault (ops w) with
  | Some e => (tick w, Throw e)
  | None =>
      (tick w,
       Ok (match calls (database w) with
           | [] => None
           | rows =>
               Some (foldr (fun r acc => Call.cost (Call.fields r) + acc)
                       0 rows)
           end))
  end.

(** [prisma.call.findMany({ where, orderBy, skip, take })] and
    [prisma.call.count({ where })], the [where] clause as a test on
    rows. *)
Definition call_findMany_where (p : Call.row -> bool) (key : Call.row -> Z)
  (skip take : Z) (w : world) : world * result (list Call.row) :=
  match fault (ops w) with
  | Some e => (tick w, Throw e)
  | None =>
      (tick w,
       Ok (firstn (Z.to_nat take)
             (skipn (Z.to_nat skip)
                (ordered key (call_tie (ops w))
                   (List.filter p (calls (database w)))))))
  end.

Definition call_count_where (p : Call.row -> bool) (w : world)
  : world * result Z :=
  match fault (ops w) with
  | Some e => (tick w, Throw e)
  | None =>
      (tick w, Ok (Z.of_nat (length (List.filter p (calls (database w))))))
  end.

(** [prisma.agent.findMany({ where, orderBy: { created_at: "desc" },
    skip, take })]. *)
Definition agent_findMany (p : Agent.row -> bool) (skip take : Z)
  (w : world) : world * result (list Agent.row) :=
  match fault (ops w) with
  | Some e => (tick w, Throw e)
  | None =>
      (tick w,
       Ok (firstn (Z.to_nat take)
             (skipn (Z.to_nat skip)
                (ordered Agent.created_at (agent_tie (ops w))
                   (List.filter p
                      (snd <$> map_to_list (agents (database w))))))))
  end.

End WithStore.

End Store.

(** ** src/routes/dashboard.js *)

Module Dashboard.

Import Store.

(** The entries of [agentMap]. *)
Record agent_info := {
  agent_name : string;
  is_published : bool;
  last_modification_timestamp : option Z
}.

Definition agentMap_set (m : gmap string agent_info) (a : Retell.agent)
  : gmap string agent_info :=
  <[Retell.a_agent_id a :=
      {| agent_name :=
           default ("Agent " +:+ Retell.a_agent_id a)
                   (Js.or_null (Retell.a_agent_name a));
         is_published := default false (Retell.a_is_published a);
         last_modification_timestamp :=
           Retell.a_last_modification_timestamp a |}]> m.

(** [[...new Set(ids)]]: the distinct identifiers in order of first
    occurrence. *)
Fixpoint uniqueIds (ids : list string) : list string :=
  match ids with
  | [] => []
  | x :: rest => x :: filter (fun y => y <> x) (uniqueIds rest)
  end.

(** The thrown [TypeError] of [BigInt(undefined)]. *)
Definition bigint_error : js_error :=
  {| err_name := "TypeError";
     err_message := "Cannot convert undefined to a BigInt";
     err_statusCode := None; err_status := None;
     err_code := None; err_stack := "" |}.

(** The [callData] object built from one provider record. *)
Definition callData (c : Retell.call) : result Call.data :=
  let durationSeconds := (fun ms => ms / 1000) <$> Retell.duration_ms c in
  match Retell.start_timestamp c, Retell.end_timestamp c with
  | Some s, Some e =>
      Ok {| Call.call_id := Retell.call_id c;
            Call.agent_id := Retell.agent_id c;
            Call.caller_info := Js.or_null (Retell.caller_info c);
            Call.start_timestamp := s;
            Call.end_timestamp := e;
            Call.duration_ms := Retell.duration_ms c;
            Call.duration_seconds := durationSeconds;
            Call.transcript := Js.or_null (Retell.transcript c);
            Call.call_status := Retell.call_status c;
            Call.disconnection_reason :=
              Js.or_null (Retell.disconnection_reason c);
            Call.cost :=
              Js.num_or (Retell.cost c ≫= Retell.combined_cost) 0;
            Call.call_summary :=
              Js.or_null (Retell.analysis c ≫= Retell.call_summary);
            Call.user_sentiment :=
              Js.or_null (Retell.analysis c ≫= Retell.user_sentiment);
            Call.call_successful :=
              default false (Retell.analysis c ≫= Retell.call_successful);
            Call.recording_url := Js.or_null (Retell.recording_url c) |}
  | _, _ => Throw bigint_error
  end.

Inductive call_outcome := Created | Updated | Failed.

Record counters := {
  syncedCount : Z;
  updatedCount : Z;
  errorCount : Z
}.

Definition count (o : call_outcome) (k : counters) : counters :=
  match o with
  | Created => {| syncedCount := syncedCount k + 1;
                  updatedCount := updatedCount k;
                  errorCount := errorCount k |}
  | Updated => {| syncedCount := syncedCount k;
                  updatedCount := updatedCount k + 1;
                  errorCount := errorCount k |}
  | Failed => {| syncedCount := syncedCount k;
                 updatedCount := updatedCount k;
                 errorCount := errorCount k + 1 |}
  end.

Definition dateRange (startDate endDate : Z) : json :=
  JObj [("start", JDate startDate); ("end", JDate endDate)].

Section WithStore.

Variable fault : nat -> option js_error.
Variable clock : nat -> Z.
Variable call_tie : nat -> Call.row -> Z.
Variable agent_tie : nat -> Agent.row -> Z.

(** [{ contains: q, mode: "insensitive" }] on a column: whether the
    database finds [q] in the value of the column, case ignored. *)
Variable contains_insensitive : string -> string -> bool.

(** The body of the first [for] loop: one agent upsert inside its own
    [try]/[catch]. *)
Definition ensureAgent (agentMap : gmap string agent_info) (w : world)
  (agentId : string) : world :=
  let agentName :=
    match agentMap !! agentId with
    | Some agentInfo => agent_name agentInfo
    | None => "Agent " +:+ agentId
    end in
  match agent_upsert fault clock agentId agentName w with
  | (w', Ok _) => w'
  | (w', Throw agentError) =>
      logger error "Error creating/updating agent"
        [("agentId", JStr agentId);
         ("error", JStr (err_message agentError))] w'
  end.

Definition ensureAgents (agentMap : gmap string agent_info)
  (ids : list string) (w : world) : world :=
  foldl (ensureAgent agentMap) w ids.

(** The body of the second [for] loop: map one record, upsert it, and
    classify the result by comparing the two timestamps of the row. *)
Definition processCall (w : world) (c : Retell.call)
  : world * call_outcome :=
  match callData c with
  | Throw callError =>
      (logger error "Error processing call"
         [("callId", JStr (Retell.call_id c));
          ("error", JStr (err_message callError))] w, Failed)
  | Ok d =>
      match call_upsert fault clock d w with
      | (w', Ok r) =>
          (w', if Call.created_at r =? Call.updated_at r
               then Created else Updated)
      | (w', Throw callError) =>
          (logger error "Error processing call"
             [("callId", JStr (Retell.call_id c));
              ("error", JStr (err_message callError))] w', Failed)
      end
  end.

Definition processCalls (cs : list Retell.call) (w : world) (k : counters)
  : world * counters :=
  foldl (fun st c =>
           let '(w', o) := processCall (fst st) c in
           (w', count o (snd st)))
        (w, k) cs.

(** [agentId ? calls.filter(...) : calls]. *)
Definition filterCalls (agentId : option string) (cs : list Retell.call)
  : list Retell.call :=
  match agentId with
  | Some a =>
      if Js.truthy a then filter (fun c => Retell.agent_id c = a) cs else cs
  | None => cs
  end.

(** The inner [try]/[catch] around [retellAPI.getAgents()]. *)
Definition fetchAgentMap (agents : result (option (list Retell.agent)))
  (w : world) : world * gmap string agent_info :=
  let w := logger info "Fetching agents from Retell API..." [] w in
  match agents with
  | Ok (Some (a :: rest)) =>
      (logger info "Fetched agents"
         [("agentCount", JNum (Z.of_nat (length (a :: rest))))] w,
       foldl agentMap_set ∅ (a :: rest))
  | Ok _ => (logger warn "No agents found in Retell API" [] w, ∅)
  | Throw agentError =>
      (logger warn
         "Failed to fetch agents from Retell API, will use default names"
         [("error", JStr (err_message agentError))] w, ∅)
  end.

Definition opt_str (o : option string) : json :=
  match o with
  | Some s => JStr s
  | None => JNull
  end.

(** The handler of [POST /sync-calls], given the time of the request,
    what [retellAPI.getAgents()] produces, and the method
    [retellAPI.getAllCallsInRange] as a function of the two dates: [None]
    when the drain of the provider does not end, else its array or its
    exception. The start of the window is [days] calendar days before
    [now]; it is taken here in a zone without clock changes. *)
Definition syncCalls
  (getAllCallsInRange : Z -> Z -> option (result (list Retell.call)))
  (now : Z) (body : Joi.sync_body)
  (agents : result (option (list Retell.agent))) (w : world)
  : option (world * result http_response) :=
  match Joi.syncCallsSchema body with
  | inl message => Some (w, Throw (ErrorHandler.ValidationError message))
  | inr value =>
      let days := Joi.days value in
      let agentId := Joi.agentId value in
      let endDate := now in
      let startDate := now - days * 86400000 in
      let w := logger info "Starting call sync"
                 [("days", JNum days); ("startDate", JDate startDate);
                  ("endDate", JDate endDate); ("agentId", opt_str agentId)] w in
      let '(w, agentMap) := fetchAgentMap agents w in
      fetched ← getAllCallsInRange startDate endDate;
      Some
        match fetched with
        | Throw syncError =>
            (logger error "Call sync failed"
               [("error", JStr (err_message syncError)); ("days", JNum days);
                ("agentId", opt_str agentId)] w, Throw syncError)
        | Ok [] =>
            (w, Ok (res_json
                      (JObj [("success", JBool true);
                             ("message",
                              JStr "No calls found in the specified date range");
                             ("callsSynced", JNum 0);
                             ("dateRange", dateRange startDate endDate)])))
        | Ok calls =>
            let filteredCalls := filterCalls agentId calls in
            let uniqueAgentIds :=
              uniqueIds (map Retell.agent_id filteredCalls) in
            let w := logger info "Creating/updating agents"
                       [("agentCount",
                         JNum (Z.of_nat (length uniqueAgentIds)))] w in
            let w := ensureAgents agentMap uniqueAgentIds w in
            let '(w, k) :=
              processCalls filteredCalls w
                {| syncedCount := 0; updatedCount := 0; errorCount := 0 |} in
            let w := logger info "Call sync completed"
                       [("totalCalls", JNum (Z.of_nat (length filteredCalls)));
                        ("syncedCount", JNum (syncedCount k));
                        ("updatedCount", JNum (updatedCount k));
                        ("errorCount", JNum (errorCount k))] w in
            (w, Ok (res_json
                      (JObj [("success", JBool true);
                             ("message", JStr "Call sync completed");
                             ("callsSynced", JNum (syncedCount k));
                             ("callsUpdated", JNum (updatedCount k));
                             ("errors", JNum (errorCount k));
                             ("dateRange", dateRange startDate endDate)])))
        end
  end.

(** The whole endpoint: the handler above with the provider client of
    [retell.js] (page limit 100, [fuel] pages at most), its exceptions
    rendered by [errorHandler]. *)
Definition POST_sync_calls (NODE_ENV : option string)
  (post_list_calls : Retell.list_calls_body -> result Retell.list_calls_data)
  (fuel : nat) (now : Z) (body : Joi.sync_body)
  (agents : result (option (list Retell.agent))) (w : world)
  : option (world * http_response) :=
  '(w', r) ← syncCalls
               (fun startDate endDate =>
                  snd <$> Retell.getAllCallsInRange post_list_calls fuel
                            startDate endDate 100)
               now body agents w;
  Some (w', ErrorHandler.asyncHandler NODE_ENV r).

(** The sort key of the [switch (sortBy)]. *)
Definition sort_key (sortBy : string) (r : Call.row) : Z :=
  if String.eqb sortBy "duration"
  then default 0 (Call.duration_seconds (Call.fields r))
  else if String.eqb sortBy "cost" then Call.cost (Call.fields r)
  else Call.start_timestamp (Call.fields r).

Definition opt_num (o : option Z) : json :=
  match o with
  | Some n => JNum n
  | None => JNull
  end.

(** One element of [formattedCalls]: the selected columns, the two
    timestamps as numbers. The surrogate key [id], which the store
    generates, is left out. *)
Definition formatCall (r : Call.row) : json :=
  let d := Call.fields r in
  JObj [("call_id", JStr (Call.call_id d));
        ("caller_info", opt_str (Call.caller_info d));
        ("start_timestamp", JNum (Call.start_timestamp d));
        ("end_timestamp", JNum (Call.end_timestamp d));
        ("duration_ms", opt_num (Call.duration_ms d));
        ("duration_seconds", opt_num (Call.duration_seconds d));
        ("transcript", opt_str (Call.transcript d));
        ("call_status", JStr (Call.call_status d));
        ("disconnection_reason", opt_str (Call.disconnection_reason d));
        ("cost", JNum (Call.cost d));
        ("call_summary", opt_str (Call.call_summary d));
        ("user_sentiment", opt_str (Call.user_sentiment d));
        ("call_successful", JBool (Call.call_successful d));
        ("recording_url", opt_str (Call.recording_url d));
        ("created_at", JDate (Call.created_at r));
        ("updated_at", JDate (Call.updated_at r))].

(** The handler of [GET /call-history/:agentId]. *)
Definition callHistory (agentId : string) (query : Joi.history_query)
  (w : world) : world * result http_response :=
  match Joi.callHistorySchema query with
  | inl message => (w, Throw (ErrorHandler.ValidationError message))
  | inr value =>
      if negb (Js.truthy agentId) then
        (w, Throw (ErrorHandler.ValidationError "Agent ID is required"))
      else
        let limit := Joi.limit value in
        let offset := Joi.offset value in
        match agent_findUnique fault agentId w with
        | (w, Throw e) => (w, Throw e)
        | (w, Ok None) =>
            (w, Throw (ErrorHandler.NotFoundError
                         ("Agent with ID " +:+ agentId +:+ " not found")))
        | (w, Ok (Some _)) =>
            let '(w, found) :=
              call_findMany fault call_tie agentId
                (sort_key (Joi.sortBy value))
                offset limit w in
            let '(w, counted) := call_count fault agentId w in
            match found, counted with
            | Throw e, _ => (w, Throw e)
            | Ok _, Throw e => (w, Throw e)
            | Ok calls, Ok totalCount =>
                (w, Ok (res_json
                          (JObj [("success", JBool true);
                                 ("data",
                                  JObj [("calls", JArr (map formatCall calls));
                                        ("pagination",
                                         JObj [("total", JNum totalCount);
                                               ("limit", JNum limit);
                                               ("offset", JNum offset);
                                               ("hasMore",
                                                JBool (offset + limit <? totalCount))])])])))
            end
        end
  end.

(** The endpoint as the client sees it. *)
Definition GET_call_history (NODE_ENV : option string) (agentId : string)
  (query : Joi.history_query) (w : world) : http_response :=
  ErrorHandler.asyncHandler NODE_ENV (snd (callHistory agentId query w)).

(** The selected columns of an agent row; the surrogate key [id], which
    the store generates, is left out. *)
Definition agentJson (r : Agent.row) : json :=
  JObj [("agent_id", JStr (Agent.agent_id r));
        ("agent_name", JStr (Agent.agent_name r));
        ("status", JStr (Agent.status r));
        ("created_at", JDate (Agent.created_at r));
        ("updated_at", JDate (Agent.updated_at r))].

(** The handler of [GET /agent-info/:agentId]. *)
Definition agentInfo (agentId : string) (w : world)
  : world * result http_response :=
  if negb (Js.truthy agentId) then
    (w, Throw (ErrorHandler.ValidationError "Agent ID is required"))
  else
    match agent_findUnique fault agentId w with
    | (w, Throw e) => (w, Throw e)
    | (w, Ok None) =>
        (w, Throw (ErrorHandler.NotFoundError
                     ("Agent with ID " +:+ agentId +:+ " not found")))
    | (w, Ok (Some agent)) =>
        (w, Ok (res_json (JObj [("success", JBool true);
                                ("data", agentJson agent)])))
    end.

(** The handler of [POST /agents]. *)
Definition createAgent (body : Joi.agent_body) (w : world)
  : world * result http_response :=
  match Joi.createAgentSchema body with
  | inl message => (w, Throw (ErrorHandler.ValidationError message))
  | inr value =>
      match agent_findUnique fault (Joi.agent_id value) w with
      | (w, Throw e) => (w, Throw e)
      | (w, Ok (Some _)) =>
          (w, Throw (ErrorHandler.ValidationError
                       "Agent with this ID already exists"))
      | (w, Ok None) =>
          match agent_create fault clock (Joi.agent_id value)
                  (Joi.agent_name value)
                  (if Js.truthy (Joi.status value) then Joi.status value
                   else "ACTIVE") w with
          | (w, Throw e) => (w, Throw e)
          | (w, Ok agent) =>
              (w, Ok {| res_status := StNum 201;
                        res_body := JObj [("success", JBool true);
                                          ("data", agentJson agent)] |})
          end
      end
  end.

(** The handler of [PUT /agents/:agentId]. *)
Definition updateAgent (agentId : string) (body : Joi.agent_update_body)
  (w : world) : world * result http_response :=
  match Joi.updateAgentSchema body with
  | inl message => (w, Throw (ErrorHandler.ValidationError message))
  | inr value =>
      if negb (Js.truthy agentId) then
        (w, Throw (ErrorHandler.ValidationError "Agent ID is required"))
      else
        match agent_findUnique fault agentId w with
        | (w, Throw e) => (w, Throw e)
        | (w, Ok None) =>
            (w, Throw (ErrorHandler.NotFoundError
                         ("Agent with ID " +:+ agentId +:+ " not found")))
        | (w, Ok (Some _)) =>
            match agent_update fault clock agentId
                    (Joi.new_agent_name value) (Joi.new_status value) w with
            | (w, Throw e) => (w, Throw e)
            | (w, Ok agent) =>
                (w, Ok (res_json (JObj [("success", JBool true);
                                        ("data", agentJson agent)])))
            end
        end
  end.

(** The handler of [DELETE /agents/:agentId]. *)
Definition deleteAgent (agentId : string) (w : world)
  : world * result http_response :=
  if negb (Js.truthy agentId) then
    (w, Throw (ErrorHandler.ValidationError "Agent ID is required"))
  else
    match agent_findUnique fault agentId w with
    | (w, Throw e) => (w, Throw e)
    | (w, Ok None) =>
        (w, Throw (ErrorHandler.NotFoundError
                     ("Agent with ID " +:+ agentId +:+ " not found")))
    | (w, Ok (Some _)) =>
        match agent_update fault clock agentId None (Some "INACTIVE") w with
        | (w, Throw e) => (w, Throw e)
        | (w, Ok agent) =>
            (w, Ok (res_json
                      (JObj [("success", JBool true);
                             ("message",
                              JStr "Agent deactivated successfully");
                             ("data", agentJson agent)])))
        end
    end.

(** The body of the loop of [POST /sync-agents]: one upsert inside its
    own [try]/[catch], classified like a call of the call sync. *)
Definition syncAgent (w : world) (agent : Retell.agent)
  : world * call_outcome :=
  let agentName :=
    default ("Agent " +:+ Retell.a_agent_id agent)
            (Js.or_null (Retell.a_agent_name agent)) in
  let status :=
    if default false (Retell.a_is_published agent)
    then "ACTIVE" else "INACTIVE" in
  match agent_upsert_status fault clock (Retell.a_agent_id agent)
          agentName status w with
  | (w', Ok r) =>
      (w', if Agent.created_at r =? Agent.updated_at r
           then Created else Updated)
  | (w', Throw agentError) =>
      (logger error "Error syncing agent"
         [("agentId", JStr (Retell.a_agent_id agent));
          ("error", JStr (err_message agentError))] w', Failed)
  end.

Definition syncAgentsLoop (agents : list Retell.agent) (w : world)
  (k : counters) : world * counters :=
  foldl (fun st a =>
           let '(w', o) := syncAgent (fst st) a in
           (w', count o (snd st)))
        (w, k) agents.

(** The handler of [POST /sync-agents], given what
    [retellAPI.getAgents()] produces. *)
Definition syncAgents (agents : result (option (list Retell.agent)))
  (w : world) : world * result http_response :=
  let w := logger info "Starting agent sync from Retell API" [] w in
  match agents with
  | Throw syncError =>
      (logger error "Agent sync failed"
         [("error", JStr (err_message syncError))] w, Throw syncError)
  | Ok None | Ok (Some []) =>
      (w, Ok (res_json (JObj [("success", JBool true);
                              ("message", JStr "No agents found in Retell API");
                              ("agentsSynced", JNum 0)])))
  | Ok (Some roster) =>
      let '(w, k) :=
        syncAgentsLoop roster w
          {| syncedCount := 0; updatedCount := 0; errorCount := 0 |} in
      let w := logger info "Agent sync completed"
                 [("totalAgents", JNum (Z.of_nat (length roster)));
                  ("syncedCount", JNum (syncedCount k));
                  ("updatedCount", JNum (updatedCount k));
                  ("errorCount", JNum (errorCount k))] w in
      (w, Ok (res_json (JObj [("success", JBool true);
                              ("message", JStr "Agent sync completed");
                              ("agentsSynced", JNum (syncedCount k));
                              ("agentsUpdated", JNum (updatedCount k));
                              ("errors", JNum (errorCount k))])))
  end.

(** One call with all its selected columns and the [agent] relation, as
    [GET /calls/:callId] formats it. *)
Definition formatCallWithAgent (d : db) (r : Call.row) : json :=
  let c := Call.fields r in
  JObj [("call_id", JStr (Call.call_id c));
        ("agent_id", JStr (Call.agent_id c));
        ("caller_info", opt_str (Call.caller_info c));
        ("start_timestamp", JNum (Call.start_timestamp c));
        ("end_timestamp", JNum (Call.end_timestamp c));
        ("duration_ms", opt_num (Call.duration_ms c));
        ("duration_seconds", opt_num (Call.duration_seconds c));
        ("transcript", opt_str (Call.transcript c));
        ("call_status", JStr (Call.call_status c));
        ("disconnection_reason", opt_str (Call.disconnection_reason c));
        ("cost", JNum (Call.cost c));
        ("call_summary", opt_str (Call.call_summary c));
        ("user_sentiment", opt_str (Call.user_sentiment c));
        ("call_successful", JBool (Call.call_successful c));
        ("recording_url", opt_str (Call.recording_url c));
        ("created_at", JDate (Call.created_at r));
        ("updated_at", JDate (Call.updated_at r));
        ("agent",
         match agents d !! Call.agent_id c with
         | Some a => JObj [("agent_id", JStr (Agent.agent_id a));
                           ("agent_name", JStr (Agent.agent_name a));
                           ("status", JStr (Agent.status a))]
         | None => JNull
         end)].

(** The handler of [GET /calls/:callId]. *)
Definition callById (callId : string) (w : world)
  : world * result http_response :=
  if negb (Js.truthy callId) then
    (w, Throw (ErrorHandler.ValidationError "Call ID is required"))
  else
    match call_findUnique fault callId w with
    | (w, Throw e) => (w, Throw e)
    | (w, Ok None) =>
        (w, Throw (ErrorHandler.NotFoundError
                     ("Call with ID " +:+ callId +:+ " not found")))
    | (w, Ok (Some call)) =>
        (w, Ok (res_json
                  (JObj [("success", JBool true);
                         ("data", formatCallWithAgent (database w) call)])))
    end.

Definition is_active (r : Agent.row) : bool :=
  String.eqb (Agent.status r) "ACTIVE".

(** The handler of [GET /stats]: four store operations started together,
    the first rejection (in the order of the array) rejecting the lot. *)
Definition stats (w : world) : world * result http_response :=
  let '(w, totalAgents) := agent_count fault (fun _ => true) w in
  let '(w, activeAgents) := agent_count fault is_active w in
  let '(w, totalCalls) := call_count_all fault w in
  let '(w, totalCost) := call_sum_cost fault w in
  (w,
   total ← totalAgents;
   active ← activeAgents;
   calls ← totalCalls;
   cost ← totalCost;
   Ok (res_json
         (JObj [("success", JBool true);
                ("data",
                 JObj [("agents",
                        JObj [("total", JNum total);
                              ("active", JNum active);
                              ("inactive", JNum (total - active))]);
                       ("calls", JObj [("total", JNum calls)]);
                       ("cost", JObj [("total", JNum (Js.num_or cost 0))])])]))).

(** [if (x) { where... }]: the condition on the row is part of the
    [where] clause when [x] is truthy. *)
Definition if_given (x : option string) (test : string -> bool) : bool :=
  match x with
  | Some s => if Js.truthy s then test s else true
  | None => true
  end.

(** [{ contains: q, mode: "insensitive" }] on a column that may be
    [null]. *)
Definition opt_contains (column : option string) (q : string) : bool :=
  match column with
  | Some s => contains_insensitive s q
  | None => false
  end.

(** What ends every list handler but the one above, which has it
    inline: [Promise.all([findMany, count])], rejected by the first
    rejection in the order of the array, and the [res.json] with the page
    under [key]. *)
Definition paginated {A : Type} (key : string) (format : A -> json)
  (limit offset : Z) (found : result (list A)) (counted : result Z)
  : result http_response :=
  match found, counted with
  | Throw e, _ => Throw e
  | Ok _, Throw e => Throw e
  | Ok rows, Ok totalCount =>
      Ok (res_json
            (JObj [("success", JBool true);
                   ("data",
                    JObj [(key, JArr (map format rows));
                          ("pagination",
                           JObj [("total", JNum totalCount);
                                 ("limit", JNum limit);
                                 ("offset", JNum offset);
                                 ("hasMore",
                                  JBool (offset + limit <? totalCount))])])]))
  end.

(** The [agent: { select: { agent_id, agent_name } }] of a listed
    call. *)
Definition agentOf (d : db) (r : Call.row) : json :=
  match agents d !! Call.agent_id (Call.fields r) with
  | Some a => JObj [("agent_id", JStr (Agent.agent_id a));
                    ("agent_name", JStr (Agent.agent_name a))]
  | None => JNull
  end.

(** One element of [formattedCalls] in [GET /calls] and
    [GET /call-history]. *)
Definition callListed (d : db) (r : Call.row) : json :=
  let c := Call.fields r in
  JObj [("call_id", JStr (Call.call_id c));
        ("agent_id", JStr (Call.agent_id c));
        ("caller_info", opt_str (Call.caller_info c));
        ("start_timestamp", JNum (Call.start_timestamp c));
        ("end_timestamp", JNum (Call.end_timestamp c));
        ("duration_ms", opt_num (Call.duration_ms c));
        ("duration_seconds", opt_num (Call.duration_seconds c));
        ("transcript", opt_str (Call.transcript c));
        ("call_status", JStr (Call.call_status c));
        ("disconnection_reason", opt_str (Call.disconnection_reason c));
        ("cost", JNum (Call.cost c));
        ("call_summary", opt_str (Call.call_summary c));
        ("user_sentiment", opt_str (Call.user_sentiment c));
        ("call_successful", JBool (Call.call_successful c));
        ("recording_url", opt_str (Call.recording_url c));
        ("created_at", JDate (Call.created_at r));
        ("updated_at", JDate (Call.updated_at r));
        ("agent", agentOf d r)].

(** One element of [formattedCalls] in [GET /search/calls], whose
    [select] leaves [disconnection_reason] out. *)
Definition callFound (d : db) (r : Call.row) : json :=
  let c := Call.fields r in
  JObj [("call_id", JStr (Call.call_id c));
        ("agent_id", JStr (Call.agent_id c));
        ("caller_info", opt_str (Call.caller_info c));
        ("start_timestamp", JNum (Call.start_timestamp c));
        ("end_timestamp", JNum (Call.end_timestamp c));
        ("duration_ms", opt_num (Call.duration_ms c));
        ("duration_seconds", opt_num (Call.duration_seconds c));
        ("transcript", opt_str (Call.transcript c));
        ("call_status", JStr (Call.call_status c));
        ("cost", JNum (Call.cost c));
        ("call_summary", opt_str (Call.call_summary c));
        ("user_sentiment", opt_str (Call.user_sentiment c));
        ("call_successful", JBool (Call.call_successful c));
        ("recording_url", opt_str (Call.recording_url c));
        ("created_at", JDate (Call.created_at r));
        ("updated_at", JDate (Call.updated_at r));
        ("agent", agentOf d r)].

(** One listed agent: the selected columns and
    [_count: { select: { calls: true } }]. *)
Definition agentListed (d : db) (r : Agent.row) : json :=
  JObj [("agent_id", JStr (Agent.agent_id r));
        ("agent_name", JStr (Agent.agent_name r));
        ("status", JStr (Agent.status r));
        ("created_at", JDate (Agent.created_at r));
        ("updated_at", JDate (Agent.updated_at r));
        ("_count",
         JObj [("calls",
                JNum (Z.of_nat
                        (length
                           (List.filter
                              (fun c => String.eqb (Call.agent_id (Call.fields c))
                                          (Agent.agent_id r))
                              (calls d)))))])].

(** The [where] clause of [GET /agents]. *)
Definition agents_where (value : Joi.AgentList.value) (r : Agent.row)
  : bool :=
  if_given (Joi.AgentList.status value) (String.eqb (Agent.status r))
  && if_given (Joi.AgentList.search value)
       (fun search =>
          contains_insensitive (Agent.agent_name r) search
          || contains_insensitive (Agent.agent_id r) search).

(** The handler of [GET /agents]. *)
Definition listAgents (query : Joi.AgentList.query) (w : world)
  : world * result http_response :=
  match Joi.agentListSchema query with
  | inl message => (w, Throw (ErrorHandler.ValidationError message))
  | inr value =>
      let limit := Joi.AgentList.limit value in
      let offset := Joi.AgentList.offset value in
      let whereClause := agents_where value in
      let '(w, found) := agent_findMany fault agent_tie whereClause offset limit w in
      let '(w, counted) := agent_count fault whereClause w in
      (w, paginated "agents" (agentListed (database w)) limit offset
            found counted)
  end.

(** The [where] clause of [GET /calls]; the two dates bound the start
    time, [BigInt(Math.floor(new Date(d).getTime()))] being the time of
    the validated date. *)
Definition calls_where (value : Joi.CallsList.value) (r : Call.row) : bool :=
  if_given (Joi.CallsList.agentId value)
    (String.eqb (Call.agent_id (Call.fields r)))
  && if_given (Joi.CallsList.callStatus value)
       (String.eqb (Call.call_status (Call.fields r)))
  && match Joi.CallsList.startDate value with
     | Some gte => gte <=? Call.start_timestamp (Call.fields r)
     | None => true
     end
  && match Joi.CallsList.endDate value with
     | Some lte => Call.start_timestamp (Call.fields r) <=? lte
     | None => true
     end.

(** The handler of [GET /calls]. *)
Definition listCalls (query : Joi.CallsList.query) (w : world)
  : world * result http_response :=
  match Joi.callsListSchema query with
  | inl message => (w, Throw (ErrorHandler.ValidationError message))
  | inr value =>
      let limit := Joi.CallsList.limit value in
      let offset := Joi.CallsList.offset value in
      let whereClause := calls_where value in
      let '(w, found) :=
        call_findMany_where fault call_tie whereClause
          (sort_key (Joi.CallsList.sortBy value)) offset limit w in
      let '(w, counted) := call_count_where fault whereClause w in
      (w, paginated "calls" (callListed (database w)) limit offset
            found counted)
  end.

(** The handler of [GET /call-history]: no [where] clause. *)
Definition callHistoryAll (query : Joi.history_query) (w : world)
  : world * result http_response :=
  match Joi.callHistorySchema query with
  | inl message => (w, Throw (ErrorHandler.ValidationError message))
  | inr value =>
      let limit := Joi.limit value in
      let offset := Joi.offset value in
      let '(w, found) :=
        call_findMany_where fault call_tie (fun _ => true)
          (sort_key (Joi.sortBy value)) offset limit w in
      let '(w, counted) := call_count_all fault w in
      (w, paginated "calls" (callListed (database w)) limit offset
            found counted)
  end.

(** The [where] clause of [GET /search/calls]. *)
Definition searchCalls_where (value : Joi.SearchCalls.value) (r : Call.row)
  : bool :=
  let query := Joi.SearchCalls.query_text value in
  let c := Call.fields r in
  (opt_contains (Call.transcript c) query
   || opt_contains (Call.caller_info c) query
   || opt_contains (Call.call_summary c) query
   || contains_insensitive (Call.call_id c) query)
  && if_given (Joi.SearchCalls.agentId value) (String.eqb (Call.agent_id c)).

(** The handler of [GET /search/calls]. *)
Definition searchCalls (query : Joi.SearchCalls.query) (w : world)
  : world * result http_response :=
  match Joi.searchCallsSchema query with
  | inl message => (w, Throw (ErrorHandler.ValidationError message))
  | inr value =>
      let limit := Joi.SearchCalls.limit value in
      let offset := Joi.SearchCalls.offset value in
      let whereClause := searchCalls_where value in
      let '(w, found) :=
        call_findMany_where fault call_tie whereClause
          (fun r => Call.start_timestamp (Call.fields r)) offset limit w in
      let '(w, counted) := call_count_where fault whereClause w in
      (w, paginated "calls" (callFound (database w)) limit offset
            found counted)
  end.

(** The [where] clause of [GET /search/agents]. *)
Definition searchAgents_where (value : Joi.SearchAgents.value)
  (r : Agent.row) : bool :=
  let query := Joi.SearchAgents.query_text value in
  contains_insensitive (Agent.agent_name r) query
  || contains_insensitive (Agent.agent_id r) query.

(** The handler of [GET /search/agents]. *)
Definition searchAgents (query : Joi.SearchAgents.query) (w : world)
  : world * result http_response :=
  match Joi.searchAgentsSchema query with
  | inl message => (w, Throw (ErrorHandler.ValidationError message))
  | inr value =>
      let limit := Joi.SearchAgents.limit value in
      let offset := Joi.SearchAgents.offset value in
      let whereClause := searchAgents_where value in
      let '(w, found) := agent_findMany fault agent_tie whereClause offset limit w in
      let '(w, counted) := agent_count fault whereClause w in
      (w, paginated "agents" (agentListed (database w)) limit offset
            found counted)
  end.

End WithStore.

End Dashboard.

(** ** The user-management routes of src/routes/dashboard.js *)

Module Users.

(** The columns of the users table that these routes read, write or
    order by; the table is keyed by its primary key [id]. The column
    [updated_at], which the routes select and never test, is left
    out. *)
Record row := {
  id : string;
  email : string;
  name : option string;
  role : string;
  created_at : Z
}.

Record world := {
  users : gmap string row;
  ops : nat
}.

Definition tick (w : world) : world :=
  {| users := users w; ops := S (ops w) |}.

Definition userJson (u : row) : json :=
  JObj [("id", JStr (id u)); ("email", JStr (email u));
        ("name", match name u with Some n => JStr n | None => JNull end);
        ("role", JStr (role u));
        ("created_at", JDate (created_at u))].

Section WithStore.

(** As in [Store]: the exception rejecting the [n]-th store operation
    of the request, if any; how the database ranks the rows of equal
    sort key in that operation; and its case-insensitive [contains]. *)
Variable fault : nat -> option js_error.
Variable user_tie : nat -> row -> Z.
Variable contains_insensitive : string -> string -> bool.

(** [prisma.user.findUnique({ where: { id } })]. *)
Definition findUnique (userId : string) (w : world)
  : world * result (option row) :=
  match fault (ops w) with
  | Some e => (tick w, Throw e)
  | None => (tick w, Ok (users w !! userId))
  end.

(** [prisma.user.update({ where: { id }, data })]. *)
Definition update (userId : string) (new_name new_role : option string)
  (w : world) : world * result row :=
  match fault (ops w) with
  | Some e => (tick w, Throw e)
  | None =>
      match users w !! userId with
      | None => (tick w, Throw Store.record_not_found_error)
      | Some old =>
          let u := {| id := id old; email := email old;
                      name := match new_name with
                              | Some n => Some n
                              | None => name old
                              end;
                      role := default (role old) new_role;
                      created_at := created_at old |} in
          ({| users := <[userId := u]> (users w); ops := S (ops w) |}, Ok u)
      end
  end.

(** [prisma.user.delete({ where: { id } })]. *)
Definition delete (userId : string) (w : world) : world * result row :=
  match fault (ops w) with
  | Some e => (tick w, Throw e)
  | None =>
      match users w !! userId with
      | None => (tick w, Throw Store.record_not_found_error)
      | Some old =>
          ({| users := base.delete userId (users w); ops := S (ops w) |},
           Ok old)
      end
  end.

(** [req.user.id === userId], the identifier of the acting user being a
    string or [undefined]. *)
Definition is_self (user : Auth.req_user) (userId : string) : bool :=
  match Auth.user_id user with
  | Some i => String.eqb i userId
  | None => false
  end.

(** The handler of [PUT /users/:userId], behind [adminMiddleware]. *)
Definition updateUser (user : Auth.req_user) (userId : string)
  (body : Joi.user_body) (w : world) : world * result http_response :=
  match Joi.updateUserSchema body with
  | inl message => (w, Throw (ErrorHandler.ValidationError message))
  | inr value =>
      if negb (Js.truthy userId) then
        (w, Throw (ErrorHandler.ValidationError "User ID is required"))
      else if is_self user userId
              && Js.truthy_opt (Joi.new_role value)
              && negb (String.eqb (default "" (Joi.new_role value)) "ADMIN")
      then
        (w, Throw (ErrorHandler.ValidationError
                     "Cannot remove your own admin role"))
      else
        match findUnique userId w with
        | (w, Throw e) => (w, Throw e)
        | (w, Ok None) =>
            (w, Throw (ErrorHandler.NotFoundError
                         ("User with ID " +:+ userId +:+ " not found")))
        | (w, Ok (Some _)) =>
            match update userId (Joi.new_name value) (Joi.new_role value) w
            with
            | (w, Throw e) => (w, Throw e)
            | (w, Ok u) =>
                (w, Ok (res_json (JObj [("success", JBool true);
                                        ("data", userJson u)])))
            end
        end
  end.

(** The handler of [DELETE /users/:userId], behind [adminMiddleware]. *)
Definition deleteUser (user : Auth.req_user) (userId : string) (w : world)
  : world * result http_response :=
  if negb (Js.truthy userId) then
    (w, Throw (ErrorHandler.ValidationError "User ID is required"))
  else if is_self user userId then
    (w, Throw (ErrorHandler.ValidationError "Cannot delete your own account"))
  else
    match findUnique userId w with
    | (w, Throw e) => (w, Throw e)
    | (w, Ok None) =>
        (w, Throw (ErrorHandler.NotFoundError
                     ("User with ID " +:+ userId +:+ " not found")))
    | (w, Ok (Some _)) =>
        match delete userId w with
        | (w, Throw e) => (w, Throw e)
        | (w, Ok _) =>
            (w, Ok (res_json (JObj [("success", JBool true);
                                    ("message",
                                     JStr "User deleted successfully")])))
        end
    end.

(** [prisma.user.findMany({ where, orderBy: { created_at: "desc" },
    skip, take })] and [prisma.user.count({ where })]. *)
Definition findMany (p : row -> bool) (skip take : Z) (w : world)
  : world * result (list row) :=
  match fault (ops w) with
  | Some e => (tick w, Throw e)
  | None =>
      (tick w,
       Ok (firstn (Z.to_nat take)
             (skipn (Z.to_nat skip)
                (Store.ordered created_at (user_tie (ops w))
                   (List.filter p (snd <$> map_to_list (users w)))))))
  end.

Definition count (p : row -> bool) (w : world) : world * result Z :=
  match fault (ops w) with
  | Some e => (tick w, Throw e)
  | None =>
      (tick w,
       Ok (Z.of_nat (length (List.filter p
                               (snd <$> map_to_list (users w))))))
  end.

(** The [where] clause of [GET /users]. *)
Definition users_where (value : Joi.UserList.value) (u : row) : bool :=
  Dashboard.if_given (Joi.UserList.role value) (String.eqb (role u))
  && Dashboard.if_given (Joi.UserList.search value)
       (fun search =>
          contains_insensitive (email u) search
          || Dashboard.opt_contains contains_insensitive (name u) search).

(** The handler of [GET /users], behind [adminMiddleware]. *)
Definition listUsers (query : Joi.UserList.query) (w : world)
  : world * result http_response :=
  match Joi.userListSchema query with
  | inl message => (w, Throw (ErrorHandler.ValidationError message))
  | inr value =>
      let limit := Joi.UserList.limit value in
      let offset := Joi.UserList.offset value in
      let whereClause := users_where value in
      let '(w, found) := findMany whereClause offset limit w in
      let '(w, counted) := count whereClause w in
      (w, Dashboard.paginated "users" userJson limit offset found counted)
  end.

End WithStore.

End Users.

(** ** The paginated list routes of src/routes/dashboard.js *)

Module Router.

(** A request to one of the seven routes whose answer carries
    [data.pagination], with what the route reads of it: the path
    parameter, [req.query], and for [/users] the [req.user] the auth
    middleware left. *)
Inductive list_request :=
| GetCallHistoryOf (agentId : string) (query : Joi.history_query)
| GetAgents (query : Joi.AgentList.query)
| GetCalls (query : Joi.CallsList.query)
| GetCallHistory (query : Joi.history_query)
| GetUsers (user : option Auth.req_user) (query : Joi.UserList.query)
| GetSearchCalls (query : Joi.SearchCalls.query)
| GetSearchAgents (query : Joi.SearchAgents.query).

(** The tables behind the routes. *)
Record backend := {
  store : Store.world;
  accounts : Users.world
}.

Definition with_store (b : backend)
  (r : Store.world * result http_response)
  : backend * result http_response :=
  ({| store := fst r; accounts := accounts b |}, snd r).

Section WithStore.

Variable fault : nat -> option js_error.
Variable call_tie : nat -> Store.Call.row -> Z.
Variable agent_tie : nat -> Store.Agent.row -> Z.
Variable user_tie : nat -> Users.row -> Z.
Variable contains_insensitive : string -> string -> bool.

(** [router.get(path, ...handlers)] for these routes: the handler of
    the path, after [adminMiddleware] where the route names it. *)
Definition list (req : list_request) (b : backend)
  : backend * result http_response :=
  match req with
  | GetCallHistoryOf agentId query =>
      with_store b (Dashboard.callHistory fault call_tie agentId query
                      (store b))
  | GetAgents query =>
      with_store b (Dashboard.listAgents fault agent_tie contains_insensitive
                      query (store b))
  | GetCalls query =>
      with_store b (Dashboard.listCalls fault call_tie query (store b))
  | GetCallHistory query =>
      with_store b (Dashboard.callHistoryAll fault call_tie query (store b))
  | GetUsers user query =>
      match Auth.adminMiddleware user with
      | Auth.Next _ =>
          let '(u, r) :=
            Users.listUsers fault user_tie contains_insensitive query
              (accounts b) in
          ({| store := store b; accounts := u |}, r)
      | Auth.NextError e => (b, Throw e)
      | Auth.Responded resp => (b, Ok resp)
      end
  | GetSearchCalls query =>
      with_store b (Dashboard.searchCalls fault call_tie contains_insensitive
                      query (store b))
  | GetSearchAgents query =>
      with_store b (Dashboard.searchAgents fault agent_tie
                      contains_insensitive query (store b))
  end.

(** The endpoint as the client sees it. *)
Definition GET_list (NODE_ENV : option string) (req : list_request)
  (b : backend) : http_response :=
  ErrorHandler.asyncHandler NODE_ENV (snd (list req b)).

End WithStore.

End Router.

(** ** src/lib/superadmin.js *)

Module SuperAdmin.

(** The columns of the users table that the bootstrap reads or writes. *)
Record user := {
  email : string;
  passwordHash : string;
  name : option string;
  role : string;
  status : string
}.

Record env := {
  SUPERADMIN_EMAIL : option string;
  SUPERADMIN_PASSWORD : option string;
  SUPERADMIN_NAME : option string
}.

(** [prisma.user.findUnique({ where: { email } })]. *)
Definition findUnique (e : string) (users : list user) : option user :=
  List.find (fun u => String.eqb (email u) e) users.

(** [prisma.user.update({ where: { email }, data })]: the row of that
    email is rewritten in place. *)
Fixpoint update (e : string) (f : user -> user) (users : list user)
  : list user :=
  match users with
  | [] => []
  | u :: rest =>
      if String.eqb (email u) e then f u :: rest
      else u :: update e f rest
  end.

(** [prisma.user.create({ data })]. *)
Definition create (u : user) (users : list user) : list user :=
  users ++ [u].

Definition promote (u : user) : user :=
  {| email := email u; passwordHash := passwordHash u; name := name u;
     role := "SUPERADMIN"; status := "APPROVED" |}.

(** [ensureSuperAdmin], on the users table. [hash] is
    [bcrypt.hash(password, 12)], whose salt is fresh at every call. The
    store operations are taken to succeed: a rejected one abandons the
    bootstrap with the table as it is. The second component is what the
    run logs. *)
Definition ensureSuperAdmin (e : env) (hash : string -> string)
  (users : list user) : list user * list Store.log_entry :=
  let name := default "Super Admin" (Js.or_null (SUPERADMIN_NAME e)) in
  if negb (Js.truthy_opt (SUPERADMIN_EMAIL e))
     || negb (Js.truthy_opt (SUPERADMIN_PASSWORD e))
  then
    (users,
     [{| Store.lvl := Store.warn;
         Store.msg := "SUPERADMIN_EMAIL or SUPERADMIN_PASSWORD not set; skipping superadmin bootstrap";
         Store.meta := [] |}])
  else
    let email := default "" (SUPERADMIN_EMAIL e) in
    let password := default "" (SUPERADMIN_PASSWORD e) in
    match findUnique email users with
    | Some existing =>
        if negb (String.eqb (role existing) "SUPERADMIN") then
          (update email promote users,
           [{| Store.lvl := Store.info;
               Store.msg := "Updated user role to SUPERADMIN";
               Store.meta := [("email", JStr email)] |}])
        else (users, [])
    | None =>
        (create {| email := email; passwordHash := hash password;
                   name := Some name; role := "SUPERADMIN";
                   status := "APPROVED" |} users,
         [{| Store.lvl := Store.info;
             Store.msg := "Created superadmin user";
             Store.meta := [("email", JStr email)] |}])
    end.

End SuperAdmin.

(** * Notions used in the statements *)

(** ** Accounts *)

(** The accounts with a given email, and those among them that are
    SUPERADMIN. *)
Definition with_email (e : string) (users : list SuperAdmin.user)
  : list SuperAdmin.user :=
  List.filter (fun u => String.eqb (SuperAdmin.email u) e) users.

Definition superadmins (e : string) (users : list SuperAdmin.user)
  : list SuperAdmin.user :=
  List.filter (fun u => String.eqb (SuperAdmin.role u) "SUPERADMIN")
    (with_email e users).

(** ** Credentials of a request *)

(** The user of a bearer token whose signature verifies, when a token is
    present and a signing secret is configured. *)
Definition token_user (jwt_verify : string -> string -> option Auth.req_user)
  (env : Auth.auth_env) (h : Auth.request_headers) : option Auth.req_user :=
  match Auth.bearerToken_of h, Auth.JWT_SECRET env with
  | Some t, Some s =>
      if Js.truthy t && Js.truthy s then jwt_verify t s else None
  | _, _ => None
  end.

(** The request presents the static key: in the [x-api-key] header, or,
    when that header is absent or empty, as the bearer token itself. *)
Definition presents_key (h : Auth.request_headers) (apiKey : string) : Prop :=
  Auth.x_api_key h = Some apiKey
  \/ (Js.truthy_opt (Auth.x_api_key h) = false
      /\ Auth.bearerToken_of h = Some apiKey).

(** ** Pages of the provider *)

(** The [options] of the request for one page. *)
Definition page_options (lim startTs endTs : Z) (cursor : option string)
  : Retell.getCalls_options :=
  {| Retell.limit := Some lim; Retell.startAfter := cursor;
     Retell.startTimestamp := Some startTs;
     Retell.endTimestamp := Some endTs |}.

(** One page as the loop of [getAllCallsInRange] sees it. *)
Definition fetchPage
  (post_list_calls : Retell.list_calls_body -> result Retell.list_calls_data)
  (lim startTs endTs : Z) (cursor : option string)
  : result (list Retell.call) :=
  response ← Retell.getCalls post_list_calls
               (page_options lim startTs endTs cursor);
  Retell.calls_of response.

(** [pages_from cursor ps final]: asked at [cursor], the provider answers
    the pages [ps] and then [final], each page being requested with the
    identifier of the last record of the page before it. *)
Fixpoint pages_from
  (post_list_calls : Retell.list_calls_body -> result Retell.list_calls_data)
  (lim startTs endTs : Z) (cursor : option string)
  (ps : list (list Retell.call)) (final : list Retell.call) : Prop :=
  match ps with
  | [] => fetchPage post_list_calls lim startTs endTs cursor = Ok final
  | p :: ps' =>
      fetchPage post_list_calls lim startTs endTs cursor = Ok p /\
      pages_from post_list_calls lim startTs endTs
        (Retell.call_id <$> last p) ps' final
  end.

(** The cursors of the successive requests for the pages [ps] and the one
    after them: none for the first, then the last identifier of each
    page. *)
Definition cursors (ps : list (list Retell.call)) : list (option string) :=
  None :: map (fun p => Retell.call_id <$> last p) ps.

(** ** Runs of the sync routine *)

(** [w'] has the log of [w] and possibly more. *)
Definition log_extends (w w' : Store.world) : Prop :=
  exists l, Store.log w' = Store.log w ++ l.

(** The outcomes of the second loop, call by call. *)
Fixpoint outcomes (fault : nat -> option js_error) (clock : nat -> Z)
  (cs : list Retell.call) (w : Store.world) : list Dashboard.call_outcome :=
  match cs with
  | [] => []
  | c :: cs' =>
      snd (Dashboard.processCall fault clock w c)
      :: outcomes fault clock cs' (fst (Dashboard.processCall fault clock w c))
  end.

Definition is_failed (o : Dashboard.call_outcome) : bool :=
  match o with
  | Dashboard.Failed => true
  | _ => false
  end.

(** The number of failed calls among the outcomes. *)
Definition failures (os : list Dashboard.call_outcome) : nat :=
  length (List.filter is_failed os).

(** The counters at the start of the second loop. *)
Definition no_counts : Dashboard.counters :=
  {| Dashboard.syncedCount := 0; Dashboard.updatedCount := 0;
     Dashboard.errorCount := 0 |}.

(** ** Paginated list requests *)

(** The key under [data] that holds the page. *)
Definition items_key (req : Router.list_request) : string :=
  match req with
  | Router.GetCallHistoryOf _ _ | Router.GetCalls _
  | Router.GetCallHistory _ | Router.GetSearchCalls _ => "calls"
  | Router.GetAgents _ | Router.GetSearchAgents _ => "agents"
  | Router.GetUsers _ _ => "users"
  end.

(** The [limit] and the [offset] of the query, as the request gives
    them. *)
Definition limit_param (req : Router.list_request) : Joi.raw_num :=
  match req with
  | Router.GetCallHistoryOf _ q | Router.GetCallHistory q => Joi.q_limit q
  | Router.GetAgents q => Joi.AgentList.q_limit q
  | Router.GetCalls q => Joi.CallsList.q_limit q
  | Router.GetUsers _ q => Joi.UserList.q_limit q
  | Router.GetSearchCalls q => Joi.SearchCalls.q_limit q
  | Router.GetSearchAgents q => Joi.SearchAgents.q_limit q
  end.

Definition offset_param (req : Router.list_request) : Joi.raw_num :=
  match req with
  | Router.GetCallHistoryOf _ q | Router.GetCallHistory q => Joi.q_offset q
  | Router.GetAgents q => Joi.AgentList.q_offset q
  | Router.GetCalls q => Joi.CallsList.q_offset q
  | Router.GetUsers _ q => Joi.UserList.q_offset q
  | Router.GetSearchCalls q => Joi.SearchCalls.q_offset q
  | Router.GetSearchAgents q => Joi.SearchAgents.q_offset q
  end.

(** The [limit] and the [offset] of the validated query; [None] when
    the schema of the route refuses the query. *)
Definition validated (req : Router.list_request) : option (Z * Z) :=
  match req with
  | Router.GetCallHistoryOf _ q | Router.GetCallHistory q =>
      match Joi.callHistorySchema q with
      | inr v => Some (Joi.limit v, Joi.offset v)
      | inl _ => None
      end
  | Router.GetAgents q =>
      match Joi.agentListSchema q with
      | inr v => Some (Joi.AgentList.limit v, Joi.AgentList.offset v)
      | inl _ => None
      end
  | Router.GetCalls q =>
      match Joi.callsListSchema q with
      | inr v => Some (Joi.CallsList.limit v, Joi.CallsList.offset v)
      | inl _ => None
      end
  | Router.GetUsers _ q =>
      match Joi.userListSchema q with
      | inr v => Some (Joi.UserList.limit v, Joi.UserList.offset v)
      | inl _ => None
      end
  | Router.GetSearchCalls q =>
      match Joi.searchCallsSchema q with
      | inr v => Some (Joi.SearchCalls.limit v, Joi.SearchCalls.offset v)
      | inl _ => None
      end
  | Router.GetSearchAgents q =>
      match Joi.searchAgentsSchema q with
      | inr v => Some (Joi.SearchAgents.limit v, Joi.SearchAgents.offset v)
      | inl _ => None
      end
  end.

(** The stored calls of an agent, in table order. *)
Definition calls_of_agent (agentId : string) (d : Store.db)
  : list Store.Call.row :=
  filter (fun r => Store.Call.agent_id (Store.Call.fields r) = agentId)
         (Store.calls d).

(** The number of rows that match the filter of the request: the calls
    of the agent of the path, the rows that pass the [where] clause the
    route builds from the validated query, every call for
    [GET /call-history]. [None] when the query is refused. *)
Definition matching (contains_insensitive : string -> string -> bool)
  (req : Router.list_request) (b : Router.backend) : option Z :=
  let d := Store.database (Router.store b) in
  let agents := snd <$> map_to_list (Store.agents d) in
  let users := snd <$> map_to_list (Users.users (Router.accounts b)) in
  let count {A : Type} (p : A -> bool) (rows : list A) : Z :=
    Z.of_nat (length (List.filter p rows)) in
  match req with
  | Router.GetCallHistoryOf agentId q =>
      match Joi.callHistorySchema q with
      | inr _ => Some (Z.of_nat (length (calls_of_agent agentId d)))
      | inl _ => None
      end
  | Router.GetCallHistory q =>
      match Joi.callHistorySchema q with
      | inr _ => Some (Z.of_nat (length (Store.calls d)))
      | inl _ => None
      end
  | Router.GetAgents q =>
      match Joi.agentListSchema q with
      | inr v =>
          Some (count (Dashboard.agents_where contains_insensitive v) agents)
      | inl _ => None
      end
  | Router.GetCalls q =>
      match Joi.callsListSchema q with
      | inr v => Some (count (Dashboard.calls_where v) (Store.calls d))
      | inl _ => None
      end
  | Router.GetUsers _ q =>
      match Joi.userListSchema q with
      | inr v => Some (count (Users.users_where contains_insensitive v) users)
      | inl _ => None
      end
  | Router.GetSearchCalls q =>
      match Joi.searchCallsSchema q with
      | inr v =>
          Some (count (Dashboard.searchCalls_where contains_insensitive v)
                  (Store.calls d))
      | inl _ => None
      end
  | Router.GetSearchAgents q =>
      match Joi.searchAgentsSchema q with
      | inr v =>
          Some (count (Dashboard.searchAgents_where contains_insensitive v)
                  agents)
      | inl _ => None
      end
  end.

(** The request reaches the handler of its route: [adminMiddleware],
    where the route has it, lets it through. *)
Definition admitted (req : Router.list_request) : Prop :=
  match req with
  | Router.GetUsers user _ => exists u, Auth.adminMiddleware user = Auth.Next u
  | _ => True
  end.

(** ** More on pages, stores and paging clients *)

(** [pages_then cursor ps last]: asked at [cursor] with threaded cursors,
    the provider answers the pages [ps], and the request after them
    ends as [last] (a page or an exception). *)
Fixpoint pages_then
  (post_list_calls : Retell.list_calls_body -> result Retell.list_calls_data)
  (lim startTs endTs : Z) (cursor : option string)
  (ps : list (list Retell.call)) (last_fetch : result (list Retell.call))
  : Prop :=
  match ps with
  | [] => fetchPage post_list_calls lim startTs endTs cursor = last_fetch
  | p :: ps' =>
      fetchPage post_list_calls lim startTs endTs cursor = Ok p /\
      pages_then post_list_calls lim startTs endTs
        (Retell.call_id <$> last p) ps' last_fetch
  end.

(** A page after which the loop of [getAllCallsInRange] goes on. *)
Definition full_page (lim : Z) (p : list Retell.call) : Prop :=
  Z.of_nat (length p) = lim /\ 0 < Z.of_nat (length p).

(** Every stored call refers to an agent that has a row. *)
Definition fk_ok (d : Store.db) : Prop :=
  forall r, r ∈ Store.calls d ->
    is_Some (Store.agents d !! Store.Call.agent_id (Store.Call.fields r)).

(** The identifiers of the stored calls, in table order. *)
Definition call_ids (d : Store.db) : list string :=
  map (fun r => Store.Call.call_id (Store.Call.fields r)) (Store.calls d).

(** Every agent of [d] is still an agent of [d'], with the same status
    and creation time. *)
Definition agents_kept (d d' : Store.db) : Prop :=
  forall id a, Store.agents d !! id = Some a ->
    exists a', Store.agents d' !! id = Some a'
               /\ Store.Agent.status a' = Store.Agent.status a
               /\ Store.Agent.created_at a' = Store.Agent.created_at a.

(** The entry of the provider's roster that names an agent: the last one
    with that identifier, none when the roster could not be fetched. *)
Definition roster_entry (agents : result (option (list Retell.agent)))
  (id : string) : option Retell.agent :=
  match agents with
  | Ok (Some roster) =>
      List.find (fun a => String.eqb (Retell.a_agent_id a) id) (rev roster)
  | _ => None
  end.

(** The name and the status the syncs give to an agent of the roster. *)
Definition roster_name (a : Retell.agent) : string :=
  default ("Agent " +:+ Retell.a_agent_id a)
          (Js.or_null (Retell.a_agent_name a)).

Definition roster_status (a : Retell.agent) : string :=
  if default false (Retell.a_is_published a) then "ACTIVE" else "INACTIVE".

(** The rank that makes the database answer with the rows in the order
    [L]: the first row of [L] ranks highest. *)
Fixpoint rank_in {A : Type} `{EqDecision A} (L : list A) (x : A) : Z :=
  match L with
  | [] => 0
  | y :: L' => if decide (x = y) then Z.of_nat (length L) else rank_in L' x
  end.

(** A client that reads the call history of an agent page by page from
    an unchanging store: it asks for [limit] records at [offset], keeps
    them, and goes on at [offset + limit] while the answer says
    [hasMore]. [tie k] is how the database ranks rows of equal key
    during the request numbered [k]; [request] numbers the next one.
    [None]: a request failed, or the pages did not end within [fuel]
    requests. *)
Fixpoint page_through (fault : nat -> option js_error)
  (tie : nat -> nat -> Store.Call.row -> Z) (fuel request : nat)
  (agentId : string) (sortBy : Joi.raw_str) (limit offset : Z)
  (w : Store.world) : option (list json) :=
  match fuel with
  | O => None
  | S fuel' =>
      match snd (Dashboard.callHistory fault (tie request) agentId
                   {| Joi.q_limit := Joi.Int limit;
                      Joi.q_offset := Joi.Int offset;
                      Joi.q_sortBy := sortBy; Joi.q_unknown := [] |} w) with
      | Ok resp =>
          match jpath ["data"; "calls"] (res_body resp),
                jpath ["data"; "pagination"; "hasMore"] (res_body resp) with
          | Some (JArr items), Some (JBool true) =>
              app items <$>
                page_through fault tie fuel' (S request) agentId sortBy
                  limit (offset + limit) w
          | Some (JArr items), Some (JBool false) => Some items
          | _, _ => None
          end
      | Throw _ => None
      end
  end.

(** * Sample data *)

Definition bootstrap_env : SuperAdmin.env :=
  {| SuperAdmin.SUPERADMIN_EMAIL := Some "root@example.com";
     SuperAdmin.SUPERADMIN_PASSWORD := Some "change-me";
     SuperAdmin.SUPERADMIN_NAME := None |}.

Definition bootstrap_users : list SuperAdmin.user :=
  [ {| SuperAdmin.email := "ann@example.com"; SuperAdmin.passwordHash := "h0";
       SuperAdmin.name := Some "Ann"; SuperAdmin.role := "ADMIN";
       SuperAdmin.status := "APPROVED" |};
    {| SuperAdmin.email := "root@example.com"; SuperAdmin.passwordHash := "h1";
       SuperAdmin.name := None; SuperAdmin.role := "USER";
       SuperAdmin.status := "PENDING" |} ].

(** A store that accepts every operation, and one that rejects the first
    operation of the request. *)
Definition no_fault : nat -> option js_error := fun _ => None.

Definition first_op_fails : nat -> option js_error :=
  fun n =>
    match n with
    | O => Some (ErrorHandler.PlainError "connection reset")
    | S _ => None
    end.

Definition sample_clock : nat -> Z := fun n => 1700000000000 + Z.of_nat n.

Definition stored_call (id agent : string) (start duration : Z)
  : Store.Call.row :=
  {| Store.Call.fields :=
       {| Store.Call.call_id := id; Store.Call.agent_id := agent;
          Store.Call.caller_info := None;
          Store.Call.start_timestamp := start;
          Store.Call.end_timestamp := start + duration;
          Store.Call.duration_ms := Some duration;
          Store.Call.duration_seconds := Some (duration / 1000);
          Store.Call.transcript := None;
          Store.Call.call_status := "ended";
          Store.Call.disconnection_reason := None;
          Store.Call.cost := 0;
          Store.Call.call_summary := None;
          Store.Call.user_sentiment := None;
          Store.Call.call_successful := true;
          Store.Call.recording_url := None |};
     Store.Call.created_at := start; Store.Call.updated_at := start |}.

Definition stored_agent (id : string) : Store.Agent.row :=
  {| Store.Agent.agent_id := id; Store.Agent.agent_name := "Agent " +:+ id;
     Store.Agent.status := "ACTIVE"; Store.Agent.created_at := 0;
     Store.Agent.updated_at := 0 |}.

(** A store with one agent and three of its calls, and an empty one. *)
Definition history_world : Store.world :=
  {| Store.database :=
       {| Store.agents := {["agent_1" := stored_agent "agent_1"]};
          Store.calls := [stored_call "c1" "agent_1" 1000 60000;
                          stored_call "c2" "agent_1" 3000 30000;
                          stored_call "c3" "agent_1" 2000 90000] |};
     Store.ops := 0; Store.log := [] |}.

Definition empty_world : Store.world :=
  {| Store.database := {| Store.agents := ∅; Store.calls := [] |};
     Store.ops := 0; Store.log := [] |}.

Definition query (limit offset : Joi.raw_num) : Joi.history_query :=
  {| Joi.q_limit := limit; Joi.q_offset := offset;
     Joi.q_sortBy := Joi.StrAbsent; Joi.q_unknown := [] |}.

Definition sync_body (days : Joi.raw_num) (agentId : Joi.raw_str)
  : Joi.sync_body :=
  {| Joi.b_days := days; Joi.b_agentId := agentId; Joi.b_unknown := [] |}.

Definition provider_call (id agent : string) (start stop : Z)
  (duration : option Z) : Retell.call :=
  {| Retell.call_id := id; Retell.agent_id := agent;
     Retell.caller_info := None;
     Retell.start_timestamp := Some start;
     Retell.end_timestamp := Some stop;
     Retell.duration_ms := duration;
     Retell.transcript := None; Retell.call_status := "ended";
     Retell.disconnection_reason := None; Retell.cost := None;
     Retell.analysis := None; Retell.recording_url := None |}.

(** A provider with three calls, served two to a page, and one with no
    call at all. *)
Definition three_calls (body : Retell.list_calls_body)
  : result Retell.list_calls_data :=
  match Retell.body_start_after body with
  | None =>
      Ok (Retell.DataArray
            [provider_call "c1" "agent_1" 1000 61000 (Some 60000);
             provider_call "c2" "agent_1" 3000 33000 (Some 30000)])
  | Some cursor =>
      if String.eqb cursor "c2"
      then Ok (Retell.DataObject
                 (Some [provider_call "c3" "agent_2" 2000 92000 (Some 90000)]))
      else Ok (Retell.DataArray [])
  end.

Definition no_calls (body : Retell.list_calls_body)
  : result Retell.list_calls_data := Ok (Retell.DataArray []).

(** Two calls of two agents, as one fetched array. *)
Definition two_calls : list Retell.call :=
  [provider_call "c1" "agent_1" 1000 61000 (Some 60000);
   provider_call "c2" "agent_2" 3000 33000 (Some 30000)].

Definition fetched_two_calls (startDate endDate : Z)
  : option (result (list Retell.call)) := Some (Ok two_calls).

(** A server with both secrets configured, and a verifier that knows two
    tokens: one of a SUPERADMIN, one of an ADMIN. *)
Definition sample_env : Auth.auth_env :=
  {| Auth.API_AUTH_KEY := Some "k3y"; Auth.JWT_SECRET := Some "s3cret" |}.

Definition sample_verify (token secret : string) : option Auth.req_user :=
  if negb (String.eqb secret "s3cret") then None
  else if String.eqb token "root-token" then
    Some {| Auth.user_id := Some "u1"; Auth.user_role := Some "SUPERADMIN" |}
  else if String.eqb token "admin-token" then
    Some {| Auth.user_id := Some "u2"; Auth.user_role := Some "ADMIN" |}
  else None.

Definition headers (authorization x_api_key : option string)
  : Auth.request_headers :=
  {| Auth.authorization := authorization; Auth.x_api_key := x_api_key |}.

(** A provider whose second page fails, and one that answers every
    request with the same full page of one call. *)
Definition second_page_fails (body : Retell.list_calls_body)
  : result Retell.list_calls_data :=
  match Retell.body_start_after body with
  | None =>
      Ok (Retell.DataArray
            [provider_call "c1" "agent_1" 1000 61000 (Some 60000);
             provider_call "c2" "agent_1" 3000 33000 (Some 30000)])
  | Some _ => Throw (ErrorHandler.PlainError "socket hang up")
  end.

Definition same_page_forever (body : Retell.list_calls_body)
  : result Retell.list_calls_data :=
  Ok (Retell.DataArray [provider_call "c1" "agent_1" 1000 61000 (Some 60000)]).

(** A provider that is down. *)
Definition provider_down (body : Retell.list_calls_body)
  : result Retell.list_calls_data :=
  Throw (ErrorHandler.PlainError "connect ECONNREFUSED").

(** A roster of two agents, the second unnamed and unpublished. *)
Definition roster_agent (id : string) (name : option string)
  (published : option bool) : Retell.agent :=
  {| Retell.a_agent_id := id; Retell.a_agent_name := name;
     Retell.a_is_published := published;
     Retell.a_last_modification_timestamp := None |}.

Definition two_agents : list Retell.agent :=
  [roster_agent "agent_1" (Some "Front desk") (Some true);
   roster_agent "agent_2" None None].

Definition agent_body (id name status : Joi.raw_str) : Joi.agent_body :=
  {| Joi.b_agent_id := id; Joi.b_agent_name := name; Joi.b_status := status;
     Joi.b_agent_unknown := [] |}.

(** A users table with an admin and a plain user. *)
Definition users_world : Users.world :=
  {| Users.users :=
       {["u2" := {| Users.id := "u2"; Users.email := "ann@example.com";
                    Users.name := Some "Ann"; Users.role := "ADMIN";
                    Users.created_at := 1000 |};
         "u3" := {| Users.id := "u3"; Users.email := "bob@example.com";
                    Users.name := None; Users.role := "USER";
                    Users.created_at := 2000 |}]};
     Users.ops := 0 |}.

Definition acting_admin : Auth.req_user :=
  {| Auth.user_id := Some "u2"; Auth.user_role := Some "ADMIN" |}.

Definition user_body (name role : Joi.raw_str) : Joi.user_body :=
  {| Joi.b_name := name; Joi.b_role := role; Joi.b_user_unknown := [] |}.

(** A database that ranks the rows of equal key alike in every query, so
    that they come in table order. *)
Definition table_order {A : Type} : nat -> A -> Z := fun _ _ => 0.

(** A database whose [contains] is exact on case. *)
Fixpoint sample_contains (s q : string) : bool :=
  String.prefix q s
  || match s with
     | EmptyString => false
     | String _ s' => sample_contains s' q
     end.

Definition sample_backend : Router.backend :=
  {| Router.store := history_world; Router.accounts := users_world |}.

(** A database that ranks the calls of equal key by start time, latest
    first at the requests of even number and earliest first at the
    others. *)
Definition shifting_ties : nat -> nat -> Store.Call.row -> Z :=
  fun request _ r =>
    if Nat.even request
    then Store.Call.start_timestamp (Store.Call.fields r)
    else - Store.Call.start_timestamp (Store.Call.fields r).

(** A clock that is past every time [sample_clock] gives in its first
    thousand operations, and one that stands still. *)
Definition later_clock : nat -> Z := fun n => 1700000001000 + Z.of_nat n.

Definition stopped_clock : nat -> Z := fun _ => 1000.

(** * Properties *)

(** ** Bootstrap of the superadmin account *)

Section Bootstrap.

Import SuperAdmin.

Lemma findUnique_head (e : string) (users : list user) :
  findUnique e users = head (with_email e users).
Proof.
  unfold findUnique, with_email.
  induction users as [|u rest IH]; simpl; [reflexivity|].
  destruct (String.eqb (email u) e); simpl; [reflexivity|exact IH].
Qed.

Lemma with_email_update (e : string) (users : list user) :
  with_email e (update e promote users) =
  match with_email e users with
  | [] => []
  | u :: rest => promote u :: rest
  end.
Proof.
  unfold with_email.
  induction users as [|u rest IH]; simpl; [reflexivity|].
  destruct (String.eqb (email u) e) eqn:E; simpl.
  - rewrite E. reflexivity.
  - rewrite E. exact IH.
Qed.

Lemma with_email_create (e : string) (u : user) (users : list user) :
  email u = e ->
  with_email e (create u users) = with_email e users ++ [u].
Proof.
  intros <-. unfold with_email, create.
  rewrite List.filter_app. simpl. rewrite String.eqb_refl. reflexivity.
Qed.

Lemma unique_email_at_most_one (e : string) (users : list user) :
  NoDup (map email users) -> (length (with_email e users) <= 1)%nat.
Proof.
  unfold with_email.
  induction users as [|u rest IH]; simpl; intros ND; [lia|].
  apply NoDup_cons in ND as [Hnotin ND].
  destruct (String.eqb (email u) e) eqn:E; [|auto].
  apply String.eqb_eq in E. subst e. simpl.
  assert (List.filter (fun v => String.eqb (email v) (email u)) rest = []) as ->;
    [|simpl; lia].
  clear IH ND. induction rest as [|v rest IH]; simpl; [reflexivity|].
  destruct (String.eqb (email v) (email u)) eqn:E.
  - apply String.eqb_eq in E. exfalso. apply Hnotin. rewrite <- E.
    simpl. left.
  - apply IH. intros Hin. apply Hnotin. simpl. right. exact Hin.
Qed.

Lemma others_update (e : string) (f : user -> user) (users : list user) :
  (forall u, email (f u) = email u) ->
  List.filter (fun u => negb (String.eqb (email u) e)) (update e f users) =
  List.filter (fun u => negb (String.eqb (email u) e)) users.
Proof.
  intros Hf. induction users as [|u rest IH]; simpl; [reflexivity|].
  destruct (String.eqb (email u) e) eqn:E; simpl.
  - rewrite Hf, E. reflexivity.
  - rewrite E. simpl. f_equal. exact IH.
Qed.

Lemma length_update (e : string) (f : user -> user) (users : list user) :
  length (update e f users) = length users.
Proof.
  induction users as [|u rest IH]; simpl; [reflexivity|].
  destruct (String.eqb (email u) e); simpl; congruence.
Qed.

Lemma truthy_nonempty (s : string) : s <> "" -> Js.truthy s = true.
Proof.
  intros H. unfold Js.truthy. destruct (String.eqb s "") eqn:E; [|reflexivity].
  apply String.eqb_eq in E. contradiction.
Qed.

(** The run of [ensureSuperAdmin] when both credentials are configured,
    by the three cases of the lookup. *)
Lemma ensureSuperAdmin_configured (cfg : env) (hash : string -> string)
  (users : list user) (mail pw : string) :
  SUPERADMIN_EMAIL cfg = Some mail -> mail <> "" ->
  SUPERADMIN_PASSWORD cfg = Some pw -> pw <> "" ->
  fst (ensureSuperAdmin cfg hash users) =
  match findUnique mail users with
  | Some existing =>
      if String.eqb (role existing) "SUPERADMIN" then users
      else update mail promote users
  | None =>
      create {| email := mail; passwordHash := hash pw;
                name := Some (default "Super Admin"
                                (Js.or_null (SUPERADMIN_NAME cfg)));
                role := "SUPERADMIN"; status := "APPROVED" |} users
  end.
Proof.
  intros He Hne Hp Hnp. unfold ensureSuperAdmin.
  rewrite He, Hp. simpl. rewrite (truthy_nonempty _ Hne), (truthy_nonempty _ Hnp).
  simpl. destruct (findUnique mail users) as [existing|]; [|reflexivity].
  destruct (String.eqb (role existing) "SUPERADMIN"); reflexivity.
Qed.

End Bootstrap.

(** C9. Running the superadmin bootstrap a second time (whatever salt the
    second password hash draws) leaves the users table exactly as the
    first run left it. After the first run there is exactly one account
    with the configured email and it is a SUPERADMIN; an account is added
    only when none had that email; an existing account is rewritten only
    when its role is not SUPERADMIN, and then only promoted; the accounts
    with other emails are untouched. *)
Theorem ensureSuperAdmin_idempotent
  (cfg : SuperAdmin.env) (h1 h2 : string -> string)
  (users : list SuperAdmin.user) (mail pw : string) :
  SuperAdmin.SUPERADMIN_EMAIL cfg = Some mail -> mail <> "" ->
  SuperAdmin.SUPERADMIN_PASSWORD cfg = Some pw -> pw <> "" ->
  NoDup (map SuperAdmin.email users) ->
  let once := fst (SuperAdmin.ensureSuperAdmin cfg h1 users) in
  let twice := fst (SuperAdmin.ensureSuperAdmin cfg h2 once) in
  twice = once
  /\ length (with_email mail once) = 1%nat
  /\ length (superadmins mail once) = 1%nat
  /\ match SuperAdmin.findUnique mail users with
     | None => length once = S (length users)
     | Some existing =>
         length once = length users
         /\ (SuperAdmin.role existing = "SUPERADMIN" -> once = users)
         /\ (SuperAdmin.role existing <> "SUPERADMIN" ->
             once = SuperAdmin.update mail SuperAdmin.promote users)
     end
  /\ List.filter (fun u => negb (String.eqb (SuperAdmin.email u) mail)) once =
     List.filter (fun u => negb (String.eqb (SuperAdmin.email u) mail)) users.
Proof.
  intros He Hne Hp Hnp ND once twice. subst twice once.
  rewrite (ensureSuperAdmin_configured cfg h2 _ mail pw He Hne Hp Hnp).
  rewrite (ensureSuperAdmin_configured cfg h1 users mail pw He Hne Hp Hnp).
  pose proof (unique_email_at_most_one mail users ND) as Hle.
  pose proof (findUnique_head mail users) as Hhd.
  unfold superadmins.
  destruct (SuperAdmin.findUnique mail users) as [existing|] eqn:Hf.
  - destruct (with_email mail users) as [|u rest] eqn:Hw;
      [discriminate|].
    simpl in Hhd. injection Hhd as <-.
    destruct rest; [|simpl in Hle; lia].
    destruct (String.eqb (SuperAdmin.role existing) "SUPERADMIN") eqn:Hr.
    + rewrite Hf, Hr, Hw. simpl. rewrite Hr. simpl.
      apply String.eqb_eq in Hr.
      repeat split; auto. intros Hn. contradiction.
    + rewrite findUnique_head, with_email_update, Hw. simpl.
      rewrite length_update.
      assert (SuperAdmin.role existing <> "SUPERADMIN") as Hn
        by (intros Heq; apply String.eqb_eq in Heq; congruence).
      repeat split; auto.
      * intros Heq. contradiction.
      * apply others_update. reflexivity.
  - destruct (with_email mail users) as [|u rest] eqn:Hw;
      [|discriminate].
    rewrite findUnique_head, with_email_create, Hw by reflexivity. simpl.
    unfold SuperAdmin.create. rewrite length_app, List.filter_app. simpl.
    rewrite String.eqb_refl. simpl. rewrite app_nil_r.
    repeat split; auto. lia.
Qed.

Lemma ensureSuperAdmin_idempotent_witness :
  let once :=
    fst (SuperAdmin.ensureSuperAdmin bootstrap_env (fun p => "x" +:+ p)
           bootstrap_users) in
  fst (SuperAdmin.ensureSuperAdmin bootstrap_env (fun p => "y" +:+ p) once)
  = once
  /\ length (superadmins "root@example.com" once) = 1%nat.
Proof.
  assert (NoDup (map SuperAdmin.email bootstrap_users)) as ND.
  { apply NoDup_cons. split; [|apply NoDup_singleton].
    intros H. apply list_elem_of_singleton in H. discriminate H. }
  destruct (ensureSuperAdmin_idempotent bootstrap_env
              (fun p => "x" +:+ p) (fun p => "y" +:+ p) bootstrap_users
              "root@example.com" "change-me"
              eq_refl ltac:(discriminate) eq_refl ltac:(discriminate) ND)
    as (H1 & _ & H3 & _).
  split; [exact H1|exact H3].
Defined.

(** ** The auth middleware *)

Section AuthProperties.

Import Auth.

Variable jwt_verify : string -> string -> option req_user.

Lemma or_else_key (a b : option string) (k : string) :
  k <> "" ->
  Js.or_else a b = Some k <->
  a = Some k \/ (Js.truthy_opt a = false /\ b = Some k).
Proof.
  intros Hk. unfold Js.or_else.
  destruct (Js.truthy_opt a) eqn:Ha.
  - split; [auto|]. intros [H|[H _]]; [exact H|discriminate].
  - split; [auto|]. intros [H|[_ H]]; [|exact H].
    subst a. simpl in Ha. rewrite (truthy_nonempty _ Hk) in Ha. discriminate.
Qed.

Lemma unauthorized_is_401 (NODE_ENV : option string) (m : string) :
  res_status (ErrorHandler.errorHandler NODE_ENV
                (ErrorHandler.UnauthorizedError m)) = StNum 401.
Proof. reflexivity. Qed.

Lemma authMiddleware_configured (env : auth_env) (h : request_headers)
  (apiKey : string) :
  API_AUTH_KEY env = Some apiKey -> apiKey <> "" ->
  authMiddleware jwt_verify env h =
  if negb (Js.truthy_opt (bearerToken_of h))
     && negb (Js.truthy_opt (x_api_key h))
  then NextError (ErrorHandler.UnauthorizedError "API key required")
  else match token_user jwt_verify env h with
       | Some u => Next (Some u)
       | None => apiKeyAuth apiKey h (bearerToken_of h)
       end.
Proof.
  intros Hk Hne. unfold authMiddleware, token_user. rewrite Hk. simpl.
  rewrite (truthy_nonempty _ Hne). simpl.
  destruct (bearerToken_of h) as [t|]; destruct (JWT_SECRET env) as [s|];
    simpl; try reflexivity.
  destruct (Js.truthy t); reflexivity.
Qed.

End AuthProperties.

(** C5, as the code has it. With the static key configured: a bearer
    token whose signature verifies authenticates the request as the
    token's user; failing that, the request is authenticated when it
    presents the static key, either in the static key header or, with no
    such header, as the bearer token itself; every other request is
    passed to the error handler, which answers 401. Without a configured
    static key the middleware answers 500 itself. *)
Theorem authMiddleware_state_machine
  (jwt_verify : string -> string -> option Auth.req_user)
  (env : Auth.auth_env) (h : Auth.request_headers) :
  (forall apiKey, Auth.API_AUTH_KEY env = Some apiKey -> apiKey <> "" ->
     (forall u, token_user jwt_verify env h = Some u ->
        Auth.authMiddleware jwt_verify env h = Auth.Next (Some u))
     /\ (token_user jwt_verify env h = None -> presents_key h apiKey ->
         Auth.authMiddleware jwt_verify env h = Auth.Next None)
     /\ (token_user jwt_verify env h = None -> ~ presents_key h apiKey ->
         exists e,
           Auth.authMiddleware jwt_verify env h = Auth.NextError e
           /\ forall NODE_ENV,
                res_status (ErrorHandler.errorHandler NODE_ENV e) = StNum 401))
  /\ (Js.truthy_opt (Auth.API_AUTH_KEY env) = false ->
      exists body,
        Auth.authMiddleware jwt_verify env h =
        Auth.Responded {| res_status := StNum 500; res_body := body |}).
Proof.
  split.
  - intros apiKey Hk Hne.
    rewrite (authMiddleware_configured jwt_verify env h apiKey Hk Hne).
    pose proof (or_else_key (Auth.x_api_key h) (Auth.bearerToken_of h)
                  apiKey Hne) as Hor.
    fold (presents_key h apiKey) in Hor.
    split; [|split].
    + intros u Hu. rewrite Hu.
      destruct (Auth.bearerToken_of h) as [t|] eqn:Ht.
      * unfold token_user in Hu. rewrite Ht in Hu.
        destruct (Auth.JWT_SECRET env); [|discriminate].
        destruct (Js.truthy t) eqn:Htt; [|discriminate].
        simpl. rewrite Htt. reflexivity.
      * unfold token_user in Hu. rewrite Ht in Hu. discriminate.
    + intros Hn Hp. rewrite Hn. apply Hor in Hp.
      assert (negb (Js.truthy_opt (Auth.bearerToken_of h))
              && negb (Js.truthy_opt (Auth.x_api_key h)) = false) as ->.
      { unfold Js.or_else in Hp.
        destruct (Js.truthy_opt (Auth.x_api_key h)); [apply andb_false_r|].
        rewrite Hp. simpl. rewrite (truthy_nonempty _ Hne). reflexivity. }
      unfold Auth.apiKeyAuth. rewrite Hp, String.eqb_refl. reflexivity.
    + intros Hn Hp. rewrite Hn.
      assert (Js.or_else (Auth.x_api_key h) (Auth.bearerToken_of h)
              <> Some apiKey) as Hno by (intros H; apply Hp, Hor, H).
      destruct (negb (Js.truthy_opt (Auth.bearerToken_of h))
                && negb (Js.truthy_opt (Auth.x_api_key h))).
      * eexists. split; [reflexivity|]. intros. apply unauthorized_is_401.
      * unfold Auth.apiKeyAuth.
        destruct (Js.or_else (Auth.x_api_key h) (Auth.bearerToken_of h))
          as [k|] eqn:Hk'.
        -- destruct (String.eqb k apiKey) eqn:E.
           ++ apply String.eqb_eq in E. congruence.
           ++ eexists. split; [reflexivity|]. intros. apply unauthorized_is_401.
        -- eexists. split; [reflexivity|]. intros. apply unauthorized_is_401.
  - intros Hk. unfold Auth.authMiddleware. rewrite Hk. simpl.
    eexists. reflexivity.
Qed.

Lemma authMiddleware_state_machine_witness :
  Auth.authMiddleware (fun _ _ => None)
    {| Auth.API_AUTH_KEY := Some "k3y"; Auth.JWT_SECRET := Some "s3cret" |}
    {| Auth.authorization := Some "Bearer not-a-token";
       Auth.x_api_key := Some "k3y" |}
  = Auth.Next None.
Proof.
  destruct (authMiddleware_state_machine (fun _ _ => None)
              {| Auth.API_AUTH_KEY := Some "k3y";
                 Auth.JWT_SECRET := Some "s3cret" |}
              {| Auth.authorization := Some "Bearer not-a-token";
                 Auth.x_api_key := Some "k3y" |}) as [Hconf _].
  destruct (Hconf "k3y" eq_refl ltac:(discriminate)) as (_ & Hkey & _).
  apply Hkey; [reflexivity|left; reflexivity].
Defined.

(** C5 as the specification words it fails: a request whose only
    credential is a bearer token that does not verify, and that has no
    static key header at all, is let through when the token is the static
    key; and with no static key configured the answer is 500, not 401. *)
Lemma authMiddleware_bearer_key_accepted :
  let verify : string -> string -> option Auth.req_user := fun _ _ => None in
  let env := {| Auth.API_AUTH_KEY := Some "k3y";
                Auth.JWT_SECRET := Some "s3cret" |} in
  let h := {| Auth.authorization := Some "Bearer k3y";
              Auth.x_api_key := None |} in
  Auth.bearerToken_of h = Some "k3y"
  /\ verify "k3y" "s3cret" = None
  /\ Auth.authMiddleware verify env h = Auth.Next None
  /\ Auth.rejection None (Auth.authMiddleware verify env h) = None
  /\ res_status <$>
       Auth.rejection None
         (Auth.authMiddleware verify
            {| Auth.API_AUTH_KEY := None; Auth.JWT_SECRET := Some "s3cret" |}
            {| Auth.authorization := None; Auth.x_api_key := None |})
     = Some (StNum 500).
Proof. repeat split. Qed.

(** ** The paginated list routes *)

Section ListProperties.

Import Store.

Variable fault : nat -> option js_error.
Variable call_tie : nat -> Call.row -> Z.
Variable agent_tie : nat -> Agent.row -> Z.
Variable user_tie : nat -> Users.row -> Z.
Variable contains_insensitive : string -> string -> bool.

Lemma insert_desc_length {A : Type} (key : A -> Z) (x : A) (l : list A) :
  length (insert_desc key x l) = S (length l).
Proof.
  induction l as [|y l IH]; simpl; [reflexivity|].
  destruct (key y <=? key x); simpl; [reflexivity|]. rewrite IH. reflexivity.
Qed.

Lemma sort_desc_length {A : Type} (key : A -> Z) (l : list A) :
  length (sort_desc key l) = length l.
Proof.
  unfold sort_desc. induction l as [|x l IH]; simpl; [reflexivity|].
  rewrite insert_desc_length, IH. reflexivity.
Qed.

Lemma ordered_length {A : Type} (key tie : A -> Z) (l : list A) :
  length (ordered key tie l) = length l.
Proof. unfold ordered. rewrite !sort_desc_length. reflexivity. Qed.

Lemma filter_all_length {A : Type} (l : list A) :
  length (List.filter (fun _ => true) l) = length l.
Proof. induction l as [|x l IH]; simpl; [reflexivity|]. rewrite IH. reflexivity. Qed.

(** The size of a page, and what [hasMore] says about it. *)
Lemma page_bounds {A : Type} (l : list A) (limit offset : Z) :
  1 <= limit -> 0 <= offset ->
  let page := firstn (Z.to_nat limit) (skipn (Z.to_nat offset) l) in
  Z.of_nat (length page) <= limit
  /\ ((offset + limit <? Z.of_nat (length l)) = true
      <-> offset + Z.of_nat (length page) < Z.of_nat (length l)).
Proof.
  intros Hl Ho. cbn zeta. rewrite length_take, length_drop, Z.ltb_lt.
  split; lia.
Qed.

Lemma number_integer_range (key : string) (lo : Z * string)
  (hi : option (Z * string)) (d : Z) (v : Joi.raw_num) (n : Z) :
  Joi.number_integer key lo hi d v = inr n ->
  (v = Joi.NumAbsent /\ n = d)
  \/ (v = Joi.Int n /\ fst lo <= n
      /\ match hi with Some (h, _) => n <= h | None => True end).
Proof.
  unfold Joi.number_integer. destruct v as [|m| |]; try discriminate.
  - intros [= <-]. left. split; reflexivity.
  - destruct (m <? fst lo) eqn:Hlo; [discriminate|].
    apply Z.ltb_ge in Hlo. destruct hi as [[h hs]|].
    + destruct (h <? m) eqn:Hhi; [discriminate|]. apply Z.ltb_ge in Hhi.
      intros [= <-]. right. repeat split; assumption.
    + intros [= <-]. right. repeat split; assumption.
Qed.

Lemma number_integer_out_of_range (key : string) (lo : Z * string)
  (h : Z) (hs : string) (d n : Z) :
  n < fst lo \/ h < n ->
  exists m, Joi.number_integer key lo (Some (h, hs)) d (Joi.Int n) = inl m.
Proof.
  intros Hout. unfold Joi.number_integer.
  destruct (n <? fst lo) eqn:Hlo; [eexists; reflexivity|].
  apply Z.ltb_ge in Hlo.
  destruct (h <? n) eqn:Hhi; [eexists; reflexivity|].
  apply Z.ltb_ge in Hhi. lia.
Qed.

Lemma number_integer_below (key : string) (lo : Z * string)
  (hi : option (Z * string)) (d n : Z) :
  n < fst lo ->
  exists m, Joi.number_integer key lo hi d (Joi.Int n) = inl m.
Proof.
  intros Hlow. unfold Joi.number_integer.
  apply Z.ltb_lt in Hlow. rewrite Hlow. eexists. reflexivity.
Qed.

(** What a validated query holds. *)
Lemma callHistorySchema_value (q : Joi.history_query) (v : Joi.history_value) :
  Joi.callHistorySchema q = inr v ->
  ((Joi.q_limit q = Joi.NumAbsent /\ Joi.limit v = 20)
   \/ (Joi.q_limit q = Joi.Int (Joi.limit v)
       /\ 1 <= Joi.limit v <= 100))
  /\ ((Joi.q_offset q = Joi.NumAbsent /\ Joi.offset v = 0)
      \/ (Joi.q_offset q = Joi.Int (Joi.offset v) /\ 0 <= Joi.offset v)).
Proof.
  unfold Joi.callHistorySchema.
  destruct (Joi.number_integer "limit" _ _ _ _) as [|l] eqn:Hl; [discriminate|].
  destruct (Joi.number_integer "offset" _ _ _ _) as [|o] eqn:Ho; [discriminate|].
  destruct (Joi.sortBy_valid _) as [|s]; [discriminate|].
  destruct (Joi.no_unknown _); [discriminate|].
  intros [= <-]. simpl.
  apply number_integer_range in Hl, Ho. simpl in Hl, Ho.
  split.
  - destruct Hl as [[? ?]|(? & ? & ?)]; [left|right]; auto.
  - destruct Ho as [[? ?]|(? & ? & ?)]; [left|right]; auto.
Qed.

(** The [limit] and the [offset] of a validated query are what the two
    numeric rules, the same in the six schemas, make of the
    parameters. *)
Lemma validated_params (req : Router.list_request) (l o : Z) :
  validated req = Some (l, o) ->
  Joi.number_integer "limit" (1, "1") (Some (100, "100")) 20 (limit_param req)
  = inr l
  /\ Joi.number_integer "offset" (0, "0") None 0 (offset_param req) = inr o.
Proof.
  unfold validated, limit_param, offset_param.
  destruct req as [agentId q|q|q|q|user q|q|q];
    unfold Joi.callHistorySchema, Joi.agentListSchema, Joi.callsListSchema,
      Joi.userListSchema, Joi.searchCallsSchema, Joi.searchAgentsSchema;
    repeat match goal with
           | |- context [match ?x with inl _ => _ | inr _ => _ end] =>
               lazymatch x with
               | match _ with inl _ => _ | inr _ => _ end => fail
               | _ => destruct x eqn:?
               end
           end;
    try discriminate; intros [= <- <-]; simpl; auto.
Qed.

Lemma validated_range (req : Router.list_request) (l o : Z) :
  validated req = Some (l, o) ->
  1 <= l <= 100
  /\ 0 <= o
  /\ (limit_param req = Joi.NumAbsent -> l = 20)
  /\ (forall n, limit_param req = Joi.Int n -> l = n)
  /\ (offset_param req = Joi.NumAbsent -> o = 0)
  /\ (forall n, offset_param req = Joi.Int n -> o = n).
Proof.
  intros Hv. apply validated_params in Hv as [Hl Ho].
  apply number_integer_range in Hl, Ho. simpl in Hl, Ho.
  repeat split.
  - destruct Hl as [[_ ->]|(_ & ? & ?)]; lia.
  - destruct Hl as [[_ ->]|(_ & ? & ?)]; lia.
  - destruct Ho as [[_ ->]|(_ & ? & _)]; lia.
  - destruct Hl as [[_ ?]|[-> _]]; [auto|discriminate].
  - intros n Hn. destruct Hl as [[Hl _]|[Hl _]]; congruence.
  - destruct Ho as [[_ ?]|[-> _]]; [auto|discriminate].
  - intros n Hn. destruct Ho as [[Ho _]|[Ho _]]; congruence.
Qed.

Lemma validated_out_of_range (req : Router.list_request) (n : Z) :
  (limit_param req = Joi.Int n /\ (n < 1 \/ 100 < n))
  \/ (offset_param req = Joi.Int n /\ n < 0) ->
  validated req = None.
Proof.
  intros Hbad. destruct (validated req) as [[l o]|] eqn:Hv; [|reflexivity].
  apply validated_params in Hv as [Hl Ho]. exfalso.
  destruct Hbad as [[Hq Hout]|[Hq Hneg]].
  - rewrite Hq in Hl.
    destruct (number_integer_out_of_range "limit" (1, "1") 100 "100" 20 n Hout)
      as [m Hm].
    congruence.
  - rewrite Hq in Ho.
    destruct (number_integer_below "offset" (0, "0") None 0 n Hneg) as [m Hm].
    congruence.
Qed.

(** [adminMiddleware] lets the request through, or stops it with one of
    its two errors. *)
Lemma adminMiddleware_cases (user : option Auth.req_user) :
  (exists u, Auth.adminMiddleware user = Auth.Next u)
  \/ Auth.adminMiddleware user
     = Auth.NextError (ErrorHandler.UnauthorizedError "Authentication required")
  \/ Auth.adminMiddleware user
     = Auth.NextError (ErrorHandler.ForbiddenError "Admin access required").
Proof.
  unfold Auth.adminMiddleware. destruct user as [u|]; [|auto].
  destruct (negb (Js.truthy_opt (Auth.user_id u))); [auto|].
  destruct (negb (Auth.role_is_admin u)); [auto|]. left. eauto.
Qed.

(** A refused query stops the handler before it touches the store. *)
Lemma callHistory_invalid (agentId : string) (q : Joi.history_query)
  (w : world) (m : string) :
  Joi.callHistorySchema q = inl m ->
  Dashboard.callHistory fault call_tie agentId q w =
  (w, Throw (ErrorHandler.ValidationError m)).
Proof. intros H. unfold Dashboard.callHistory. rewrite H. reflexivity. Qed.

(** So it is on every list route: a request whose query its schema
    refuses leaves the tables and the operation count as they are, and
    is answered with the validation error when it reaches the handler,
    with the error of [adminMiddleware] when it does not. *)
Lemma list_refused (req : Router.list_request) (b : Router.backend) :
  validated req = None ->
  exists e,
    Router.list fault call_tie agent_tie user_tie contains_insensitive req b
    = (b, Throw e)
    /\ ((admitted req /\ exists m, e = ErrorHandler.ValidationError m)
        \/ (~ admitted req
            /\ (e = ErrorHandler.UnauthorizedError "Authentication required"
                \/ e = ErrorHandler.ForbiddenError "Admin access required"))).
Proof.
  unfold validated, admitted.
  destruct b as [w u].
  destruct req as [agentId q|q|q|q|user q|q|q]; simpl;
    unfold Router.with_store, Dashboard.callHistory, Dashboard.listAgents,
      Dashboard.listCalls, Dashboard.callHistoryAll, Users.listUsers,
      Dashboard.searchCalls, Dashboard.searchAgents.
  5: { destruct (adminMiddleware_cases user) as [[x Hx]|[Hx|Hx]]; rewrite Hx.
       - destruct (Joi.userListSchema q) as [m|v]; [|discriminate].
         intros _. eexists. split; [reflexivity|]. left. split; eauto.
       - intros _. eexists. split; [reflexivity|]. right.
         split; [|auto]. intros [y Hy]. discriminate.
       - intros _. eexists. split; [reflexivity|]. right.
         split; [|auto]. intros [y Hy]. discriminate. }
  all: match goal with
       | |- context [match ?x with inl _ => _ | inr _ => _ end] =>
           destruct x as [m|v]; [|discriminate]
       end.
  all: intros _; eexists; split; [reflexivity|]; left; split; eauto.
Qed.

(** The successful run of the handler, step by step. *)
Lemma callHistory_ok (agentId : string) (q : Joi.history_query)
  (w w' : world) (resp : http_response) :
  Dashboard.callHistory fault call_tie agentId q w = (w', Ok resp) ->
  exists v,
    Joi.callHistorySchema q = inr v
    /\ fault (ops w) = None
    /\ fault (S (ops w)) = None
    /\ fault (S (S (ops w))) = None
    /\ is_Some (agents (database w) !! agentId)
    /\ let matching :=
         filter (fun r => Call.agent_id (Call.fields r) = agentId)
                (calls (database w)) in
       let page :=
         firstn (Z.to_nat (Joi.limit v))
           (skipn (Z.to_nat (Joi.offset v))
              (ordered (Dashboard.sort_key (Joi.sortBy v))
                 (call_tie (S (ops w))) matching)) in
       let total := Z.of_nat (length matching) in
       resp =
       res_json
         (JObj [("success", JBool true);
                ("data",
                 JObj [("calls", JArr (map Dashboard.formatCall page));
                       ("pagination",
                        JObj [("total", JNum total);
                              ("limit", JNum (Joi.limit v));
                              ("offset", JNum (Joi.offset v));
                              ("hasMore",
                               JBool (Joi.offset v + Joi.limit v <? total))])])]).
Proof.
  unfold Dashboard.callHistory.
  destruct (Joi.callHistorySchema q) as [m|v]; [discriminate|].
  destruct (negb (Js.truthy agentId)); [discriminate|].
  unfold agent_findUnique, call_findMany, call_count.
  destruct (fault (ops w)) eqn:F0; [discriminate|].
  destruct (agents (database w) !! agentId) as [a|] eqn:Ha; [|discriminate].
  simpl.
  destruct (fault (S (ops w))) eqn:F1; simpl.
  { destruct (fault (S (S (ops w)))); discriminate. }
  destruct (fault (S (S (ops w)))) eqn:F2; [discriminate|].
  intros [= _ <-]. exists v. repeat split; eauto.
Qed.

(** What a list handler answers when it answers: the page and the
    counters of [paginated]. *)
Lemma paginated_ok {A : Type} (key : string) (format : A -> json)
  (limit offset : Z) (found : result (list A)) (counted : result Z)
  (resp : http_response) :
  Dashboard.paginated key format limit offset found counted = Ok resp ->
  exists rows totalCount,
    found = Ok rows /\ counted = Ok totalCount
    /\ resp =
       res_json
         (JObj [("success", JBool true);
                ("data",
                 JObj [(key, JArr (map format rows));
                       ("pagination",
                        JObj [("total", JNum totalCount);
                              ("limit", JNum limit);
                              ("offset", JNum offset);
                              ("hasMore",
                               JBool (offset + limit <? totalCount))])])]).
Proof.
  unfold Dashboard.paginated.
  destruct found as [rows|e]; [|discriminate].
  destruct counted as [n|e]; [|discriminate].
  intros [= <-]. eauto.
Qed.

(** Every answer of a list route, whichever the route: the query was
    accepted, [total] is the number of rows matching its filter, and the
    page is what [skip: offset, take: limit] leaves of them. *)
Lemma list_ok (req : Router.list_request) (b b' : Router.backend)
  (resp : http_response) :
  Router.list fault call_tie agent_tie user_tie contains_insensitive req b
  = (b', Ok resp) ->
  exists limit offset total (items : list json),
    validated req = Some (limit, offset)
    /\ matching contains_insensitive req b = Some total
    /\ 0 <= total
    /\ length items
       = Nat.min (Z.to_nat limit) (Z.to_nat total - Z.to_nat offset)
    /\ resp =
       res_json
         (JObj [("success", JBool true);
                ("data",
                 JObj [(items_key req, JArr items);
                       ("pagination",
                        JObj [("total", JNum total);
                              ("limit", JNum limit);
                              ("offset", JNum offset);
                              ("hasMore",
                               JBool (offset + limit <? total))])])]).
Proof.
  destruct b as [w u].
  destruct req as [agentId q|q|q|q|user q|q|q]; simpl;
    unfold Router.with_store; simpl.
  - destruct (Dashboard.callHistory fault call_tie agentId q w)
      as [w1 r] eqn:Hrun.
    simpl. intros [= <- ->].
    apply callHistory_ok in Hrun as (v & Hv & _ & _ & _ & _ & Hresp).
    cbn zeta in Hresp. subst resp. unfold calls_of_agent.
    rewrite Hv. eexists _, _, _, _.
    split; [reflexivity|]. split; [reflexivity|]. split; [lia|].
    split; [|reflexivity].
    rewrite length_map, length_take, length_drop, ordered_length. lia.
  - unfold Dashboard.listAgents, agent_findMany, agent_count.
    destruct (Joi.agentListSchema q) as [m|v]; [discriminate|].
    destruct (fault (ops w)); simpl;
      [destruct (fault (S (ops w))); discriminate|].
    destruct (fault (S (ops w))); simpl; [discriminate|].
    intros [= <- <-]. eexists _, _, _, _.
    split; [reflexivity|]. split; [reflexivity|]. split; [lia|].
    split; [|reflexivity].
    rewrite length_map, length_take, length_drop, ordered_length. lia.
  - unfold Dashboard.listCalls, call_findMany_where, call_count_where.
    destruct (Joi.callsListSchema q) as [m|v]; [discriminate|].
    destruct (fault (ops w)); simpl;
      [destruct (fault (S (ops w))); discriminate|].
    destruct (fault (S (ops w))); simpl; [discriminate|].
    intros [= <- <-]. eexists _, _, _, _.
    split; [reflexivity|]. split; [reflexivity|]. split; [lia|].
    split; [|reflexivity].
    rewrite length_map, length_take, length_drop, ordered_length. lia.
  - unfold Dashboard.callHistoryAll, call_findMany_where, call_count_all.
    destruct (Joi.callHistorySchema q) as [m|v]; [discriminate|].
    destruct (fault (ops w)); simpl;
      [destruct (fault (S (ops w))); discriminate|].
    destruct (fault (S (ops w))); simpl; [discriminate|].
    intros [= <- <-]. eexists _, _, _, _.
    split; [reflexivity|]. split; [reflexivity|]. split; [lia|].
    split; [|reflexivity].
    rewrite length_map, length_take, length_drop, ordered_length,
      filter_all_length.
    lia.
  - destruct (adminMiddleware_cases user) as [[x Hx]|[Hx|Hx]]; rewrite Hx;
      [|discriminate..].
    unfold Users.listUsers, Users.findMany, Users.count.
    destruct (Joi.userListSchema q) as [m|v]; [discriminate|].
    destruct (fault (Users.ops u)); simpl;
      [destruct (fault (S (Users.ops u))); discriminate|].
    destruct (fault (S (Users.ops u))); simpl; [discriminate|].
    intros [= <- <-]. eexists _, _, _, _.
    split; [reflexivity|]. split; [reflexivity|]. split; [lia|].
    split; [|reflexivity].
    rewrite length_map, length_take, length_drop, ordered_length. lia.
  - unfold Dashboard.searchCalls, call_findMany_where, call_count_where.
    destruct (Joi.searchCallsSchema q) as [m|v]; [discriminate|].
    destruct (fault (ops w)); simpl;
      [destruct (fault (S (ops w))); discriminate|].
    destruct (fault (S (ops w))); simpl; [discriminate|].
    intros [= <- <-]. eexists _, _, _, _.
    split; [reflexivity|]. split; [reflexivity|]. split; [lia|].
    split; [|reflexivity].
    rewrite length_map, length_take, length_drop, ordered_length. lia.
  - unfold Dashboard.searchAgents, agent_findMany, agent_count.
    destruct (Joi.searchAgentsSchema q) as [m|v]; [discriminate|].
    destruct (fault (ops w)); simpl;
      [destruct (fault (S (ops w))); discriminate|].
    destruct (fault (S (ops w))); simpl; [discriminate|].
    intros [= <- <-]. eexists _, _, _, _.
    split; [reflexivity|]. split; [reflexivity|]. split; [lia|].
    split; [|reflexivity].
    rewrite length_map, length_take, length_drop, ordered_length. lia.
Qed.

End ListProperties.

(** C7. Every paginated list response, of whichever of the seven list
    routes and whatever the store and its ordering do: the query was
    accepted with some [limit] and [offset], the requested ones where
    the request gives them; the page under [data] has at most [limit]
    records; [total] is the number of rows that match the filter of the
    request; and [hasMore] is [offset + limit < total], which holds
    exactly when matching rows remain beyond the returned page. *)
Theorem list_pagination (fault : nat -> option js_error)
  (call_tie : nat -> Store.Call.row -> Z)
  (agent_tie : nat -> Store.Agent.row -> Z)
  (user_tie : nat -> Users.row -> Z)
  (contains_insensitive : string -> string -> bool)
  (req : Router.list_request) (b b' : Router.backend)
  (resp : http_response) :
  Router.list fault call_tie agent_tie user_tie contains_insensitive req b
  = (b', Ok resp) ->
  exists limit offset total items hasMore,
    validated req = Some (limit, offset)
    /\ (forall n, limit_param req = Joi.Int n -> limit = n)
    /\ (forall n, offset_param req = Joi.Int n -> offset = n)
    /\ matching contains_insensitive req b = Some total
    /\ jpath ["data"; items_key req] (res_body resp) = Some (JArr items)
    /\ jpath ["data"; "pagination"; "total"] (res_body resp)
       = Some (JNum total)
    /\ jpath ["data"; "pagination"; "limit"] (res_body resp)
       = Some (JNum limit)
    /\ jpath ["data"; "pagination"; "offset"] (res_body resp)
       = Some (JNum offset)
    /\ jpath ["data"; "pagination"; "hasMore"] (res_body resp)
       = Some (JBool hasMore)
    /\ Z.of_nat (length items) <= limit
    /\ hasMore = (offset + limit <? total)
    /\ (hasMore = true <-> offset + Z.of_nat (length items) < total).
Proof.
  intros H.
  apply list_ok in H
    as (limit & offset & total & items & Hv & Hm & Htotal & Hlen & ->).
  exists limit, offset, total, items, (offset + limit <? total).
  split; [exact Hv|].
  apply validated_range in Hv as (Hl & Ho & _ & Hgiven & _ & Hgiven').
  split; [exact Hgiven|]. split; [exact Hgiven'|]. split; [exact Hm|].
  split; [destruct req; reflexivity|].
  split; [destruct req; reflexivity|].
  split; [destruct req; reflexivity|].
  split; [destruct req; reflexivity|].
  split; [destruct req; reflexivity|].
  split; [lia|]. split; [reflexivity|].
  rewrite Z.ltb_lt. lia.
Qed.

Lemma list_pagination_witness :
  exists resp items,
    snd (Router.list no_fault table_order table_order table_order
           sample_contains
           (Router.GetUsers (Some acting_admin)
              {| Joi.UserList.q_limit := Joi.Int 1;
                 Joi.UserList.q_offset := Joi.NumAbsent;
                 Joi.UserList.q_role := Joi.StrAbsent;
                 Joi.UserList.q_search := Joi.Str "example";
                 Joi.UserList.q_unknown := [] |})
           sample_backend) = Ok resp
    /\ jpath ["data"; "users"] (res_body resp) = Some (JArr items)
    /\ length items = 1%nat
    /\ jpath ["data"; "pagination"; "total"] (res_body resp)
       = Some (JNum 2)
    /\ jpath ["data"; "pagination"; "hasMore"] (res_body resp)
       = Some (JBool true).
Proof.
  destruct (Router.list no_fault table_order table_order table_order
              sample_contains
              (Router.GetUsers (Some acting_admin)
                 {| Joi.UserList.q_limit := Joi.Int 1;
                    Joi.UserList.q_offset := Joi.NumAbsent;
                    Joi.UserList.q_role := Joi.StrAbsent;
                    Joi.UserList.q_search := Joi.Str "example";
                    Joi.UserList.q_unknown := [] |})
              sample_backend) as [b' r] eqn:Hrun.
  assert (exists resp, r = Ok resp) as [resp ->].
  { vm_compute in Hrun. injection Hrun as _ <-. eexists. reflexivity. }
  destruct (list_pagination _ _ _ _ _ _ _ _ _ Hrun)
    as (limit & offset & total & items & hasMore & Hv & _ & _ & Hm & Hitems
        & Htotal & _ & _ & Hmore & Hlen & Hflag & _).
  exists resp, items. simpl. split; [reflexivity|]. split; [exact Hitems|].
  vm_compute in Hv. injection Hv as <- <-.
  vm_compute in Hm. injection Hm as <-.
  split; [|split].
  - vm_compute in Hrun. injection Hrun as _ <-.
    vm_compute in Hitems. injection Hitems as <-. reflexivity.
  - exact Htotal.
  - subst hasMore. exact Hmore.
Defined.

(** C8, as the code has it. On every list route the pagination
    parameters are validated, not clamped: an accepted query has
    [1 <= limit <= 100] (20 when absent, the supplied integer otherwise)
    and [0 <= offset] (0 when absent), and these are the values the
    answer is made with; a request whose limit lies outside [1, 100], or
    whose offset is negative, is not served: nothing is read from the
    store, and the client gets status 400 (or, on [/users], the 401 or
    403 of a request that [adminMiddleware] stops). *)
Theorem list_limit_offset_validated (fault : nat -> option js_error)
  (call_tie : nat -> Store.Call.row -> Z)
  (agent_tie : nat -> Store.Agent.row -> Z)
  (user_tie : nat -> Users.row -> Z)
  (contains_insensitive : string -> string -> bool)
  (NODE_ENV : option string) (req : Router.list_request)
  (b : Router.backend) :
  let answer :=
    Router.list fault call_tie agent_tie user_tie contains_insensitive
      req b in
  let response :=
    Router.GET_list fault call_tie agent_tie user_tie contains_insensitive
      NODE_ENV req b in
  (forall limit offset, validated req = Some (limit, offset) ->
     1 <= limit <= 100
     /\ 0 <= offset
     /\ (limit_param req = Joi.NumAbsent -> limit = 20)
     /\ (forall n, limit_param req = Joi.Int n -> limit = n)
     /\ (offset_param req = Joi.NumAbsent -> offset = 0)
     /\ (forall n, offset_param req = Joi.Int n -> offset = n))
  /\ (forall resp, snd answer = Ok resp ->
        exists limit offset,
          validated req = Some (limit, offset)
          /\ jpath ["data"; "pagination"; "limit"] (res_body resp)
             = Some (JNum limit)
          /\ jpath ["data"; "pagination"; "offset"] (res_body resp)
             = Some (JNum offset))
  /\ (forall n,
        (limit_param req = Joi.Int n /\ (n < 1 \/ 100 < n))
        \/ (offset_param req = Joi.Int n /\ n < 0) ->
        validated req = None
        /\ fst answer = b
        /\ (admitted req ->
            res_status response = StNum 400
            /\ jget "message" (res_body response)
               = Some (JStr "Validation Error"))
        /\ (res_status response = StNum 400
            \/ res_status response = StNum 401
            \/ res_status response = StNum 403)).
Proof.
  cbn zeta. split; [|split].
  - intros limit offset Hv. exact (validated_range req limit offset Hv).
  - intros resp Hresp.
    destruct (Router.list fault call_tie agent_tie user_tie
                contains_insensitive req b) as [b' r] eqn:Hrun.
    simpl in Hresp. subst r.
    apply list_ok in Hrun
      as (limit & offset & total & items & Hv & _ & _ & _ & ->).
    exists limit, offset. split; [exact Hv|].
    split; destruct req; reflexivity.
  - intros n Hbad. pose proof (validated_out_of_range req n Hbad) as Hnone.
    split; [exact Hnone|].
    destruct (list_refused fault call_tie agent_tie user_tie
                contains_insensitive req b Hnone) as (e & Hrun & He).
    unfold Router.GET_list. rewrite Hrun. simpl.
    split; [reflexivity|].
    destruct He as [[Hadm [m ->]]|[Hnot [-> | ->]]]; simpl.
    + split; [|left; reflexivity]. intros _. split; [reflexivity|].
      unfold ErrorHandler.errorHandler. simpl.
      destruct (ErrorHandler.env_is NODE_ENV "production"); reflexivity.
    + split; [intros Hadm; contradiction|]. right. left. reflexivity.
    + split; [intros Hadm; contradiction|]. right. right. reflexivity.
Qed.

Lemma list_limit_offset_validated_witness :
  res_status (Router.GET_list no_fault table_order table_order table_order
                sample_contains (Some "production")
                (Router.GetSearchCalls
                   {| Joi.SearchCalls.q_query := Joi.Str "refund";
                      Joi.SearchCalls.q_limit := Joi.Int 101;
                      Joi.SearchCalls.q_offset := Joi.NumAbsent;
                      Joi.SearchCalls.q_agentId := Joi.StrAbsent;
                      Joi.SearchCalls.q_unknown := [] |})
                sample_backend)
  = StNum 400.
Proof.
  destruct (list_limit_offset_validated no_fault table_order table_order
              table_order sample_contains (Some "production")
              (Router.GetSearchCalls
                 {| Joi.SearchCalls.q_query := Joi.Str "refund";
                    Joi.SearchCalls.q_limit := Joi.Int 101;
                    Joi.SearchCalls.q_offset := Joi.NumAbsent;
                    Joi.SearchCalls.q_agentId := Joi.StrAbsent;
                    Joi.SearchCalls.q_unknown := [] |})
              sample_backend)
    as (_ & _ & Hrefused).
  destruct (Hrefused 101) as (_ & _ & Hstatus & _).
  - left. split; [reflexivity|right; lia].
  - apply Hstatus. exact I.
Defined.

(** C8 as the specification words it fails: a limit of 500 is not
    clamped to 100 and served, the request is refused with status 400;
    the same query with limit 100 is served. *)
Lemma callHistory_limit_not_clamped :
  Dashboard.GET_call_history no_fault table_order None "agent_1"
    (query (Joi.Int 500) Joi.NumAbsent) history_world
  = {| res_status := StNum 400;
       res_body := JObj [("error", JBool true);
                         ("message", JStr "Validation Error")] |}
  /\ res_status (Dashboard.GET_call_history no_fault table_order None
                   "agent_1" (query (Joi.Int 100) Joi.NumAbsent)
                   history_world)
     = StNum 200.
Proof. split; vm_compute; reflexivity. Qed.

(** C6 on the code. For a well-formed request whose agent has no row, the
    handler throws [NotFoundError] with the message naming the agent, and
    the client does get status 404; but [errorHandler] replaces the
    message of every [NotFoundError] by the fixed text, so the message
    field of the response is "Not Found" whatever the identifier. *)
Theorem callHistory_unknown_agent (fault : nat -> option js_error)
  (call_tie : nat -> Store.Call.row -> Z) (NODE_ENV : option string) (agentId : string) (q : Joi.history_query)
  (v : Joi.history_value) (w : Store.world) :
  Joi.callHistorySchema q = inr v ->
  agentId <> "" ->
  fault (Store.ops w) = None ->
  Store.agents (Store.database w) !! agentId = None ->
  snd (Dashboard.callHistory fault call_tie agentId q w)
  = Throw (ErrorHandler.NotFoundError
             ("Agent with ID " +:+ agentId +:+ " not found"))
  /\ res_status (Dashboard.GET_call_history fault call_tie NODE_ENV agentId q w)
     = StNum 404
  /\ jget "message"
       (res_body (Dashboard.GET_call_history fault call_tie NODE_ENV agentId q w))
     = Some (JStr "Not Found").
Proof.
  intros Hv Hid Hf Ha.
  assert (snd (Dashboard.callHistory fault call_tie agentId q w)
          = Throw (ErrorHandler.NotFoundError
                     ("Agent with ID " +:+ agentId +:+ " not found"))) as Hthrow.
  { unfold Dashboard.callHistory, Store.agent_findUnique.
    rewrite Hv, (truthy_nonempty _ Hid), Hf, Ha. reflexivity. }
  unfold Dashboard.GET_call_history. rewrite Hthrow. simpl.
  repeat split.
  destruct (ErrorHandler.env_is NODE_ENV "production"); reflexivity.
Qed.

Lemma callHistory_unknown_agent_witness :
  Dashboard.GET_call_history no_fault table_order None "agent_404"
    (query Joi.NumAbsent Joi.NumAbsent) history_world
  = {| res_status := StNum 404;
       res_body := JObj [("error", JBool true);
                         ("message", JStr "Not Found")] |}
  /\ jget "message"
       (res_body (Dashboard.GET_call_history no_fault table_order None "agent_404"
                    (query Joi.NumAbsent Joi.NumAbsent) history_world))
     <> Some (JStr "Agent with ID agent_404 not found").
Proof.
  destruct (callHistory_unknown_agent no_fault table_order None "agent_404"
              (query Joi.NumAbsent Joi.NumAbsent)
              {| Joi.limit := 20; Joi.offset := 0; Joi.sortBy := "date" |}
              history_world eq_refl ltac:(discriminate) eq_refl eq_refl)
    as (_ & _ & Hmsg).
  split; [vm_compute; reflexivity|].
  rewrite Hmsg. discriminate.
Defined.

(** ** The drain of the provider's pages *)

Section DrainProperties.

Import Retell.

Variable post_list_calls : list_calls_body -> result list_calls_data.

(** The loop on a chain of pages: it goes on after a page exactly when
    the page is non-empty and has [lim] records. *)
Lemma drain_pages (lim startTs endTs : Z) (ps : list (list call)) :
  forall (cursor : option string) (acc final : list call) (fuel : nat),
    pages_from post_list_calls lim startTs endTs cursor ps final ->
    (forall p, p ∈ ps -> Z.of_nat (length p) = lim /\ 0 < Z.of_nat (length p)) ->
    (Z.of_nat (length final) =? lim) && (0 <? Z.of_nat (length final)) = false ->
    (length ps < fuel)%nat ->
    drain post_list_calls fuel lim startTs endTs cursor acc =
    Some (map (page_options lim startTs endTs)
              (cursor :: map (fun p => call_id <$> last p) ps),
          Ok (acc ++ concat ps ++ final)).
Proof.
  induction ps as [|p ps IH]; intros cursor acc final fuel Hpages Hfull Hlast Hfuel.
  - destruct fuel as [|fuel]; [simpl in Hfuel; lia|].
    simpl in Hpages. unfold fetchPage, page_options in Hpages. simpl.
    rewrite Hpages, Hlast. reflexivity.
  - destruct fuel as [|fuel]; [simpl in Hfuel; lia|].
    destruct Hpages as [Hp Hrest]. unfold fetchPage, page_options in Hp. simpl.
    rewrite Hp.
    destruct (Hfull p) as [Hlen Hpos]; [left|].
    apply <- Z.eqb_eq in Hlen. apply <- Z.ltb_lt in Hpos.
    rewrite Hlen, Hpos. simpl.
    rewrite (IH (call_id <$> last p) (acc ++ p) final fuel Hrest).
    + simpl. rewrite <- !app_assoc. reflexivity.
    + intros q Hq. apply Hfull. right. exact Hq.
    + exact Hlast.
    + simpl in Hfuel. lia.
Qed.

End DrainProperties.

(** C4, as the code has it. Let the provider, asked first without a
    cursor and then each time with the identifier of the last record of
    the page before, answer the pages [ps] and then [final], every page
    of [ps] being non-empty with exactly [lim] records and [final] being
    the first page that is not. Then, for every time window and every
    page limit, given fuel for these pages, [getAllCallsInRange] makes
    exactly those requests, in that order and with those cursors, stops
    after [final], and returns the concatenation of all the pages. The
    page that ends the drain is thus the first one that is empty or
    whose length differs from the limit; it is the first page shorter
    than the limit when the limit is positive and the provider never
    answers more than [lim] records. *)
Theorem getAllCallsInRange_drains
  (post_list_calls : Retell.list_calls_body -> result Retell.list_calls_data)
  (startDate endDate lim : Z) (ps : list (list Retell.call))
  (final : list Retell.call) (fuel : nat) :
  pages_from post_list_calls lim (startDate / 1000) (endDate / 1000)
    None ps final ->
  (forall p, p ∈ ps -> full_page lim p) ->
  ~ full_page lim final ->
  (length ps < fuel)%nat ->
  Retell.getAllCallsInRange post_list_calls fuel startDate endDate lim =
  Some (map (page_options lim (startDate / 1000) (endDate / 1000))
            (cursors ps),
        Ok (concat ps ++ final))
  /\ (0 < lim ->
      (forall p, p ∈ ps ++ [final] -> Z.of_nat (length p) <= lim) ->
      Z.of_nat (length final) < lim
      /\ forall p, p ∈ ps -> ~ Z.of_nat (length p) < lim).
Proof.
  intros Hpages Hfull Hlast Hfuel. split.
  - unfold Retell.getAllCallsInRange, cursors.
    apply (drain_pages post_list_calls lim _ _ ps None [] final fuel Hpages).
    + exact Hfull.
    + unfold full_page in Hlast.
      destruct (Z.of_nat (length final) =? lim) eqn:E1; [|reflexivity].
      destruct (0 <? Z.of_nat (length final)) eqn:E2; [|reflexivity].
      apply Z.eqb_eq in E1. apply Z.ltb_lt in E2. tauto.
    + exact Hfuel.
  - intros Hpos Hmax. split.
    + assert (Z.of_nat (length final) <= lim)
        by (apply Hmax, elem_of_app; right; left).
      unfold full_page in Hlast. lia.
    + intros p Hp. destruct (Hfull p Hp) as [Hlen _]. lia.
Qed.

Lemma getAllCallsInRange_drains_witness :
  Retell.getAllCallsInRange three_calls 5 0 100000 2 =
  Some ([page_options 2 0 100 None; page_options 2 0 100 (Some "c2")],
        Ok [provider_call "c1" "agent_1" 1000 61000 (Some 60000);
            provider_call "c2" "agent_1" 3000 33000 (Some 30000);
            provider_call "c3" "agent_2" 2000 92000 (Some 90000)]).
Proof.
  apply (getAllCallsInRange_drains three_calls 0 100000 2
           [[provider_call "c1" "agent_1" 1000 61000 (Some 60000);
             provider_call "c2" "agent_1" 3000 33000 (Some 30000)]]
           [provider_call "c3" "agent_2" 2000 92000 (Some 90000)] 5).
  - split; reflexivity.
  - intros p Hp. apply list_elem_of_singleton in Hp. subst p.
    unfold full_page. simpl. lia.
  - unfold full_page. simpl. lia.
  - simpl. lia.
Defined.

(** C4 as the specification words it fails: the drain does not stop
    "exactly after the first page shorter than the limit". Asked for one
    record a page, a provider that answers two ends the drain at once,
    after a page that is not shorter than the limit and with its third
    call never fetched; and with a page limit of 0 the drain stops after
    the first page, which cannot be shorter than 0. *)
Lemma getAllCallsInRange_stops_on_other_pages :
  let page := [provider_call "c1" "agent_1" 1000 61000 (Some 60000);
               provider_call "c2" "agent_1" 3000 33000 (Some 30000)] in
  Retell.getAllCallsInRange three_calls 5 0 100000 1 =
  Some ([page_options 1 0 100 None], Ok page)
  /\ ~ Z.of_nat (length page) < 1
  /\ Retell.getAllCallsInRange three_calls 5 0 100000 0 =
     Some ([page_options 0 0 100 None], Ok page)
  /\ ~ Z.of_nat (length page) < 0.
Proof. cbn zeta. repeat split; try (vm_compute; reflexivity); simpl; lia. Qed.

(** ** The sync routine *)

Section SyncProperties.

Import Store.

Variable fault : nat -> option js_error.
Variable clock : nat -> Z.



Lemma log_extends_logger (l : level) (m : string) (mt : list (string * json))
  (w : world) : log_extends w (logger l m mt w).
Proof. eexists. reflexivity. Qed.


(** *** The first loop *)

Lemma ensureAgent_calls (m : gmap string Dashboard.agent_info) (w : world)
  (id : string) :
  calls (database (Dashboard.ensureAgent fault clock m w id))
  = calls (database w).
Proof.
  unfold Dashboard.ensureAgent, agent_upsert.
  destruct (fault (ops w)); reflexivity.
Qed.

Lemma ensureAgent_ops (m : gmap string Dashboard.agent_info) (w : world)
  (id : string) :
  ops (Dashboard.ensureAgent fault clock m w id) = S (ops w).
Proof.
  unfold Dashboard.ensureAgent, agent_upsert.
  destruct (fault (ops w)); reflexivity.
Qed.

Lemma ensureAgent_keeps (m : gmap string Dashboard.agent_info) (w : world)
  (id x : string) :
  is_Some (agents (database w) !! x) ->
  is_Some (agents (database (Dashboard.ensureAgent fault clock m w id)) !! x).
Proof.
  unfold Dashboard.ensureAgent, agent_upsert.
  destruct (fault (ops w)); [auto|]. simpl. intros Hx.
  destruct (decide (id = x)) as [->|Hne].
  - rewrite lookup_insert_eq. eauto.
  - rewrite lookup_insert_ne by exact Hne. exact Hx.
Qed.

Lemma ensureAgent_upserts (m : gmap string Dashboard.agent_info) (w : world)
  (id : string) :
  fault (ops w) = None ->
  is_Some (agents (database (Dashboard.ensureAgent fault clock m w id)) !! id).
Proof.
  intros Hf. unfold Dashboard.ensureAgent, agent_upsert. rewrite Hf. simpl.
  rewrite lookup_insert_eq. eauto.
Qed.



Lemma ensureAgents_calls (m : gmap string Dashboard.agent_info)
  (ids : list string) (w : world) :
  calls (database (Dashboard.ensureAgents fault clock m ids w))
  = calls (database w).
Proof.
  unfold Dashboard.ensureAgents. revert w.
  induction ids as [|id ids IH]; intros w; simpl; [reflexivity|].
  rewrite IH. apply ensureAgent_calls.
Qed.

Lemma ensureAgents_ops (m : gmap string Dashboard.agent_info)
  (ids : list string) (w : world) :
  ops (Dashboard.ensureAgents fault clock m ids w) = (ops w + length ids)%nat.
Proof.
  unfold Dashboard.ensureAgents. revert w.
  induction ids as [|id ids IH]; intros w; simpl; [lia|].
  rewrite IH, ensureAgent_ops. lia.
Qed.

Lemma ensureAgents_keeps (m : gmap string Dashboard.agent_info)
  (ids : list string) (w : world) (x : string) :
  is_Some (agents (database w) !! x) ->
  is_Some (agents (database (Dashboard.ensureAgents fault clock m ids w)) !! x).
Proof.
  unfold Dashboard.ensureAgents. revert w.
  induction ids as [|id ids IH]; intros w Hx; simpl; [exact Hx|].
  apply IH, ensureAgent_keeps, Hx.
Qed.


(** When no upsert of the first loop is rejected, every identifier of the
    loop has a row when the loop ends. *)
Lemma ensureAgents_upserts (m : gmap string Dashboard.agent_info)
  (ids : list string) :
  forall w : world,
    (forall n, (ops w <= n < ops w + length ids)%nat -> fault n = None) ->
    forall id, id ∈ ids ->
      is_Some (agents (database (Dashboard.ensureAgents fault clock m ids w))
               !! id).
Proof.
  induction ids as [|x ids IH]; intros w Hok id Hin.
  - apply elem_of_nil in Hin. contradiction.
  - change (Dashboard.ensureAgents fault clock m (x :: ids) w)
      with (Dashboard.ensureAgents fault clock m ids
              (Dashboard.ensureAgent fault clock m w x)).
    apply elem_of_cons in Hin as [->|Hin].
    + apply ensureAgents_keeps, ensureAgent_upserts, Hok. simpl. lia.
    + apply IH; [|exact Hin]. intros n Hn. apply Hok.
      rewrite ensureAgent_ops in Hn. simpl. lia.
Qed.

Lemma uniqueIds_elem (ids : list string) (x : string) :
  x ∈ Dashboard.uniqueIds ids <-> x ∈ ids.
Proof.
  induction ids as [|y ids IH]; simpl; [reflexivity|].
  rewrite !elem_of_cons, list_elem_of_filter, IH.
  destruct (decide (x = y)); tauto.
Qed.

Lemma uniqueIds_NoDup (ids : list string) : NoDup (Dashboard.uniqueIds ids).
Proof.
  induction ids as [|y ids IH]; simpl; [constructor|].
  constructor.
  - rewrite list_elem_of_filter. tauto.
  - apply NoDup_filter, IH.
Qed.

(** *** The second loop *)

Lemma find_call_app_new (id : string) (rows : list Call.row) (r : Call.row) :
  find_call id rows = None ->
  Call.call_id (Call.fields r) = id ->
  find_call id (rows ++ [r]) = Some r.
Proof.
  unfold find_call. intros Hnone <-.
  induction rows as [|x rows IH]; simpl in *.
  - rewrite String.eqb_refl. reflexivity.
  - destruct (String.eqb _ _); [discriminate|]. apply IH, Hnone.
Qed.

Lemma find_call_replace (id : string) (rows : list Call.row)
  (old r : Call.row) :
  find_call id rows = Some old ->
  Call.call_id (Call.fields r) = id ->
  find_call id (default rows (replace_call id (fun _ => r) rows)) = Some r.
Proof.
  unfold find_call. intros Hold <-.
  induction rows as [|x rows IH]; simpl in *; [discriminate|].
  destruct (String.eqb (Call.call_id (Call.fields x))
              (Call.call_id (Call.fields r))) eqn:E; simpl.
  - rewrite String.eqb_refl. reflexivity.
  - specialize (IH Hold).
    destruct (replace_call _ _ rows) as [rows'|]; simpl in *.
    + rewrite E. exact IH.
    + rewrite E. exact IH.
Qed.

(** What [callData] copies from the provider's record. *)
Lemma callData_ok (c : Retell.call) (d : Call.data) :
  Dashboard.callData c = Ok d ->
  Call.call_id d = Retell.call_id c
  /\ Call.agent_id d = Retell.agent_id c
  /\ Retell.start_timestamp c = Some (Call.start_timestamp d)
  /\ Retell.end_timestamp c = Some (Call.end_timestamp d)
  /\ Call.duration_ms d = Retell.duration_ms c
  /\ Call.duration_seconds d
     = (fun ms => ms / 1000) <$> Retell.duration_ms c.
Proof.
  unfold Dashboard.callData.
  destruct (Retell.start_timestamp c) as [s|]; [|discriminate].
  destruct (Retell.end_timestamp c) as [e|]; [|discriminate].
  intros [= <-]. simpl. repeat split; reflexivity.
Qed.

Lemma processCall_agents (w : world) (c : Retell.call) :
  agents (database (fst (Dashboard.processCall fault clock w c)))
  = agents (database w).
Proof.
  unfold Dashboard.processCall, call_upsert.
  destruct (Dashboard.callData c) as [d|]; [|reflexivity].
  destruct (fault (ops w)); [reflexivity|].
  destruct (agents (database w) !! Call.agent_id d); [|reflexivity].
  destruct (find_call (Call.call_id d) (calls (database w))); reflexivity.
Qed.


(** A call that is counted as created or updated was mapped and written:
    the store accepted it, its agent had a row at that moment, and the
    row now stored under its identifier holds the mapped fields. *)
Lemma processCall_written (w : world) (c : Retell.call) :
  snd (Dashboard.processCall fault clock w c) <> Dashboard.Failed ->
  exists d r,
    Dashboard.callData c = Ok d
    /\ fault (ops w) = None
    /\ is_Some (agents (database w) !! Retell.agent_id c)
    /\ find_call (Retell.call_id c)
         (calls (database (fst (Dashboard.processCall fault clock w c))))
       = Some r
    /\ Call.fields r = d.
Proof.
  unfold Dashboard.processCall, call_upsert.
  destruct (Dashboard.callData c) as [d|] eqn:Hd; [|simpl; congruence].
  destruct (callData_ok c d Hd) as (Hid & Hag & _).
  destruct (fault (ops w)); [simpl; congruence|].
  rewrite Hag.
  destruct (agents (database w) !! Retell.agent_id c) eqn:Ha;
    [|simpl; congruence].
  rewrite Hid.
  destruct (find_call (Retell.call_id c) (calls (database w))) as [old|] eqn:Hf;
    simpl; intros _; eexists d, _; repeat split; eauto.
  - eapply find_call_replace; eauto.
  - reflexivity.
  - apply find_call_app_new; auto.
  - reflexivity.
Qed.



Lemma processCalls_cons (c : Retell.call) (cs : list Retell.call) (w : world)
  (k : Dashboard.counters) :
  Dashboard.processCalls fault clock (c :: cs) w k =
  Dashboard.processCalls fault clock cs
    (fst (Dashboard.processCall fault clock w c))
    (Dashboard.count (snd (Dashboard.processCall fault clock w c)) k).
Proof.
  unfold Dashboard.processCalls. simpl.
  destruct (Dashboard.processCall fault clock w c). reflexivity.
Qed.

Lemma processCalls_agents (cs : list Retell.call) :
  forall (w : world) (k : Dashboard.counters),
    agents (database (fst (Dashboard.processCalls fault clock cs w k)))
    = agents (database w).
Proof.
  induction cs as [|c cs IH]; intros w k; [reflexivity|].
  rewrite processCalls_cons, IH. apply processCall_agents.
Qed.



(** The three counters after the loop: every call was counted once, and
    the error counter grew by the number of failed calls. *)
Lemma processCalls_counters (cs : list Retell.call) :
  forall (w : world) (k : Dashboard.counters),
    let k' := snd (Dashboard.processCalls fault clock cs w k) in
    Dashboard.errorCount k'
    = Dashboard.errorCount k + Z.of_nat (failures (outcomes fault clock cs w))
    /\ Dashboard.syncedCount k' + Dashboard.updatedCount k'
       + Dashboard.errorCount k'
       = Dashboard.syncedCount k + Dashboard.updatedCount k
         + Dashboard.errorCount k + Z.of_nat (length cs).
Proof.
  induction cs as [|c cs IH]; intros w k.
  - simpl. unfold failures. simpl. lia.
  - cbn zeta. rewrite processCalls_cons.
    destruct (IH (fst (Dashboard.processCall fault clock w c))
                (Dashboard.count (snd (Dashboard.processCall fault clock w c)) k))
      as [He Hs].
    cbn zeta in He, Hs. simpl outcomes. unfold failures in *.
    simpl List.filter.
    set (k' := snd (Dashboard.processCalls fault clock cs _ _)) in *.
    clearbody k'.
    destruct (snd (Dashboard.processCall fault clock w c));
      simpl in *; lia.
Qed.


(** *** What the later calls of the loop leave of a written row *)







(** *** The handler as the two loops in sequence *)

Lemma fetchAgentMap_world (agents : result (option (list Retell.agent)))
  (w : world) :
  database (fst (Dashboard.fetchAgentMap agents w)) = database w
  /\ ops (fst (Dashboard.fetchAgentMap agents w)) = ops w
  /\ log_extends w (fst (Dashboard.fetchAgentMap agents w)).
Proof.
  unfold Dashboard.fetchAgentMap.
  destruct agents as [[[|a rest]|]|e]; simpl; repeat split;
    eexists; simpl; rewrite <- app_assoc; reflexivity.
Qed.

(** For a valid body and a non-empty array of fetched calls, the handler
    runs the first loop over the distinct agent identifiers of the
    filtered calls, then the second loop over the filtered calls, and
    reports the counters of the second loop. Up to the first loop the
    database is untouched and no store operation has been issued. *)
Lemma syncCalls_phases
  (getAllCallsInRange : Z -> Z -> option (result (list Retell.call)))
  (now : Z) (body : Joi.sync_body) (value : Joi.sync_value)
  (agents : result (option (list Retell.agent)))
  (c0 : Retell.call) (cs : list Retell.call) (w : world) :
  Joi.syncCallsSchema body = inr value ->
  getAllCallsInRange (now - Joi.days value * 86400000) now
  = Some (Ok (c0 :: cs)) ->
  let filtered := Dashboard.filterCalls (Joi.agentId value) (c0 :: cs) in
  let ids := Dashboard.uniqueIds (map Retell.agent_id filtered) in
  exists agentMap w0 w' resp,
    database w0 = database w
    /\ ops w0 = ops w
    /\ let w1 := Dashboard.ensureAgents fault clock agentMap ids w0 in
       let run := Dashboard.processCalls fault clock filtered w1 no_counts in
       Dashboard.syncCalls fault clock getAllCallsInRange now body agents w
       = Some (w', Ok resp)
       /\ database w' = database (fst run)
       /\ log_extends (fst run) w'
       /\ res_status resp = StNum 200
       /\ jget "success" (res_body resp) = Some (JBool true)
       /\ jget "callsSynced" (res_body resp)
          = Some (JNum (Dashboard.syncedCount (snd run)))
       /\ jget "callsUpdated" (res_body resp)
          = Some (JNum (Dashboard.updatedCount (snd run)))
       /\ jget "errors" (res_body resp)
          = Some (JNum (Dashboard.errorCount (snd run))).
Proof.
  intros Hv Hfetch filtered ids. unfold Dashboard.syncCalls. rewrite Hv.
  set (w' := logger info "Starting call sync" _ w).
  destruct (fetchAgentMap_world agents w') as (Hdb & Hops & _).
  destruct (Dashboard.fetchAgentMap agents w') as [wa agentMap].
  simpl in Hdb, Hops. rewrite Hfetch.
  exists agentMap, (logger info "Creating/updating agents"
                      [("agentCount", JNum (Z.of_nat (length ids)))] wa).
  cbn zeta. simpl mbind. fold filtered. fold ids. fold no_counts.
  destruct (Dashboard.processCalls fault clock filtered _ no_counts)
    as [w2 k].
  eexists _, _.
  split; [simpl; rewrite Hdb; reflexivity|].
  split; [simpl; rewrite Hops; reflexivity|].
  split; [reflexivity|]. simpl.
  split; [reflexivity|]. split; [apply log_extends_logger|].
  repeat split.
Qed.

End SyncProperties.

(** C1, as the code has it. A call the sync routine stores (the second
    loop runs [processCall] on each filtered call) gets the provider's
    own [duration_ms] copied unchanged and, as [duration_seconds], that
    duration divided by 1000 and rounded down; the two timestamps are
    copied as well, and nothing compares them with the duration. So the
    stored duration is end minus start exactly when the provider's
    [duration_ms] is. *)
Theorem sync_stored_duration (fault : nat -> option js_error)
  (clock : nat -> Z) (w : Store.world) (c : Retell.call) :
  snd (Dashboard.processCall fault clock w c) <> Dashboard.Failed ->
  exists r,
    Store.find_call (Retell.call_id c)
      (Store.calls (Store.database (fst (Dashboard.processCall fault clock w c))))
    = Some r
    /\ Store.Call.duration_ms (Store.Call.fields r) = Retell.duration_ms c
    /\ Store.Call.duration_seconds (Store.Call.fields r)
       = (fun ms => ms / 1000) <$> Retell.duration_ms c
    /\ Retell.start_timestamp c
       = Some (Store.Call.start_timestamp (Store.Call.fields r))
    /\ Retell.end_timestamp c
       = Some (Store.Call.end_timestamp (Store.Call.fields r))
    /\ (Store.Call.duration_ms (Store.Call.fields r)
        = Some (Store.Call.end_timestamp (Store.Call.fields r)
                - Store.Call.start_timestamp (Store.Call.fields r))
        <-> Retell.duration_ms c
            = Some (Store.Call.end_timestamp (Store.Call.fields r)
                    - Store.Call.start_timestamp (Store.Call.fields r))).
Proof.
  intros Hok.
  destruct (processCall_written fault clock w c Hok)
    as (d & r & Hd & _ & _ & Hfind & Hr).
  destruct (callData_ok c d Hd) as (_ & _ & Hs & He & Hms & Hsec).
  exists r. subst d. rewrite Hms, Hsec. repeat split; auto.
Qed.

Lemma sync_stored_duration_witness :
  let c := provider_call "c9" "agent_1" 1000 6000 (Some 5000) in
  exists r,
    Store.find_call "c9"
      (Store.calls (Store.database
                      (fst (Dashboard.processCall no_fault sample_clock
                              history_world c)))) = Some r
    /\ Store.Call.duration_ms (Store.Call.fields r) = Some 5000
    /\ Store.Call.duration_seconds (Store.Call.fields r) = Some 5.
Proof.
  intros c.
  destruct (sync_stored_duration no_fault sample_clock history_world c)
    as (r & Hfind & Hms & Hsec & _).
  - vm_compute. discriminate.
  - exists r. split; [exact Hfind|]. split; [exact Hms|exact Hsec].
Defined.

(** C1 as the specification words it fails: the provider reports a call
    from 1000 to 6000 with [duration_ms] 1000; the sync stores duration
    1000 (one second), while end minus start is 5000. *)
Lemma sync_duration_not_end_minus_start :
  let c := provider_call "c9" "agent_1" 1000 6000 (Some 1000) in
  let run :=
    Dashboard.syncCalls no_fault sample_clock (fun _ _ => Some (Ok [c]))
      1700000000000 (sync_body Joi.NumAbsent Joi.StrAbsent) (Ok None)
      empty_world in
  (fun out =>
     map (fun r => (Store.Call.call_id (Store.Call.fields r),
                    Store.Call.duration_ms (Store.Call.fields r),
                    Store.Call.duration_seconds (Store.Call.fields r),
                    Store.Call.end_timestamp (Store.Call.fields r)
                    - Store.Call.start_timestamp (Store.Call.fields r)))
       (Store.calls (Store.database (fst out)))) <$> run
  = Some [("c9", Some 1000, Some 1, 5000)].
Proof. vm_compute. reflexivity. Qed.

(** C2, as the code has it. When the provider has no call in the window
    (its first page is empty), the endpoint answers 200 with
    [success: true] and [callsSynced: 0] and leaves the store alone; the
    body of this early answer has no [callsUpdated] and no [errors] key. *)
Theorem sync_zero_records (fault : nat -> option js_error) (clock : nat -> Z)
  (NODE_ENV : option string)
  (post_list_calls : Retell.list_calls_body -> result Retell.list_calls_data)
  (fuel : nat) (now : Z) (body : Joi.sync_body) (value : Joi.sync_value)
  (agents : result (option (list Retell.agent))) (w : Store.world) :
  Joi.syncCallsSchema body = inr value ->
  fetchPage post_list_calls 100
    ((now - Joi.days value * 86400000) / 1000) (now / 1000) None = Ok [] ->
  (0 < fuel)%nat ->
  exists w' resp,
    Dashboard.POST_sync_calls fault clock NODE_ENV post_list_calls fuel now
      body agents w = Some (w', resp)
    /\ Store.database w' = Store.database w
    /\ Store.ops w' = Store.ops w
    /\ res_status resp = StNum 200
    /\ jget "success" (res_body resp) = Some (JBool true)
    /\ jget "callsSynced" (res_body resp) = Some (JNum 0)
    /\ jget "callsUpdated" (res_body resp) = None
    /\ jget "errors" (res_body resp) = None.
Proof.
  intros Hv Hpage Hfuel.
  unfold Dashboard.POST_sync_calls, Dashboard.syncCalls. rewrite Hv.
  set (w0 := Store.logger Store.info "Starting call sync" _ w).
  destruct (fetchAgentMap_world agents w0) as (Hdb & Hops & _).
  destruct (Dashboard.fetchAgentMap agents w0) as [wa agentMap].
  simpl in Hdb, Hops.
  unfold Retell.getAllCallsInRange.
  rewrite (drain_pages post_list_calls 100 _ _ [] None [] [] fuel Hpage);
    [|intros p Hp; apply elem_of_nil in Hp; contradiction
     |reflexivity|simpl; lia].
  simpl. eexists _, _. split; [reflexivity|].
  simpl. rewrite Hdb, Hops. repeat split.
Qed.

Lemma sync_zero_records_witness :
  exists w' resp,
    Dashboard.POST_sync_calls no_fault sample_clock None no_calls 1
      1700000000000 (sync_body (Joi.Int 7) Joi.StrAbsent) (Ok None)
      history_world = Some (w', resp)
    /\ Store.database w' = Store.database history_world
    /\ jget "callsSynced" (res_body resp) = Some (JNum 0).
Proof.
  destruct (sync_zero_records no_fault sample_clock None no_calls 1
              1700000000000 (sync_body (Joi.Int 7) Joi.StrAbsent)
              {| Joi.days := 7; Joi.agentId := None |} (Ok None) history_world
              eq_refl eq_refl ltac:(lia))
    as (w' & resp & Hrun & Hdb & _ & _ & _ & Hsynced & _).
  exists w', resp. split; [exact Hrun|]. split; [exact Hdb|exact Hsynced].
Defined.

(** C2 as the specification words it fails: [POST /sync-calls {days: 7}]
    with a provider that returns no record answers success and
    [callsSynced: 0], but the counters [callsUpdated] and [errors] are
    not in the body. *)
Lemma sync_zero_records_counters_absent :
  exists w' resp,
    Dashboard.POST_sync_calls no_fault sample_clock None no_calls 1
      1700000000000 (sync_body (Joi.Int 7) Joi.StrAbsent) (Ok None)
      empty_world = Some (w', resp)
    /\ jget "success" (res_body resp) = Some (JBool true)
    /\ jget "callsSynced" (res_body resp) = Some (JNum 0)
    /\ jget "callsUpdated" (res_body resp) = None
    /\ jget "errors" (res_body resp) = None.
Proof. eexists _, _. vm_compute. repeat split. Qed.

(** C3. In every run of the sync routine that has calls to store, the
    first loop issues one agent upsert for each distinct agent identifier
    of the filtered calls and ends before any call row is written; the
    second loop never changes the agents table; and every call the
    second loop writes has, at the moment of the write, a row for its
    agent in the store. When none of the agent upserts is rejected, every
    filtered call finds its agent stored. *)
Theorem sync_agents_before_calls (fault : nat -> option js_error)
  (clock : nat -> Z)
  (getAllCallsInRange : Z -> Z -> option (result (list Retell.call)))
  (now : Z) (body : Joi.sync_body)
  (value : Joi.sync_value) (agents : result (option (list Retell.agent)))
  (c0 : Retell.call) (cs : list Retell.call) (w : Store.world) :
  Joi.syncCallsSchema body = inr value ->
  getAllCallsInRange (now - Joi.days value * 86400000) now
  = Some (Ok (c0 :: cs)) ->
  let filtered := Dashboard.filterCalls (Joi.agentId value) (c0 :: cs) in
  let ids := Dashboard.uniqueIds (map Retell.agent_id filtered) in
  exists agentMap w0 w' resp,
    Store.database w0 = Store.database w
    /\ Store.ops w0 = Store.ops w
    /\ let w1 := Dashboard.ensureAgents fault clock agentMap ids w0 in
       Dashboard.syncCalls fault clock getAllCallsInRange now body agents w
       = Some (w', Ok resp)
       /\ Store.database w'
          = Store.database
              (fst (Dashboard.processCalls fault clock filtered w1 no_counts))
       /\ (forall c, c ∈ filtered -> Retell.agent_id c ∈ ids)
       /\ NoDup ids
       /\ Store.ops w1 = (Store.ops w + length ids)%nat
       /\ Store.calls (Store.database w1) = Store.calls (Store.database w)
       /\ (forall pre c post, filtered = pre ++ c :: post ->
             let w_pre :=
               fst (Dashboard.processCalls fault clock pre w1 no_counts) in
             Store.agents (Store.database w_pre)
             = Store.agents (Store.database w1)
             /\ (snd (Dashboard.processCall fault clock w_pre c)
                 <> Dashboard.Failed ->
                 is_Some (Store.agents (Store.database w_pre)
                          !! Retell.agent_id c)))
       /\ ((forall n, (Store.ops w <= n < Store.ops w + length ids)%nat ->
              fault n = None) ->
           forall c, c ∈ filtered ->
             is_Some (Store.agents (Store.database w1) !! Retell.agent_id c)).
Proof.
  intros Hv Hfetch filtered ids.
  destruct (syncCalls_phases fault clock getAllCallsInRange now body value
              agents c0 cs w Hv Hfetch)
    as (agentMap & w0 & w' & resp & Hdb & Hops & Hrun & Hdb' & _).
  exists agentMap, w0, w', resp. split; [exact Hdb|]. split; [exact Hops|].
  cbn zeta. split; [exact Hrun|]. split; [exact Hdb'|].
  split.
  { intros c Hc. apply uniqueIds_elem, list_elem_of_fmap.
    exists c. split; [reflexivity|exact Hc]. }
  split; [apply uniqueIds_NoDup|].
  split; [rewrite ensureAgents_ops, Hops; reflexivity|].
  split; [rewrite ensureAgents_calls, Hdb; reflexivity|].
  split.
  - intros pre c post _. split; [apply processCalls_agents|].
    intros Hok.
    destruct (processCall_written fault clock _ c Hok)
      as (_ & _ & _ & _ & Ha & _).
    exact Ha.
  - intros Hnofault c Hc. apply ensureAgents_upserts.
    + intros n Hn. apply Hnofault. rewrite Hops in Hn. exact Hn.
    + apply uniqueIds_elem, list_elem_of_fmap.
      exists c. split; [reflexivity|exact Hc].
Qed.

Lemma sync_agents_before_calls_witness :
  exists agentMap w0,
    let w1 :=
      Dashboard.ensureAgents no_fault sample_clock agentMap
        ["agent_1"; "agent_2"] w0 in
    Store.calls (Store.database w1) = []
    /\ is_Some (Store.agents (Store.database w1) !! "agent_2").
Proof.
  destruct (sync_agents_before_calls no_fault sample_clock fetched_two_calls
              1700000000000 (sync_body Joi.NumAbsent Joi.StrAbsent)
              {| Joi.days := 30; Joi.agentId := None |} (Ok None)
              (provider_call "c1" "agent_1" 1000 61000 (Some 60000))
              [provider_call "c2" "agent_2" 3000 33000 (Some 30000)]
              empty_world eq_refl eq_refl)
    as (agentMap & w0 & w' & resp & _ & _ & _ & _ & _ & _ & _ & Hcalls & _
        & Hall).
  exists agentMap, w0. split; [exact Hcalls|].
  apply (Hall (fun n _ => eq_refl)
           (provider_call "c2" "agent_2" 3000 33000 (Some 30000))).
  right. left.
Defined.



(** * Further properties of the code *)

(** ** The error handler *)

(** X1. Whatever the error and the environment, the body [errorHandler]
    sends has [error: true] and a message that is not empty; the stack
    is in the body exactly in development; and in production a response
    with status 500 never carries the message of the error, only the
    fixed text. *)
Theorem errorHandler_envelope (NODE_ENV : option string) (err : js_error) :
  let resp := ErrorHandler.errorHandler NODE_ENV err in
  jget "error" (res_body resp) = Some (JBool true)
  /\ (exists m, jget "message" (res_body resp) = Some (JStr m) /\ m <> ""
        /\ (NODE_ENV = Some "production" -> res_status resp = StNum 500 ->
            m = "Internal Server Error"))
  /\ jget "stack" (res_body resp)
     = (if ErrorHandler.env_is NODE_ENV "development"
        then Some (JStr (err_stack err)) else None).
Proof.
  unfold ErrorHandler.errorHandler.
  assert (forall s m, ErrorHandler.classify err = (s, m) -> m <> "") as Hne.
  { unfold ErrorHandler.classify, ErrorHandler.default_message.
    intros s m.
    repeat (destruct (String.eqb _ _); [intros [= <- <-]; discriminate|]).
    repeat (destruct (ErrorHandler.code_is _ _);
            [intros [= <- <-]; discriminate|]).
    intros [= <- <-]. unfold Js.truthy.
    destruct (String.eqb (err_message err) "") eqn:E; simpl; [discriminate|].
    intros Heq. rewrite Heq in E. discriminate. }
  destruct (ErrorHandler.classify err) as [s m] eqn:Hc.
  specialize (Hne s m eq_refl). simpl.
  split; [reflexivity|]. split.
  - eexists. split; [reflexivity|]. split.
    + destruct (ErrorHandler.env_is NODE_ENV "production"
                && ErrorHandler.is_500 s); [discriminate|exact Hne].
    + intros -> ->. reflexivity.
  - destruct (ErrorHandler.env_is NODE_ENV "development"); reflexivity.
Qed.

(** ** The admin gate *)

Lemma authMiddleware_verified
  (jwt_verify : string -> string -> option Auth.req_user)
  (env : Auth.auth_env) (h : Auth.request_headers) (apiKey : string)
  (u : Auth.req_user) :
  Auth.API_AUTH_KEY env = Some apiKey -> apiKey <> "" ->
  token_user jwt_verify env h = Some u ->
  Auth.authMiddleware jwt_verify env h = Auth.Next (Some u).
Proof.
  intros Hk Hne Hu.
  rewrite (authMiddleware_configured jwt_verify env h apiKey Hk Hne), Hu.
  unfold token_user in Hu.
  destruct (Auth.bearerToken_of h) as [t|] eqn:Ht; [|discriminate].
  destruct (Auth.JWT_SECRET env); [|discriminate].
  destruct (Js.truthy t) eqn:Htt; [|discriminate].
  simpl. rewrite Htt. reflexivity.
Qed.

Lemma authMiddleware_by_key
  (jwt_verify : string -> string -> option Auth.req_user)
  (env : Auth.auth_env) (h : Auth.request_headers) (apiKey : string) :
  Auth.API_AUTH_KEY env = Some apiKey -> apiKey <> "" ->
  token_user jwt_verify env h = None -> presents_key h apiKey ->
  Auth.authMiddleware jwt_verify env h = Auth.Next None.
Proof.
  intros Hk Hne Hn Hp.
  rewrite (authMiddleware_configured jwt_verify env h apiKey Hk Hne), Hn.
  apply (or_else_key (Auth.x_api_key h) (Auth.bearerToken_of h) apiKey Hne)
    in Hp.
  assert (negb (Js.truthy_opt (Auth.bearerToken_of h))
          && negb (Js.truthy_opt (Auth.x_api_key h)) = false) as ->.
  { unfold Js.or_else in Hp.
    destruct (Js.truthy_opt (Auth.x_api_key h)); [apply andb_false_r|].
    rewrite Hp. simpl. rewrite (truthy_nonempty _ Hne). reflexivity. }
  unfold Auth.apiKeyAuth. rewrite Hp, String.eqb_refl. reflexivity.
Qed.

(** X2. With the static key configured, behind [authMiddleware] and
    [adminMiddleware] a request reaches the user-management handlers
    exactly when its bearer token verifies and carries a user identifier
    and the role ADMIN. A request let in by the static key alone is
    stopped with 401, and a verified token with another role
    (SUPERADMIN included) with 403. *)
Theorem admin_chain_gate
  (jwt_verify : string -> string -> option Auth.req_user)
  (env : Auth.auth_env) (h : Auth.request_headers) (apiKey : string) :
  Auth.API_AUTH_KEY env = Some apiKey -> apiKey <> "" ->
  (forall user,
     Auth.admin_chain jwt_verify env h = Auth.Next user <->
     exists u, user = Some u
               /\ token_user jwt_verify env h = Some u
               /\ Js.truthy_opt (Auth.user_id u) = true
               /\ Auth.user_role u = Some "ADMIN")
  /\ (token_user jwt_verify env h = None -> presents_key h apiKey ->
      exists e,
        Auth.admin_chain jwt_verify env h = Auth.NextError e
        /\ forall NODE_ENV,
             res_status (ErrorHandler.errorHandler NODE_ENV e) = StNum 401)
  /\ (forall u, token_user jwt_verify env h = Some u ->
        Js.truthy_opt (Auth.user_id u) = true ->
        Auth.user_role u <> Some "ADMIN" ->
        exists e,
          Auth.admin_chain jwt_verify env h = Auth.NextError e
          /\ forall NODE_ENV,
               res_status (ErrorHandler.errorHandler NODE_ENV e) = StNum 403).
Proof.
  intros Hk Hne.
  assert (forall u, Auth.role_is_admin u = true <->
                    Auth.user_role u = Some "ADMIN") as Hrole.
  { intros u. unfold Auth.role_is_admin.
    destruct (Auth.user_role u) as [r|]; [|split; discriminate].
    rewrite String.eqb_eq. split; congruence. }
  assert (token_user jwt_verify env h = None ->
          forall user, Auth.admin_chain jwt_verify env h <> Auth.Next user)
    as Hnone.
  { intros Hn user. unfold Auth.admin_chain.
    rewrite (authMiddleware_configured jwt_verify env h apiKey Hk Hne), Hn.
    destruct (negb _ && negb _); [discriminate|].
    unfold Auth.apiKeyAuth.
    destruct (Js.or_else _ _) as [k|]; [|discriminate].
    destruct (String.eqb k apiKey); discriminate. }
  assert (forall u, token_user jwt_verify env h = Some u ->
                    Auth.admin_chain jwt_verify env h
                    = Auth.adminMiddleware (Some u)) as Hsome.
  { intros u Hu. unfold Auth.admin_chain.
    rewrite (authMiddleware_verified jwt_verify env h apiKey u Hk Hne Hu).
    reflexivity. }
  split; [|split].
  - intros user. split.
    + intros Hnext.
      destruct (token_user jwt_verify env h) as [u|] eqn:Hu;
        [|exfalso; exact (Hnone eq_refl user Hnext)].
      rewrite (Hsome u eq_refl) in Hnext. unfold Auth.adminMiddleware in Hnext.
      destruct (Js.truthy_opt (Auth.user_id u)) eqn:Hid; [|discriminate].
      destruct (Auth.role_is_admin u) eqn:Hr; [|discriminate].
      simpl in Hnext. injection Hnext as <-.
      exists u. repeat split; auto. apply Hrole, Hr.
    + intros (u & -> & Hu & Hid & Hr).
      rewrite (Hsome u Hu). unfold Auth.adminMiddleware. rewrite Hid.
      apply Hrole in Hr. rewrite Hr. reflexivity.
  - intros Hn Hp. unfold Auth.admin_chain.
    rewrite (authMiddleware_by_key jwt_verify env h apiKey Hk Hne Hn Hp).
    simpl. eexists. split; [reflexivity|].
    intros. apply unauthorized_is_401.
  - intros u Hu Hid Hr. rewrite (Hsome u Hu). unfold Auth.adminMiddleware.
    rewrite Hid.
    destruct (Auth.role_is_admin u) eqn:E; [apply Hrole in E; contradiction|].
    simpl. eexists. split; [reflexivity|]. intros NODE_ENV.
    unfold ErrorHandler.errorHandler. simpl.
    destruct (ErrorHandler.env_is NODE_ENV "production"); reflexivity.
Qed.

Lemma admin_chain_gate_witness :
  Auth.admin_chain sample_verify sample_env
    (headers (Some "Bearer admin-token") None)
  = Auth.Next (Some {| Auth.user_id := Some "u2";
                       Auth.user_role := Some "ADMIN" |})
  /\ exists e,
       Auth.admin_chain sample_verify sample_env
         (headers (Some "Bearer root-token") None) = Auth.NextError e
       /\ res_status (ErrorHandler.errorHandler None e) = StNum 403.
Proof.
  split.
  - destruct (admin_chain_gate sample_verify sample_env
                (headers (Some "Bearer admin-token") None) "k3y"
                eq_refl ltac:(discriminate)) as (Hin & _).
    apply Hin. eexists. repeat split; reflexivity.
  - destruct (admin_chain_gate sample_verify sample_env
                (headers (Some "Bearer root-token") None) "k3y"
                eq_refl ltac:(discriminate)) as (_ & _ & Hrole).
    destruct (Hrole {| Auth.user_id := Some "u1";
                       Auth.user_role := Some "SUPERADMIN" |}
                eq_refl eq_refl ltac:(discriminate)) as (e & He & Hs).
    exists e. split; [exact He|apply Hs].
Defined.

(** ** The optional auth middleware *)

(** X3. With the static key configured, [optionalAuthMiddleware] marks
    the request authenticated exactly when the key is presented as the
    bearer token or, with no bearer token, in the static key header; a
    verifying JWT does not count. With no key configured it leaves the
    flag unset. *)
Theorem optionalAuth_flag (env : Auth.auth_env) (h : Auth.request_headers) :
  (forall apiKey, Auth.API_AUTH_KEY env = Some apiKey -> apiKey <> "" ->
     (Auth.optionalAuthMiddleware env h = Some true <->
      Auth.bearerToken_of h = Some apiKey
      \/ (Js.truthy_opt (Auth.bearerToken_of h) = false
          /\ Auth.x_api_key h = Some apiKey))
     /\ (Auth.optionalAuthMiddleware env h = Some true
         \/ Auth.optionalAuthMiddleware env h = Some false))
  /\ (Js.truthy_opt (Auth.API_AUTH_KEY env) = false ->
      Auth.optionalAuthMiddleware env h = None).
Proof.
  split.
  - intros apiKey Hk Hne. unfold Auth.optionalAuthMiddleware. rewrite Hk.
    simpl. rewrite (truthy_nonempty _ Hne). simpl.
    pose proof (or_else_key (Auth.bearerToken_of h) (Auth.x_api_key h)
                  apiKey Hne) as Hor.
    destruct (Js.or_else (Auth.bearerToken_of h) (Auth.x_api_key h))
      as [k|] eqn:Hp.
    + destruct (String.eqb k apiKey) eqn:E.
      * apply String.eqb_eq in E. subst k. rewrite (truthy_nonempty _ Hne).
        simpl. split; [|left; reflexivity].
        split; [intros _; apply Hor; reflexivity|reflexivity].
      * rewrite andb_false_r. split; [|right; reflexivity].
        split; [discriminate|].
        intros H. apply Hor in H. injection H as ->.
        rewrite String.eqb_refl in E. discriminate.
    + split; [|right; reflexivity].
      split; [discriminate|]. intros H. apply Hor in H. discriminate.
  - intros Hk. unfold Auth.optionalAuthMiddleware. rewrite Hk. reflexivity.
Qed.

Lemma optionalAuth_flag_witness :
  Auth.optionalAuthMiddleware sample_env (headers (Some "Bearer k3y") None)
  = Some true.
Proof.
  destruct (optionalAuth_flag sample_env (headers (Some "Bearer k3y") None))
    as [Hconf _].
  destruct (Hconf "k3y" eq_refl ltac:(discriminate)) as [Hiff _].
  apply Hiff. left. reflexivity.
Defined.

(** X4. The two middlewares read the credentials in opposite orders. A
    request with the right static key header and a bearer token that is
    neither a verifying JWT nor the key is let through by
    [authMiddleware] (header first) but marked unauthenticated by
    [optionalAuthMiddleware] (bearer token first). *)
Theorem auth_precedence_differs
  (jwt_verify : string -> string -> option Auth.req_user)
  (env : Auth.auth_env) (h : Auth.request_headers) (apiKey token : string) :
  Auth.API_AUTH_KEY env = Some apiKey -> apiKey <> "" ->
  Auth.x_api_key h = Some apiKey ->
  Auth.bearerToken_of h = Some token -> token <> "" -> token <> apiKey ->
  token_user jwt_verify env h = None ->
  Auth.authMiddleware jwt_verify env h = Auth.Next None
  /\ Auth.optionalAuthMiddleware env h = Some false.
Proof.
  intros Hk Hne Hx Ht Htne Hdiff Hn. split.
  - apply (authMiddleware_by_key jwt_verify env h apiKey Hk Hne Hn).
    left. exact Hx.
  - unfold Auth.optionalAuthMiddleware. rewrite Hk. simpl.
    rewrite (truthy_nonempty _ Hne). simpl. rewrite Ht.
    unfold Js.or_else. simpl. rewrite (truthy_nonempty _ Htne). simpl.
    destruct (String.eqb token apiKey) eqn:E;
      [|rewrite andb_false_r; reflexivity].
    apply String.eqb_eq in E. contradiction.
Qed.

Lemma auth_precedence_differs_witness :
  Auth.authMiddleware sample_verify sample_env
    (headers (Some "Bearer stale-token") (Some "k3y")) = Auth.Next None
  /\ Auth.optionalAuthMiddleware sample_env
       (headers (Some "Bearer stale-token") (Some "k3y")) = Some false.
Proof.
  apply (auth_precedence_differs sample_verify sample_env
           (headers (Some "Bearer stale-token") (Some "k3y"))
           "k3y" "stale-token");
    first [reflexivity | discriminate].
Defined.

(** ** More on the drain of the provider's pages *)

Lemma drain_pages_then
  (post_list_calls : Retell.list_calls_body -> result Retell.list_calls_data)
  (lim startTs endTs : Z) (ps : list (list Retell.call)) :
  forall (cursor : option string) (acc : list Retell.call) (fuel : nat)
         (e : js_error),
    pages_then post_list_calls lim startTs endTs cursor ps (Throw e) ->
    (forall p, p ∈ ps -> full_page lim p) ->
    (length ps < fuel)%nat ->
    Retell.drain post_list_calls fuel lim startTs endTs cursor acc =
    Some (map (page_options lim startTs endTs)
              (cursor :: map (fun p => Retell.call_id <$> last p) ps),
          Throw e).
Proof.
  induction ps as [|p ps IH]; intros cursor acc fuel e Hpages Hfull Hfuel.
  - destruct fuel as [|fuel]; [simpl in Hfuel; lia|].
    simpl in Hpages. unfold fetchPage, page_options in Hpages. simpl.
    rewrite Hpages. reflexivity.
  - destruct fuel as [|fuel]; [simpl in Hfuel; lia|].
    destruct Hpages as [Hp Hrest]. unfold fetchPage, page_options in Hp.
    simpl. rewrite Hp.
    destruct (Hfull p) as [Hlen Hpos]; [left|].
    apply <- Z.eqb_eq in Hlen. apply <- Z.ltb_lt in Hpos.
    rewrite Hlen, Hpos. simpl.
    rewrite (IH (Retell.call_id <$> last p) (acc ++ p) fuel e Hrest).
    + reflexivity.
    + intros q Hq. apply Hfull. right. exact Hq.
    + simpl in Hfuel. lia.
Qed.

(** X5. A failure of any page fetch aborts the whole drain: when the
    provider answers full pages [ps] and the request after them throws,
    [getAllCallsInRange] ends with that exception and none of the
    records already fetched; and an HTTP failure reaches the caller as
    an [Error] whose message is the cause's, prefixed. *)
Theorem getAllCallsInRange_aborts
  (post_list_calls : Retell.list_calls_body -> result Retell.list_calls_data)
  (startDate endDate lim : Z) (ps : list (list Retell.call))
  (e : js_error) (fuel : nat) :
  pages_then post_list_calls lim (startDate / 1000) (endDate / 1000)
    None ps (Throw e) ->
  (forall p, p ∈ ps -> full_page lim p) ->
  (length ps < fuel)%nat ->
  Retell.getAllCallsInRange post_list_calls fuel startDate endDate lim =
  Some (map (page_options lim (startDate / 1000) (endDate / 1000))
            (cursors ps), Throw e)
  /\ (forall cause,
        post_list_calls
          (Retell.requestBody
             (page_options lim (startDate / 1000) (endDate / 1000)
                (List.last (cursors ps) None))) = Throw cause ->
        e = ErrorHandler.PlainError
              ("Failed to fetch calls: " +:+ err_message cause)).
Proof.
  intros Hpages Hfull Hfuel. split.
  - apply (drain_pages_then post_list_calls lim _ _ ps None [] fuel e
             Hpages Hfull Hfuel).
  - intros cause Hcause. unfold cursors.
    assert (forall cursor,
              pages_then post_list_calls lim (startDate / 1000)
                (endDate / 1000) cursor ps (Throw e) ->
              post_list_calls
                (Retell.requestBody
                   (page_options lim (startDate / 1000) (endDate / 1000)
                      (List.last
                         (cursor :: map (fun p => Retell.call_id <$> last p) ps)
                         None))) = Throw cause ->
              e = ErrorHandler.PlainError
                    ("Failed to fetch calls: " +:+ err_message cause)) as Hgen.
    { clear Hpages Hcause Hfull Hfuel.
      induction ps as [|p ps IH]; intros cursor Hpages Hcause.
      - simpl in Hpages, Hcause. unfold fetchPage, Retell.getCalls in Hpages.
        rewrite Hcause in Hpages. simpl in Hpages. congruence.
      - destruct Hpages as [_ Hrest]. apply (IH _ Hrest).
        simpl in Hcause. simpl. exact Hcause. }
    apply (Hgen None Hpages Hcause).
Qed.

Lemma getAllCallsInRange_aborts_witness :
  Retell.getAllCallsInRange second_page_fails 5 0 100000 2 =
  Some ([page_options 2 0 100 None; page_options 2 0 100 (Some "c2")],
        Throw (ErrorHandler.PlainError
                 "Failed to fetch calls: socket hang up")).
Proof.
  destruct (getAllCallsInRange_aborts second_page_fails 0 100000 2
              [[provider_call "c1" "agent_1" 1000 61000 (Some 60000);
                provider_call "c2" "agent_1" 3000 33000 (Some 30000)]]
              (ErrorHandler.PlainError "Failed to fetch calls: socket hang up")
              5) as [Hrun _].
  - split; reflexivity.
  - intros p Hp. apply list_elem_of_singleton in Hp. subst p.
    split; simpl; lia.
  - simpl. lia.
  - exact Hrun.
Defined.

(** X6. The drain has no bound of its own: against a provider that
    answers every request with a full page, [getAllCallsInRange] does not
    end, whatever number of pages it is allowed. *)
Theorem getAllCallsInRange_unbounded
  (post_list_calls : Retell.list_calls_body -> result Retell.list_calls_data)
  (startDate endDate lim : Z) :
  (forall cursor, exists p,
     fetchPage post_list_calls lim (startDate / 1000) (endDate / 1000) cursor
     = Ok p /\ full_page lim p) ->
  forall fuel,
    Retell.getAllCallsInRange post_list_calls fuel startDate endDate lim
    = None.
Proof.
  intros Hfull fuel. unfold Retell.getAllCallsInRange.
  generalize (@nil Retell.call) as acc. generalize (@None string) as cursor.
  induction fuel as [|fuel IH]; intros cursor acc; [reflexivity|].
  destruct (Hfull cursor) as (p & Hp & Hlen & Hpos).
  unfold fetchPage, page_options in Hp. simpl. rewrite Hp.
  apply <- Z.eqb_eq in Hlen. apply <- Z.ltb_lt in Hpos.
  rewrite Hlen, Hpos. simpl. rewrite IH. reflexivity.
Qed.

Lemma getAllCallsInRange_unbounded_witness :
  Retell.getAllCallsInRange same_page_forever 1000 0 100000 1 = None.
Proof.
  apply (getAllCallsInRange_unbounded same_page_forever 0 100000 1).
  intros cursor. eexists. split; [reflexivity|]. split; simpl; lia.
Defined.

(** X7. With a page limit of 0 the request still asks the provider for
    100 records ([limit || 100]), and the loop stops after that single
    request whatever it returns: the result is that one page, or its
    exception. *)
Theorem getAllCallsInRange_limit_zero
  (post_list_calls : Retell.list_calls_body -> result Retell.list_calls_data)
  (startDate endDate : Z) (fuel : nat) :
  Retell.getAllCallsInRange post_list_calls (S fuel) startDate endDate 0 =
  Some ([page_options 0 (startDate / 1000) (endDate / 1000) None],
        fetchPage post_list_calls 0 (startDate / 1000) (endDate / 1000) None)
  /\ Retell.body_limit
       (Retell.requestBody
          (page_options 0 (startDate / 1000) (endDate / 1000) None)) = 100.
Proof.
  split; [|reflexivity].
  unfold Retell.getAllCallsInRange, fetchPage, page_options. simpl.
  destruct (Retell.getCalls post_list_calls _ ≫= _) as [calls|e];
    [|reflexivity].
  destruct (Z.of_nat (length calls) =? 0) eqn:E; [|reflexivity].
  apply Z.eqb_eq in E. replace (0 <? Z.of_nat (length calls)) with false
    by (symmetry; apply Z.ltb_ge; lia).
  reflexivity.
Qed.

(** ** More on the call sync *)

Section SyncInvariants.

Import Store.

Variable fault : nat -> option js_error.
Variable clock : nat -> Z.

Lemma ensureAgents_preserves (P : db -> Prop)
  (m : gmap string Dashboard.agent_info) :
  (forall w id, P (database w) ->
     P (database (Dashboard.ensureAgent fault clock m w id))) ->
  forall ids w, P (database w) ->
    P (database (Dashboard.ensureAgents fault clock m ids w)).
Proof.
  intros Hstep ids. unfold Dashboard.ensureAgents.
  induction ids as [|id ids IH]; intros w Hw; simpl; [exact Hw|].
  apply IH, Hstep, Hw.
Qed.

Lemma processCalls_preserves (P : db -> Prop) :
  (forall w c, P (database w) ->
     P (database (fst (Dashboard.processCall fault clock w c)))) ->
  forall cs w k, P (database w) ->
    P (database (fst (Dashboard.processCalls fault clock cs w k))).
Proof.
  intros Hstep cs.
  induction cs as [|c cs IH]; intros w k Hw; [exact Hw|].
  rewrite processCalls_cons. apply IH, Hstep, Hw.
Qed.

(** A property of the database that each agent upsert of the first loop
    and each call of the second loop keeps is kept by the handler, in
    every run: whatever the body, the provider and the store do. *)
Lemma syncCalls_preserves (P : db -> Prop)
  (getAllCallsInRange : Z -> Z -> option (result (list Retell.call)))
  (now : Z) (body : Joi.sync_body)
  (agents : result (option (list Retell.agent)))
  (w w' : world) (r : result http_response) :
  (forall m w id, P (database w) ->
     P (database (Dashboard.ensureAgent fault clock m w id))) ->
  (forall w c, P (database w) ->
     P (database (fst (Dashboard.processCall fault clock w c)))) ->
  Dashboard.syncCalls fault clock getAllCallsInRange now body agents w
  = Some (w', r) ->
  P (database w) -> P (database w').
Proof.
  intros Hagent Hcall. unfold Dashboard.syncCalls.
  destruct (Joi.syncCallsSchema body) as [m|value]; [congruence|].
  set (w0 := logger info "Starting call sync" _ w).
  destruct (fetchAgentMap_world agents w0) as (Hdb & _ & _).
  destruct (Dashboard.fetchAgentMap agents w0) as [wa agentMap].
  simpl in Hdb.
  destruct (getAllCallsInRange _ _) as [fetched|]; [|discriminate].
  simpl mbind. intros Hrun Hw.
  assert (P (database wa)) as Hwa by (rewrite Hdb; exact Hw).
  destruct fetched as [[|c cs]|e].
  - injection Hrun as <- _. exact Hwa.
  - set (filtered := Dashboard.filterCalls _ _) in Hrun.
    set (ids := Dashboard.uniqueIds _) in Hrun.
    set (w1 := Dashboard.ensureAgents fault clock agentMap ids _) in Hrun.
    assert (P (database w1)) as Hw1
      by (apply ensureAgents_preserves; [apply Hagent|exact Hwa]).
    pose proof (processCalls_preserves P Hcall filtered w1 no_counts Hw1)
      as Hw2.
    unfold no_counts in Hw2.
    destruct (Dashboard.processCalls fault clock filtered w1 _) as [w2 k].
    injection Hrun as <- _. exact Hw2.
  - injection Hrun as <- _. exact Hwa.
Qed.

(** *** What one agent upsert and one call keep *)

Lemma ensureAgent_kept (m : gmap string Dashboard.agent_info) (w : world)
  (id : string) :
  agents_kept (database w)
    (database (Dashboard.ensureAgent fault clock m w id)).
Proof.
  intros x a Ha. unfold Dashboard.ensureAgent, agent_upsert.
  destruct (fault (ops w)); [exists a; auto|]. simpl.
  destruct (decide (id = x)) as [->|Hne].
  - rewrite lookup_insert_eq, Ha. eexists. split; [reflexivity|].
    split; reflexivity.
  - rewrite lookup_insert_ne by exact Hne. exists a. auto.
Qed.

Lemma agents_kept_refl (d : db) : agents_kept d d.
Proof. intros id a Ha. exists a. auto. Qed.

Lemma agents_kept_trans (d1 d2 d3 : db) :
  agents_kept d1 d2 -> agents_kept d2 d3 -> agents_kept d1 d3.
Proof.
  intros H12 H23 id a Ha.
  destruct (H12 id a Ha) as (a2 & Ha2 & Hs2 & Hc2).
  destruct (H23 id a2 Ha2) as (a3 & Ha3 & Hs3 & Hc3).
  exists a3. split; [exact Ha3|]. split; congruence.
Qed.

Lemma agents_kept_same (d d' : db) :
  agents d' = agents d -> agents_kept d d'.
Proof. intros Heq id a Ha. exists a. rewrite Heq. auto. Qed.

Lemma find_call_None_ids (id : string) (rows : list Call.row) :
  find_call id rows = None ->
  id ∉ map (fun r => Call.call_id (Call.fields r)) rows.
Proof.
  unfold find_call. induction rows as [|x rows IH]; simpl.
  - intros _ H. apply elem_of_nil in H. exact H.
  - destruct (String.eqb (Call.call_id (Call.fields x)) id) eqn:E;
      [discriminate|].
    intros Hnone Hin. apply elem_of_cons in Hin as [->|Hin].
    + rewrite String.eqb_refl in E. discriminate.
    + exact (IH Hnone Hin).
Qed.

(** Replacing the row of [id] by a row [r] with that identifier: the
    identifiers stay as they are, and every row of the result is [r] or
    a row that was there. *)
Lemma replace_call_ids (id : string) (r : Call.row) (rows : list Call.row) :
  Call.call_id (Call.fields r) = id ->
  map (fun x => Call.call_id (Call.fields x))
    (default rows (replace_call id (fun _ => r) rows))
  = map (fun x => Call.call_id (Call.fields x)) rows
  /\ forall x, x ∈ default rows (replace_call id (fun _ => r) rows) ->
       x = r \/ x ∈ rows.
Proof.
  intros Hr. induction rows as [|y rows [IHids IHin]]; simpl.
  - split; [reflexivity|]. intros x Hx. right. exact Hx.
  - destruct (String.eqb (Call.call_id (Call.fields y)) id) eqn:E; simpl.
    + apply String.eqb_eq in E. split; [rewrite Hr, E; reflexivity|].
      intros x Hx. apply elem_of_cons in Hx as [->|Hx]; [left; reflexivity|].
      right. right. exact Hx.
    + destruct (replace_call id (fun _ => r) rows) as [rows'|]; simpl in *.
      * split; [rewrite IHids; reflexivity|].
        intros x Hx. apply elem_of_cons in Hx as [->|Hx]; [right; left|].
        destruct (IHin x Hx) as [->|Hin]; [left; reflexivity|].
        right. right. exact Hin.
      * split; [reflexivity|]. intros x Hx. right. exact Hx.
Qed.

Lemma processCall_unique_ids (w : world) (c : Retell.call) :
  NoDup (call_ids (database w)) ->
  NoDup (call_ids (database (fst (Dashboard.processCall fault clock w c)))).
Proof.
  unfold Dashboard.processCall, call_upsert, call_ids.
  destruct (Dashboard.callData c) as [d|]; [|auto].
  destruct (fault (ops w)); [auto|].
  destruct (agents (database w) !! Call.agent_id d); [|auto].
  destruct (find_call (Call.call_id d) (calls (database w))) as [old|] eqn:Hf;
    simpl; intros ND.
  - destruct (replace_call_ids (Call.call_id d)
                {| Call.fields := d; Call.created_at := Call.created_at old;
                   Call.updated_at := clock (ops w) |}
                (calls (database w)) eq_refl) as [-> _].
    exact ND.
  - rewrite map_app. simpl. apply NoDup_app. split; [exact ND|].
    split; [|apply NoDup_singleton].
    intros x Hx Hin. apply list_elem_of_singleton in Hin. subst x.
    exact (find_call_None_ids _ _ Hf Hx).
Qed.

Lemma processCall_fk (w : world) (c : Retell.call) :
  fk_ok (database w) ->
  fk_ok (database (fst (Dashboard.processCall fault clock w c))).
Proof.
  unfold Dashboard.processCall, call_upsert, fk_ok.
  destruct (Dashboard.callData c) as [d|]; [|auto].
  destruct (fault (ops w)); [auto|].
  destruct (agents (database w) !! Call.agent_id d) as [a|] eqn:Ha; [|auto].
  destruct (find_call (Call.call_id d) (calls (database w))) as [old|] eqn:Hf;
    simpl; intros Hfk r Hr.
  - destruct (replace_call_ids (Call.call_id d)
                {| Call.fields := d; Call.created_at := Call.created_at old;
                   Call.updated_at := clock (ops w) |}
                (calls (database w)) eq_refl) as [_ Hin].
    destruct (Hin r Hr) as [->|Hold]; [simpl; rewrite Ha; eauto|].
    apply Hfk, Hold.
  - apply elem_of_app in Hr as [Hold|Hnew]; [apply Hfk, Hold|].
    apply list_elem_of_singleton in Hnew. subst r. simpl. rewrite Ha. eauto.
Qed.

Lemma ensureAgent_fk (m : gmap string Dashboard.agent_info) (w : world)
  (id : string) :
  fk_ok (database w) ->
  fk_ok (database (Dashboard.ensureAgent fault clock m w id)).
Proof.
  intros Hfk r Hr. rewrite ensureAgent_calls in Hr.
  apply ensureAgent_keeps, Hfk, Hr.
Qed.

End SyncInvariants.

Lemma fetchPage_error_is_500
  (post_list_calls : Retell.list_calls_body -> result Retell.list_calls_data)
  (lim startTs endTs : Z) (cursor : option string) (e : js_error)
  (NODE_ENV : option string) :
  fetchPage post_list_calls lim startTs endTs cursor = Throw e ->
  res_status (ErrorHandler.errorHandler NODE_ENV e) = StNum 500
  /\ (NODE_ENV = Some "production" ->
      jget "message" (res_body (ErrorHandler.errorHandler NODE_ENV e))
      = Some (JStr "Internal Server Error")).
Proof.
  unfold fetchPage, Retell.getCalls.
  destruct (post_list_calls _) as [data|cause]; simpl.
  - destruct data as [calls|[calls|]|]; simpl; try discriminate.
    intros [= <-]. unfold ErrorHandler.errorHandler. simpl.
    split; [destruct (ErrorHandler.env_is NODE_ENV "production"); reflexivity|].
    intros ->. reflexivity.
  - intros [= <-]. unfold ErrorHandler.errorHandler. simpl.
    split; [destruct (ErrorHandler.env_is NODE_ENV "production"); reflexivity|].
    intros ->. reflexivity.
Qed.

(** X8. When a page fetch of the provider fails during a call sync, the
    endpoint answers 500 (in production with the fixed message only),
    the store is left as it was with no operation issued, and the
    failure is logged as "Call sync failed". *)
Theorem sync_provider_failure (fault : nat -> option js_error)
  (clock : nat -> Z) (NODE_ENV : option string)
  (post_list_calls : Retell.list_calls_body -> result Retell.list_calls_data)
  (fuel : nat) (now : Z) (body : Joi.sync_body) (value : Joi.sync_value)
  (agents : result (option (list Retell.agent))) (w : Store.world)
  (ps : list (list Retell.call)) (e : js_error) :
  Joi.syncCallsSchema body = inr value ->
  pages_then post_list_calls 100
    ((now - Joi.days value * 86400000) / 1000) (now / 1000) None ps
    (Throw e) ->
  (forall p, p ∈ ps -> full_page 100 p) ->
  (length ps < fuel)%nat ->
  exists w' resp,
    Dashboard.POST_sync_calls fault clock NODE_ENV post_list_calls fuel now
      body agents w = Some (w', resp)
    /\ Store.database w' = Store.database w
    /\ Store.ops w' = Store.ops w
    /\ res_status resp = StNum 500
    /\ (NODE_ENV = Some "production" ->
        jget "message" (res_body resp)
        = Some (JStr "Internal Server Error"))
    /\ exists entry,
         In entry (Store.log w')
         /\ Store.lvl entry = Store.error
         /\ Store.msg entry = "Call sync failed"
         /\ assoc "error" (Store.meta entry) = Some (JStr (err_message e)).
Proof.
  intros Hv Hpages Hfull Hfuel.
  assert (forall NODE_ENV,
            res_status (ErrorHandler.errorHandler NODE_ENV e) = StNum 500
            /\ (NODE_ENV = Some "production" ->
                jget "message"
                  (res_body (ErrorHandler.errorHandler NODE_ENV e))
                = Some (JStr "Internal Server Error"))) as H500.
  { intros env. clear Hfuel Hfull.
    generalize dependent (@None string).
    induction ps as [|p ps IH]; intros cursor Hpages.
    - exact (fetchPage_error_is_500 _ _ _ _ _ _ env Hpages).
    - destruct Hpages as [_ Hrest]. exact (IH _ Hrest). }
  unfold Dashboard.POST_sync_calls, Dashboard.syncCalls. rewrite Hv.
  set (w0 := Store.logger Store.info "Starting call sync" _ w).
  destruct (fetchAgentMap_world agents w0) as (Hdb & Hops & _).
  destruct (Dashboard.fetchAgentMap agents w0) as [wa agentMap].
  simpl in Hdb, Hops.
  unfold Retell.getAllCallsInRange.
  rewrite (drain_pages_then post_list_calls 100 _ _ ps None [] fuel e
             Hpages Hfull Hfuel).
  simpl. eexists _, _. split; [reflexivity|]. simpl.
  split; [exact Hdb|]. split; [exact Hops|].
  split; [apply H500|]. split; [apply H500|].
  eexists. split; [apply in_or_app; right; left; reflexivity|].
  repeat split.
Qed.

Lemma sync_provider_failure_witness :
  exists w' resp,
    Dashboard.POST_sync_calls no_fault sample_clock (Some "production")
      provider_down 5 1700000000000
      (sync_body (Joi.Int 7) Joi.StrAbsent) (Ok None) history_world
    = Some (w', resp)
    /\ Store.database w' = Store.database history_world
    /\ res_status resp = StNum 500.
Proof.
  destruct (sync_provider_failure no_fault sample_clock (Some "production")
              provider_down 5 1700000000000
              (sync_body (Joi.Int 7) Joi.StrAbsent)
              {| Joi.days := 7; Joi.agentId := None |} (Ok None) history_world
              []
              (ErrorHandler.PlainError "Failed to fetch calls: connect ECONNREFUSED"))
    as (w' & resp & Hrun & Hdb & _ & Hs & _).
  - reflexivity.
  - vm_compute. reflexivity.
  - intros p Hp. apply elem_of_nil in Hp. contradiction.
  - simpl. lia.
  - exists w', resp. split; [exact Hrun|]. split; [exact Hdb|exact Hs].
Defined.

(** X9. A sync request whose [days] lies outside 1..90 is refused with
    status 400 before the provider is asked and before any store
    operation: the answer is the same whatever the provider would do,
    even one whose drain never ends. *)
Theorem sync_days_validated (fault : nat -> option js_error)
  (clock : nat -> Z) (now : Z) (body : Joi.sync_body) (n : Z)
  (w : Store.world) :
  Joi.b_days body = Joi.Int n -> n < 1 \/ 90 < n ->
  exists m,
    (forall getAllCallsInRange agents,
       Dashboard.syncCalls fault clock getAllCallsInRange now body agents w
       = Some (w, Throw (ErrorHandler.ValidationError m)))
    /\ forall NODE_ENV,
         res_status (ErrorHandler.errorHandler NODE_ENV
                       (ErrorHandler.ValidationError m)) = StNum 400.
Proof.
  intros Hd Hout.
  destruct (number_integer_out_of_range "days" (1, "1") 90 "90" 30 n Hout)
    as [m Hm].
  exists m. split.
  - intros getAll agents. unfold Dashboard.syncCalls, Joi.syncCallsSchema.
    rewrite Hd, Hm. reflexivity.
  - intros NODE_ENV. unfold ErrorHandler.errorHandler. simpl.
    destruct (ErrorHandler.env_is NODE_ENV "production"); reflexivity.
Qed.

Lemma sync_days_validated_witness :
  Dashboard.syncCalls no_fault sample_clock (fun _ _ => None) 1700000000000
    (sync_body (Joi.Int 91) Joi.StrAbsent) (Ok None) history_world
  <> None.
Proof.
  destruct (sync_days_validated no_fault sample_clock 1700000000000
              (sync_body (Joi.Int 91) Joi.StrAbsent) 91 history_world
              eq_refl ltac:(right; lia)) as (m & Hrun & _).
  rewrite (Hrun (fun _ _ => None) (Ok None)). discriminate.
Defined.

(** X10. The call sync upserts by call identifier: in every run, with
    any fetched calls and any store failures, a calls table with one row
    per identifier still has one row per identifier afterwards, and
    every identifier that had a row still has one. *)
Theorem syncCalls_unique_call_ids (fault : nat -> option js_error)
  (clock : nat -> Z)
  (getAllCallsInRange : Z -> Z -> option (result (list Retell.call)))
  (now : Z) (body : Joi.sync_body)
  (agents : result (option (list Retell.agent)))
  (w w' : Store.world) (r : result http_response) :
  Dashboard.syncCalls fault clock getAllCallsInRange now body agents w
  = Some (w', r) ->
  (NoDup (call_ids (Store.database w)) ->
   NoDup (call_ids (Store.database w')))
  /\ forall id, id ∈ call_ids (Store.database w) ->
       id ∈ call_ids (Store.database w').
Proof.
  intros Hrun. split.
  - apply (syncCalls_preserves fault clock
             (fun d => NoDup (call_ids d)) getAllCallsInRange now body
             agents w w' r); [| |exact Hrun].
    + intros m w1 id. unfold call_ids. rewrite ensureAgent_calls. auto.
    + intros w1 c. apply processCall_unique_ids.
  - intros id.
    apply (syncCalls_preserves fault clock
             (fun d => id ∈ call_ids d) getAllCallsInRange now body
             agents w w' r); [| |exact Hrun].
    + intros m w1 x. unfold call_ids. rewrite ensureAgent_calls. auto.
    + intros w1 c. unfold Dashboard.processCall, Store.call_upsert, call_ids.
      destruct (Dashboard.callData c) as [d|]; [|auto].
      destruct (fault (Store.ops w1)); [auto|].
      destruct (Store.agents (Store.database w1) !! Store.Call.agent_id d);
        [|auto].
      destruct (Store.find_call _ _) as [old|]; simpl; intros Hin.
      * destruct (replace_call_ids (Store.Call.call_id d)
                    {| Store.Call.fields := d;
                       Store.Call.created_at := Store.Call.created_at old;
                       Store.Call.updated_at := clock (Store.ops w1) |}
                    (Store.calls (Store.database w1)) eq_refl) as [-> _].
        exact Hin.
      * rewrite map_app. apply elem_of_app. left. exact Hin.
Qed.

Lemma syncCalls_unique_call_ids_witness :
  exists w' r,
    Dashboard.syncCalls no_fault sample_clock fetched_two_calls 1700000000000
      (sync_body Joi.NumAbsent Joi.StrAbsent) (Ok None) history_world
    = Some (w', r)
    /\ NoDup (call_ids (Store.database w')).
Proof.
  destruct (Dashboard.syncCalls no_fault sample_clock fetched_two_calls
              1700000000000 (sync_body Joi.NumAbsent Joi.StrAbsent) (Ok None)
              history_world) as [[w' r]|] eqn:Hrun;
    [|vm_compute in Hrun; discriminate].
  exists w', r. split; [reflexivity|].
  destruct (syncCalls_unique_call_ids _ _ _ _ _ _ _ _ _ Hrun) as [Hnd _].
  apply Hnd. unfold call_ids. simpl.
  repeat (apply NoDup_cons; split;
          [rewrite ?elem_of_cons, elem_of_nil; intros H;
           repeat (destruct H as [H|H]; [discriminate H|]); exact H|]).
  apply NoDup_nil. exact I.
Defined.

(** X11. The call sync keeps the references of the store: in every run,
    if every stored call had a row for its agent before, so it is
    afterwards; and no agent is removed or altered in status or creation
    time, so an agent deactivated earlier stays deactivated through a
    call sync. *)
Theorem syncCalls_keeps_references (fault : nat -> option js_error)
  (clock : nat -> Z)
  (getAllCallsInRange : Z -> Z -> option (result (list Retell.call)))
  (now : Z) (body : Joi.sync_body)
  (agents : result (option (list Retell.agent)))
  (w w' : Store.world) (r : result http_response) :
  Dashboard.syncCalls fault clock getAllCallsInRange now body agents w
  = Some (w', r) ->
  (fk_ok (Store.database w) -> fk_ok (Store.database w'))
  /\ agents_kept (Store.database w) (Store.database w').
Proof.
  intros Hrun. split.
  - apply (syncCalls_preserves fault clock fk_ok getAllCallsInRange now
             body agents w w' r); [| |exact Hrun].
    + intros m w1 id. apply ensureAgent_fk.
    + intros w1 c. apply processCall_fk.
  - apply (syncCalls_preserves fault clock
             (fun d => agents_kept (Store.database w) d) getAllCallsInRange
             now body agents w w' r);
      [| |exact Hrun|apply agents_kept_refl].
    + intros m w1 id Hk. eapply agents_kept_trans; [exact Hk|].
      apply ensureAgent_kept.
    + intros w1 c Hk. eapply agents_kept_trans; [exact Hk|].
      apply agents_kept_same, processCall_agents.
Qed.

Lemma syncCalls_keeps_references_witness :
  exists w' r,
    Dashboard.syncCalls first_op_fails sample_clock fetched_two_calls
      1700000000000 (sync_body Joi.NumAbsent Joi.StrAbsent) (Ok None)
      history_world = Some (w', r)
    /\ agents_kept (Store.database history_world) (Store.database w').
Proof.
  destruct (Dashboard.syncCalls first_op_fails sample_clock fetched_two_calls
              1700000000000 (sync_body Joi.NumAbsent Joi.StrAbsent) (Ok None)
              history_world) as [[w' r]|] eqn:Hrun;
    [|vm_compute in Hrun; discriminate].
  exists w', r. split; [reflexivity|].
  exact (proj2 (syncCalls_keeps_references _ _ _ _ _ _ _ _ _ Hrun)).
Defined.

Lemma agentMap_lookup (roster : list Retell.agent) (id : string) :
  foldl Dashboard.agentMap_set ∅ roster !! id
  = (fun a => {| Dashboard.agent_name := roster_name a;
                 Dashboard.is_published :=
                   default false (Retell.a_is_published a);
                 Dashboard.last_modification_timestamp :=
                   Retell.a_last_modification_timestamp a |})
    <$> List.find (fun a => String.eqb (Retell.a_agent_id a) id) (rev roster).
Proof.
  induction roster as [|a roster IH] using rev_ind; [reflexivity|].
  rewrite foldl_app, rev_unit. simpl. unfold Dashboard.agentMap_set at 1.
  destruct (String.eqb (Retell.a_agent_id a) id) eqn:E.
  - apply String.eqb_eq in E. subst id. rewrite lookup_insert_eq.
    reflexivity.
  - rewrite lookup_insert_ne; [exact IH|].
    intros Heq. rewrite Heq, String.eqb_refl in E. discriminate.
Qed.

(** X12. The name the call sync gives an agent comes from the provider's
    roster: an agent upsert that the store accepts leaves a row named
    after the last roster entry with that identifier (its name, or the
    placeholder "Agent <id>" when it has none), and the placeholder when
    the roster has no such entry, is empty, or could not be fetched. *)
Theorem sync_agent_names (fault : nat -> option js_error) (clock : nat -> Z)
  (agents : result (option (list Retell.agent))) (w0 w : Store.world)
  (id : string) :
  fault (Store.ops w) = None ->
  let agentMap := snd (Dashboard.fetchAgentMap agents w0) in
  exists row,
    Store.agents
      (Store.database (Dashboard.ensureAgent fault clock agentMap w id)) !! id
    = Some row
    /\ Store.Agent.agent_name row
       = match roster_entry agents id with
         | Some a => roster_name a
         | None => "Agent " +:+ id
         end.
Proof.
  intros Hf agentMap.
  assert (agentMap !! id
          = (fun a => {| Dashboard.agent_name := roster_name a;
                         Dashboard.is_published :=
                           default false (Retell.a_is_published a);
                         Dashboard.last_modification_timestamp :=
                           Retell.a_last_modification_timestamp a |})
            <$> roster_entry agents id) as Hmap.
  { subst agentMap. unfold Dashboard.fetchAgentMap, roster_entry.
    destruct agents as [[[|a roster]|]|e]; simpl; try apply lookup_empty.
    apply (agentMap_lookup (a :: roster) id). }
  unfold Dashboard.ensureAgent, Store.agent_upsert. rewrite Hf, Hmap.
  simpl. rewrite lookup_insert_eq. eexists. split; [reflexivity|].
  destruct (roster_entry agents id) as [a|];
    destruct (Store.agents (Store.database w) !! id); reflexivity.
Qed.

Lemma sync_agent_names_witness :
  exists row1 row2,
    let agentMap :=
      snd (Dashboard.fetchAgentMap (Ok (Some two_agents)) empty_world) in
    Store.agents
      (Store.database
         (Dashboard.ensureAgent no_fault sample_clock agentMap empty_world
            "agent_1")) !! "agent_1" = Some row1
    /\ Store.Agent.agent_name row1 = "Front desk"
    /\ Store.agents
         (Store.database
            (Dashboard.ensureAgent no_fault sample_clock agentMap empty_world
               "agent_2")) !! "agent_2" = Some row2
    /\ Store.Agent.agent_name row2 = "Agent agent_2".
Proof.
  destruct (sync_agent_names no_fault sample_clock (Ok (Some two_agents))
              empty_world empty_world "agent_1" eq_refl)
    as (row1 & H1 & N1).
  destruct (sync_agent_names no_fault sample_clock (Ok (Some two_agents))
              empty_world empty_world "agent_2" eq_refl)
    as (row2 & H2 & N2).
  exists row1, row2. repeat split; assumption.
Defined.

(** ** The agent sync *)

Section AgentSync.

Import Store.

Variable fault : nat -> option js_error.
Variable clock : nat -> Z.

Lemma syncAgentsLoop_cons (a : Retell.agent) (roster : list Retell.agent)
  (w : world) (k : Dashboard.counters) :
  Dashboard.syncAgentsLoop fault clock (a :: roster) w k =
  Dashboard.syncAgentsLoop fault clock roster
    (fst (Dashboard.syncAgent fault clock w a))
    (Dashboard.count (snd (Dashboard.syncAgent fault clock w a)) k).
Proof.
  unfold Dashboard.syncAgentsLoop. simpl.
  destruct (Dashboard.syncAgent fault clock w a). reflexivity.
Qed.

(** One step of the loop: the calls are untouched, one store operation
    is issued, the other agents keep their rows, and an accepted upsert
    leaves the row the roster entry describes. *)
Lemma syncAgent_step (w : world) (a : Retell.agent) :
  let w' := fst (Dashboard.syncAgent fault clock w a) in
  calls (database w') = calls (database w)
  /\ ops w' = S (ops w)
  /\ (forall id, id <> Retell.a_agent_id a ->
        agents (database w') !! id = agents (database w) !! id)
  /\ (is_Some (agents (database w) !! Retell.a_agent_id a) ->
      is_Some (agents (database w') !! Retell.a_agent_id a))
  /\ (fault (ops w) = None ->
      snd (Dashboard.syncAgent fault clock w a) <> Dashboard.Failed
      /\ exists row,
           agents (database w') !! Retell.a_agent_id a = Some row
           /\ Agent.agent_name row = roster_name a
           /\ Agent.status row = roster_status a).
Proof.
  unfold Dashboard.syncAgent, agent_upsert_status.
  destruct (fault (ops w)) as [e|]; simpl.
  - repeat split; auto. discriminate.
  - repeat split; auto.
    + intros id Hne. apply lookup_insert_ne. congruence.
    + intros _. rewrite lookup_insert_eq. eauto.
    + destruct (_ =? _); discriminate.
    + rewrite lookup_insert_eq. eexists. split; [reflexivity|].
      destruct (agents (database w) !! Retell.a_agent_id a);
        split; reflexivity.
Qed.

Lemma syncAgentsLoop_spec (roster : list Retell.agent) :
  forall (w : world) (k : Dashboard.counters),
    let w' := fst (Dashboard.syncAgentsLoop fault clock roster w k) in
    let k' := snd (Dashboard.syncAgentsLoop fault clock roster w k) in
    calls (database w') = calls (database w)
    /\ ops w' = (ops w + length roster)%nat
    /\ (forall id, is_Some (agents (database w) !! id) ->
          is_Some (agents (database w') !! id))
    /\ (forall id, id ∉ map Retell.a_agent_id roster ->
          agents (database w') !! id = agents (database w) !! id)
    /\ Dashboard.syncedCount k <= Dashboard.syncedCount k'
    /\ Dashboard.updatedCount k <= Dashboard.updatedCount k'
    /\ Dashboard.errorCount k <= Dashboard.errorCount k'
    /\ Dashboard.syncedCount k' + Dashboard.updatedCount k'
       + Dashboard.errorCount k'
       = Dashboard.syncedCount k + Dashboard.updatedCount k
         + Dashboard.errorCount k + Z.of_nat (length roster)
    /\ ((forall n, (ops w <= n < ops w + length roster)%nat -> fault n = None)
        -> Dashboard.errorCount k' = Dashboard.errorCount k
           /\ (NoDup (map Retell.a_agent_id roster) ->
               forall a, a ∈ roster ->
                 exists row,
                   agents (database w') !! Retell.a_agent_id a = Some row
                   /\ Agent.agent_name row = roster_name a
                   /\ Agent.status row = roster_status a)).
Proof.
  induction roster as [|a roster IH]; intros w k.
  - simpl. repeat split; auto; try lia.
    intros _ x Hx. apply elem_of_nil in Hx. contradiction.
  - cbn zeta. rewrite syncAgentsLoop_cons.
    destruct (syncAgent_step w a) as (Hc & Ho & Hother & Hkeep & Hok).
    cbn zeta in Hc, Ho, Hother, Hkeep, Hok.
    set (w1 := fst (Dashboard.syncAgent fault clock w a)) in *.
    set (o := snd (Dashboard.syncAgent fault clock w a)) in *.
    destruct (IH w1 (Dashboard.count o k))
      as (Hc' & Ho' & Hmono' & Hother' & Hs' & Hu' & He' & Hsum' & Hnf').
    cbn zeta in Hc', Ho', Hmono', Hother', Hs', Hu', He', Hsum', Hnf'.
    set (w2 := fst (Dashboard.syncAgentsLoop fault clock roster w1 _)) in *.
    set (k2 := snd (Dashboard.syncAgentsLoop fault clock roster w1 _)) in *.
    clearbody w2 k2.
    assert (Dashboard.syncedCount k <= Dashboard.syncedCount (Dashboard.count o k)
            /\ Dashboard.updatedCount k
               <= Dashboard.updatedCount (Dashboard.count o k)
            /\ Dashboard.errorCount k
               <= Dashboard.errorCount (Dashboard.count o k)
            /\ Dashboard.syncedCount (Dashboard.count o k)
               + Dashboard.updatedCount (Dashboard.count o k)
               + Dashboard.errorCount (Dashboard.count o k)
               = Dashboard.syncedCount k + Dashboard.updatedCount k
                 + Dashboard.errorCount k + 1
            /\ (o <> Dashboard.Failed ->
                Dashboard.errorCount (Dashboard.count o k)
                = Dashboard.errorCount k)) as (Hs1 & Hu1 & He1 & Hsum1 & Hno1).
    { destruct o; simpl; repeat split; try lia; congruence. }
    split; [congruence|]. split; [rewrite Ho', Ho; simpl; lia|].
    split.
    { intros id Hid. apply Hmono'.
      destruct (decide (id = Retell.a_agent_id a)) as [->|Hne];
        [apply Hkeep, Hid|rewrite Hother by exact Hne; exact Hid]. }
    split.
    { intros id Hid. simpl in Hid. rewrite not_elem_of_cons in Hid.
      destruct Hid as [Hne Hnot]. rewrite Hother' by exact Hnot.
      apply Hother, Hne. }
    split; [lia|]. split; [lia|]. split; [lia|].
    split; [simpl length; lia|].
    intros Hnofault.
    destruct Hok as [Hnotfailed (row & Hrow & Hname & Hstatus)];
      [apply Hnofault; simpl; lia|].
    destruct Hnf' as [Herr Hrows];
      [intros n Hn; apply Hnofault; rewrite Ho in Hn; simpl; lia|].
    split; [rewrite Herr; apply Hno1, Hnotfailed|].
    intros ND x Hx. simpl in ND. apply NoDup_cons in ND as [Hnotin ND].
    apply elem_of_cons in Hx as [->|Hx].
    + exists row. rewrite Hother' by exact Hnotin. auto.
    + apply Hrows; assumption.
Qed.

End AgentSync.

(** X13. An agent sync over a non-empty roster issues one upsert per
    roster entry and touches no call; no agent loses its row; the three
    counters of the summary are non-negative and add up to the size of
    the roster. When the store accepts every upsert there are no errors
    and, the identifiers of the roster being distinct, each entry ends
    with a row carrying its name (or the placeholder) and the status
    ACTIVE when it is published, INACTIVE otherwise. *)
Theorem syncAgents_run (fault : nat -> option js_error) (clock : nat -> Z)
  (a0 : Retell.agent) (rest : list Retell.agent) (w : Store.world) :
  let roster := a0 :: rest in
  let result := Dashboard.syncAgents fault clock (Ok (Some roster)) w in
  Store.calls (Store.database (fst result)) = Store.calls (Store.database w)
  /\ Store.ops (fst result) = (Store.ops w + length roster)%nat
  /\ (forall id, is_Some (Store.agents (Store.database w) !! id) ->
        is_Some (Store.agents (Store.database (fst result)) !! id))
  /\ (exists resp synced updated errors,
        snd result = Ok resp
        /\ jget "agentsSynced" (res_body resp) = Some (JNum synced)
        /\ jget "agentsUpdated" (res_body resp) = Some (JNum updated)
        /\ jget "errors" (res_body resp) = Some (JNum errors)
        /\ 0 <= synced /\ 0 <= updated /\ 0 <= errors
        /\ synced + updated + errors = Z.of_nat (length roster)
        /\ ((forall n, (Store.ops w <= n < Store.ops w + length roster)%nat ->
               fault n = None) -> errors = 0))
  /\ ((forall n, (Store.ops w <= n < Store.ops w + length roster)%nat ->
         fault n = None) ->
      NoDup (map Retell.a_agent_id roster) ->
      forall a, a ∈ roster ->
        exists row,
          Store.agents (Store.database (fst result)) !! Retell.a_agent_id a
          = Some row
          /\ Store.Agent.agent_name row = roster_name a
          /\ Store.Agent.status row = roster_status a).
Proof.
  intros roster result. subst result. unfold Dashboard.syncAgents.
  set (w0 := Store.logger Store.info "Starting agent sync from Retell API"
               [] w).
  destruct (syncAgentsLoop_spec fault clock roster w0
              {| Dashboard.syncedCount := 0; Dashboard.updatedCount := 0;
                 Dashboard.errorCount := 0 |})
    as (Hc & Ho & Hmono & _ & Hs & Hu & He & Hsum & Hnf).
  cbn zeta in Hc, Ho, Hmono, Hs, Hu, He, Hsum, Hnf.
  subst roster.
  destruct (Dashboard.syncAgentsLoop fault clock (a0 :: rest) w0 _)
    as [w1 k].
  simpl in *.
  split; [exact Hc|]. split; [exact Ho|]. split; [exact Hmono|].
  split.
  - eexists _, _, _, _. split; [reflexivity|]. simpl.
    repeat (split; [first [reflexivity | lia]|]).
    intros Hnofault. apply (Hnf Hnofault).
  - intros Hnofault. apply (Hnf Hnofault).
Qed.

Lemma syncAgents_run_witness :
  exists row,
    Store.agents
      (Store.database
         (fst (Dashboard.syncAgents no_fault sample_clock
                 (Ok (Some two_agents)) history_world))) !! "agent_2"
    = Some row
    /\ Store.Agent.agent_name row = "Agent agent_2"
    /\ Store.Agent.status row = "INACTIVE".
Proof.
  destruct (syncAgents_run no_fault sample_clock
              (roster_agent "agent_1" (Some "Front desk") (Some true))
              [roster_agent "agent_2" None None] history_world)
    as (_ & _ & _ & _ & Hrows).
  destruct (Hrows (fun n _ => eq_refl)) with (a := roster_agent "agent_2" None None)
    as (row & Hrow & Hname & Hstatus).
  - apply NoDup_cons. split; [|apply NoDup_singleton].
    intros H. apply list_elem_of_singleton in H. discriminate H.
  - right. left.
  - exists row. split; [exact Hrow|]. split; [exact Hname|exact Hstatus].
Defined.

(** ** Creating, reading and deactivating agents *)

Section AgentRoutes.

Import Store.

Variable fault : nat -> option js_error.
Variable clock : nat -> Z.

Lemma string_max_value (key : string) (required : bool)
  (maxlen : option (nat * string)) (v : Joi.raw_str) (o : option string) :
  Joi.string_max key required maxlen v = inr o ->
  match o with
  | Some s => v = Joi.Str s /\ s <> ""
              /\ match maxlen with
                 | Some (n, _) => (String.length s <= n)%nat
                 | None => True
                 end
  | None => v = Joi.StrAbsent /\ required = false
  end.
Proof.
  unfold Joi.string_max. destruct v as [|s|]; [| |discriminate].
  - destruct required; [discriminate|]. intros [= <-]. auto.
  - unfold Js.truthy. destruct (String.eqb s "") eqn:E; simpl; [discriminate|].
    assert (s <> "") as Hne
      by (intros ->; rewrite String.eqb_refl in E; discriminate).
    destruct maxlen as [[n ns]|].
    + destruct (n <? String.length s)%nat eqn:L; [discriminate|].
      apply Nat.ltb_ge in L. intros [= <-]. auto.
    + intros [= <-]. auto.
Qed.

Lemma string_valid2_value (key a b : string) (v : Joi.raw_str)
  (o : option string) :
  Joi.string_valid2 key a b v = inr o ->
  (o = None /\ v = Joi.StrAbsent) \/ o = Some a \/ o = Some b.
Proof.
  unfold Joi.string_valid2. destruct v as [|s|]; [| |discriminate].
  - intros [= <-]. auto.
  - destruct (String.eqb s a) eqn:Ea; simpl.
    + apply String.eqb_eq in Ea. intros [= <-]. subst. auto.
    + destruct (String.eqb s b) eqn:Eb; [|discriminate].
      apply String.eqb_eq in Eb. intros [= <-]. subst. auto.
Qed.

(** What a validated body of [POST /agents] holds. *)
Lemma createAgentSchema_value (body : Joi.agent_body)
  (value : Joi.createAgent_value) :
  Joi.createAgentSchema body = inr value ->
  Joi.b_agent_id body = Joi.Str (Joi.agent_id value)
  /\ Joi.agent_id value <> ""
  /\ Joi.b_agent_name body = Joi.Str (Joi.agent_name value)
  /\ (String.length (Joi.agent_name value) <= 200)%nat
  /\ ((Joi.b_status body = Joi.StrAbsent /\ Joi.status value = "ACTIVE")
      \/ (Joi.b_status body = Joi.Str (Joi.status value)
          /\ (Joi.status value = "ACTIVE" \/ Joi.status value = "INACTIVE"))).
Proof.
  unfold Joi.createAgentSchema.
  destruct (Joi.string_max "agent_id" _ _ _) as [|id] eqn:Hid; [discriminate|].
  destruct (Joi.string_max "agent_name" _ _ _) as [|name] eqn:Hname;
    [discriminate|].
  destruct (Joi.string_valid2 _ _ _ _) as [|st] eqn:Hst; [discriminate|].
  destruct (Joi.no_unknown _); [discriminate|].
  intros [= <-]. simpl.
  apply string_max_value in Hid, Hname.
  destruct id as [id|]; [|destruct Hid; discriminate].
  destruct name as [name|]; [|destruct Hname; discriminate].
  destruct Hid as (Hid & Hidne & _). destruct Hname as (Hname & _ & Hlen).
  simpl. repeat split; auto.
  pose proof Hst as Hst'. apply string_valid2_value in Hst'.
  destruct Hst' as [[-> Habs]|[-> | ->]]; simpl.
  - left. auto.
  - right. split; [|auto]. unfold Joi.string_valid2 in Hst.
    destruct (Joi.b_status body) as [|s|]; try discriminate.
    destruct (String.eqb s "ACTIVE" || String.eqb s "INACTIVE");
      [|discriminate]. congruence.
  - right. split; [|auto]. unfold Joi.string_valid2 in Hst.
    destruct (Joi.b_status body) as [|s|]; try discriminate.
    destruct (String.eqb s "ACTIVE" || String.eqb s "INACTIVE");
      [|discriminate]. congruence.
Qed.

End AgentRoutes.

(** X14. Creating an agent and reading it back: for a valid body whose
    identifier has no row, and a store that accepts the operations,
    [POST /agents] answers 201, adds the row without touching the calls
    or the other agents, and [GET /agent-info/:agentId] then answers
    with that identifier, that name and the requested status, which is
    ACTIVE when the body gave none. *)
Theorem createAgent_then_read (fault : nat -> option js_error)
  (clock : nat -> Z) (body : Joi.agent_body)
  (value : Joi.createAgent_value) (w : Store.world) :
  Joi.createAgentSchema body = inr value ->
  Store.agents (Store.database w) !! Joi.agent_id value = None ->
  (forall n, (Store.ops w <= n < Store.ops w + 3)%nat -> fault n = None) ->
  exists w' resp resp2,
    Dashboard.createAgent fault clock body w = (w', Ok resp)
    /\ res_status resp = StNum 201
    /\ Store.calls (Store.database w') = Store.calls (Store.database w)
    /\ (forall id, id <> Joi.agent_id value ->
          Store.agents (Store.database w') !! id
          = Store.agents (Store.database w) !! id)
    /\ snd (Dashboard.agentInfo fault (Joi.agent_id value) w') = Ok resp2
    /\ res_status resp2 = StNum 200
    /\ jpath ["data"; "agent_id"] (res_body resp2)
       = Some (JStr (Joi.agent_id value))
    /\ jpath ["data"; "agent_name"] (res_body resp2)
       = Some (JStr (Joi.agent_name value))
    /\ jpath ["data"; "status"] (res_body resp2)
       = Some (JStr (Joi.status value))
    /\ (Joi.b_status body = Joi.StrAbsent -> Joi.status value = "ACTIVE").
Proof.
  intros Hv Hnone Hok.
  destruct (createAgentSchema_value body value Hv)
    as (_ & Hidne & _ & _ & Hst).
  assert (Js.truthy (Joi.status value) = true) as Hts.
  { destruct Hst as [[_ ->]|[_ [-> | ->]]]; reflexivity. }
  assert (fault (Store.ops w) = None) as F0 by (apply Hok; lia).
  assert (fault (S (Store.ops w)) = None) as F1 by (apply Hok; lia).
  assert (fault (S (S (Store.ops w))) = None) as F2 by (apply Hok; lia).
  unfold Dashboard.createAgent, Dashboard.agentInfo,
    Store.agent_findUnique, Store.agent_create.
  rewrite Hv, F0, Hnone. simpl. rewrite F1, Hnone, Hts.
  eexists _, _, _. split; [reflexivity|]. simpl.
  split; [reflexivity|]. split; [reflexivity|].
  split; [intros id Hne; apply lookup_insert_ne; congruence|].
  rewrite (truthy_nonempty _ Hidne), F2. simpl.
  rewrite lookup_insert_eq. simpl.
  repeat (split; [reflexivity|]).
  intros Habs. destruct Hst as [[_ ?]|[Heq _]]; [assumption|congruence].
Qed.

Lemma createAgent_then_read_witness :
  exists w' resp,
    Dashboard.createAgent no_fault sample_clock
      (agent_body (Joi.Str "agent_7") (Joi.Str "Night shift") Joi.StrAbsent)
      history_world = (w', Ok resp)
    /\ res_status resp = StNum 201
    /\ exists resp2,
         snd (Dashboard.agentInfo no_fault "agent_7" w') = Ok resp2
         /\ jpath ["data"; "status"] (res_body resp2) = Some (JStr "ACTIVE").
Proof.
  destruct (createAgent_then_read no_fault sample_clock
              (agent_body (Joi.Str "agent_7") (Joi.Str "Night shift")
                 Joi.StrAbsent)
              {| Joi.agent_id := "agent_7"; Joi.agent_name := "Night shift";
                 Joi.status := "ACTIVE" |}
              history_world eq_refl eq_refl (fun n _ => eq_refl))
    as (w' & resp & resp2 & Hrun & Hs & _ & _ & Hread & _ & _ & _ & Hst & _).
  exists w', resp. split; [exact Hrun|]. split; [exact Hs|].
  exists resp2. split; [exact Hread|exact Hst].
Defined.

(** X15. [POST /agents] never overwrites: whatever the body and whatever
    the store does, every agent that had a row keeps exactly that row,
    and the calls are untouched; a valid body naming an existing agent
    is refused with status 400 and changes nothing. *)
Theorem createAgent_never_overwrites (fault : nat -> option js_error)
  (clock : nat -> Z) (body : Joi.agent_body) (w : Store.world) :
  let w' := fst (Dashboard.createAgent fault clock body w) in
  Store.calls (Store.database w') = Store.calls (Store.database w)
  /\ (forall id a, Store.agents (Store.database w) !! id = Some a ->
        Store.agents (Store.database w') !! id = Some a)
  /\ (forall value,
        Joi.createAgentSchema body = inr value ->
        is_Some (Store.agents (Store.database w) !! Joi.agent_id value) ->
        fault (Store.ops w) = None ->
        Store.database w' = Store.database w
        /\ forall NODE_ENV,
             res_status (ErrorHandler.asyncHandler NODE_ENV
                           (snd (Dashboard.createAgent fault clock body w)))
             = StNum 400).
Proof.
  cbn zeta. unfold Dashboard.createAgent, Store.agent_findUnique,
    Store.agent_create.
  destruct (Joi.createAgentSchema body) as [m|value]; simpl.
  { repeat split; auto; intros; discriminate. }
  destruct (fault (Store.ops w)) as [e|] eqn:F0; simpl.
  { repeat split; auto; intros; discriminate. }
  destruct (Store.agents (Store.database w) !! Joi.agent_id value)
    as [a|] eqn:Ha; simpl.
  - split; [reflexivity|]. split; [auto|].
    intros value' _ _ _. split; [reflexivity|]. intros NODE_ENV.
    unfold ErrorHandler.errorHandler. simpl.
    destruct (ErrorHandler.env_is NODE_ENV "production"); reflexivity.
  - destruct (fault (S (Store.ops w))) as [e|]; simpl.
    + split; [reflexivity|]. split; [auto|].
      intros value' [= <-] [x Hx]. congruence.
    + try rewrite Ha. simpl. split; [reflexivity|]. split.
      * intros id a Hid. rewrite lookup_insert_ne; [exact Hid|].
        intros <-. congruence.
      * intros value' [= <-] [x Hx]. congruence.
Qed.

Lemma createAgent_never_overwrites_witness :
  Store.database
    (fst (Dashboard.createAgent no_fault sample_clock
            (agent_body (Joi.Str "agent_1") (Joi.Str "Impostor")
               (Joi.Str "INACTIVE")) history_world))
  = Store.database history_world.
Proof.
  destruct (createAgent_never_overwrites no_fault sample_clock
              (agent_body (Joi.Str "agent_1") (Joi.Str "Impostor")
                 (Joi.Str "INACTIVE")) history_world)
    as (_ & _ & Hdup).
  destruct (Hdup {| Joi.agent_id := "agent_1"; Joi.agent_name := "Impostor";
                    Joi.status := "INACTIVE" |} eq_refl) as [Hdb _].
  - eexists. reflexivity.
  - reflexivity.
  - exact Hdb.
Defined.

(** X16. Deleting an agent is a deactivation. Whatever the identifier
    and whatever the store does, [DELETE /agents/:agentId] removes no
    agent (each keeps its name and creation time, and every agent but
    the named one keeps its whole row), leaves the calls untouched and
    so keeps every call's reference to its agent. When the agent exists
    and the store accepts the operations, the answer is 200, the row is
    INACTIVE, and the agent can still be read. *)
Theorem deleteAgent_soft (fault : nat -> option js_error)
  (clock : nat -> Z) (agentId : string) (w : Store.world) :
  let w' := fst (Dashboard.deleteAgent fault clock agentId w) in
  Store.calls (Store.database w') = Store.calls (Store.database w)
  /\ (forall id a, Store.agents (Store.database w) !! id = Some a ->
        exists a',
          Store.agents (Store.database w') !! id = Some a'
          /\ Store.Agent.agent_name a' = Store.Agent.agent_name a
          /\ Store.Agent.created_at a' = Store.Agent.created_at a
          /\ (id <> agentId -> a' = a))
  /\ (fk_ok (Store.database w) -> fk_ok (Store.database w'))
  /\ (agentId <> "" ->
      is_Some (Store.agents (Store.database w) !! agentId) ->
      (forall n, (Store.ops w <= n < Store.ops w + 3)%nat -> fault n = None) ->
      exists resp a' resp2,
        snd (Dashboard.deleteAgent fault clock agentId w) = Ok resp
        /\ res_status resp = StNum 200
        /\ Store.agents (Store.database w') !! agentId = Some a'
        /\ Store.Agent.status a' = "INACTIVE"
        /\ snd (Dashboard.agentInfo fault agentId w') = Ok resp2
        /\ jpath ["data"; "status"] (res_body resp2)
           = Some (JStr "INACTIVE")).
Proof.
  cbn zeta.
  assert (Store.calls
            (Store.database (fst (Dashboard.deleteAgent fault clock agentId w)))
          = Store.calls (Store.database w)
          /\ forall id a, Store.agents (Store.database w) !! id = Some a ->
               exists a',
                 Store.agents
                   (Store.database
                      (fst (Dashboard.deleteAgent fault clock agentId w)))
                 !! id = Some a'
                 /\ Store.Agent.agent_name a' = Store.Agent.agent_name a
                 /\ Store.Agent.created_at a' = Store.Agent.created_at a
                 /\ (id <> agentId -> a' = a)) as [Hcalls Hkeep].
  { unfold Dashboard.deleteAgent, Store.agent_findUnique, Store.agent_update.
    destruct (negb (Js.truthy agentId)); [split; eauto 6|].
    destruct (fault (Store.ops w)); simpl; [split; eauto 6|].
    destruct (Store.agents (Store.database w) !! agentId) as [old|] eqn:Hold;
      simpl; [|split; eauto 6].
    destruct (fault (S (Store.ops w))); simpl; [split; eauto 6|].
    rewrite ?Hold. simpl. split; [reflexivity|].
    intros id a Ha. destruct (decide (agentId = id)) as [->|Hne].
    - rewrite lookup_insert_eq. eexists. split; [reflexivity|].
      rewrite Ha in Hold. injection Hold as <-. simpl.
      repeat split. intros Hn. contradiction.
    - rewrite lookup_insert_ne by exact Hne. exists a. auto. }
  split; [exact Hcalls|]. split; [exact Hkeep|]. split.
  { intros Hfk r Hr. rewrite Hcalls in Hr.
    destruct (Hfk r Hr) as [a Ha].
    destruct (Hkeep _ a Ha) as (a' & Ha' & _). eauto. }
  intros Hne [old Hold] Hok.
  assert (fault (Store.ops w) = None) as F0 by (apply Hok; lia).
  assert (fault (S (Store.ops w)) = None) as F1 by (apply Hok; lia).
  assert (fault (S (S (Store.ops w))) = None) as F2 by (apply Hok; lia).
  unfold Dashboard.deleteAgent, Dashboard.agentInfo,
    Store.agent_findUnique, Store.agent_update.
  rewrite (truthy_nonempty _ Hne). simpl. rewrite F0, Hold. simpl.
  rewrite F1, ?Hold. simpl. rewrite F2. simpl. rewrite lookup_insert_eq.
  eexists _, _, _. repeat split.
Qed.

Lemma deleteAgent_soft_witness :
  exists a',
    Store.agents
      (Store.database
         (fst (Dashboard.deleteAgent no_fault sample_clock "agent_1"
                 history_world))) !! "agent_1" = Some a'
    /\ Store.Agent.status a' = "INACTIVE"
    /\ fk_ok (Store.database
                (fst (Dashboard.deleteAgent no_fault sample_clock "agent_1"
                        history_world))).
Proof.
  destruct (deleteAgent_soft no_fault sample_clock "agent_1" history_world)
    as (_ & _ & Hfk & Hrun).
  destruct Hrun as (resp & a' & resp2 & _ & _ & Ha' & Hst & _).
  - discriminate.
  - eexists. reflexivity.
  - intros n _. reflexivity.
  - exists a'. split; [exact Ha'|]. split; [exact Hst|].
    apply Hfk. intros r Hr. simpl in Hr.
    rewrite !elem_of_cons, elem_of_nil in Hr.
    destruct Hr as [->|[->|[->|[]]]]; eexists; reflexivity.
Defined.

(** ** Quick statistics *)

Lemma filter_split_length {A} (p : A -> bool) (l : list A) :
  (length (List.filter p l)
   + length (List.filter (fun x => negb (p x)) l))%nat = length l.
Proof.
  induction l as [|x l IH]; simpl; [reflexivity|].
  destruct (p x); simpl; lia.
Qed.

(** X17. When the store accepts its four operations, [GET /stats]
    answers with the number of agents, the number of ACTIVE ones, and as
    [inactive] the number of agents whose status is anything but ACTIVE;
    the two add up to the total and neither is negative. *)
Theorem stats_agents_add_up (fault : nat -> option js_error)
  (w : Store.world) :
  (forall n, (Store.ops w <= n < Store.ops w + 4)%nat -> fault n = None) ->
  let rows := snd <$> map_to_list (Store.agents (Store.database w)) in
  exists resp active inactive,
    snd (Dashboard.stats fault w) = Ok resp
    /\ res_status resp = StNum 200
    /\ jpath ["data"; "agents"; "total"] (res_body resp)
       = Some (JNum (Z.of_nat (size (Store.agents (Store.database w)))))
    /\ jpath ["data"; "agents"; "active"] (res_body resp)
       = Some (JNum active)
    /\ jpath ["data"; "agents"; "inactive"] (res_body resp)
       = Some (JNum inactive)
    /\ jpath ["data"; "calls"; "total"] (res_body resp)
       = Some (JNum (Z.of_nat (length (Store.calls (Store.database w)))))
    /\ active = Z.of_nat (length (List.filter Dashboard.is_active rows))
    /\ inactive
       = Z.of_nat (length (List.filter
                             (fun r => negb (Dashboard.is_active r)) rows))
    /\ 0 <= active /\ 0 <= inactive
    /\ active + inactive
       = Z.of_nat (size (Store.agents (Store.database w))).
Proof.
  intros Hok rows.
  assert (fault (Store.ops w) = None) as F0 by (apply Hok; lia).
  assert (fault (S (Store.ops w)) = None) as F1 by (apply Hok; lia).
  assert (fault (S (S (Store.ops w))) = None) as F2 by (apply Hok; lia).
  assert (fault (S (S (S (Store.ops w)))) = None) as F3 by (apply Hok; lia).
  unfold Dashboard.stats, Store.agent_count, Store.call_count_all,
    Store.call_sum_cost.
  rewrite F0. simpl. rewrite F1. simpl. rewrite F2. simpl. rewrite F3. simpl.
  fold rows.
  assert (length (List.filter (fun _ => true) rows)
          = size (Store.agents (Store.database w))) as Hall.
  { assert (List.filter (fun _ : Store.Agent.row => true) rows = rows) as ->.
    { clear. induction rows as [|x l IH]; simpl; congruence. }
    subst rows. rewrite length_fmap. apply length_map_to_list. }
  pose proof (filter_split_length Dashboard.is_active rows) as Hsplit.
  assert (length rows = size (Store.agents (Store.database w))) as Hlen
    by (subst rows; rewrite length_fmap; apply length_map_to_list).
  eexists _, _, _. split; [reflexivity|]. simpl.
  split; [reflexivity|]. split; [rewrite Hall; reflexivity|].
  split; [reflexivity|]. split; [reflexivity|]. split; [reflexivity|].
  split; [reflexivity|]. split; [rewrite Hall; lia|].
  split; [lia|]. split; [lia|]. lia.
Qed.

Lemma stats_agents_add_up_witness :
  exists resp,
    snd (Dashboard.stats no_fault history_world) = Ok resp
    /\ jpath ["data"; "agents"; "total"] (res_body resp) = Some (JNum 1).
Proof.
  destruct (stats_agents_add_up no_fault history_world (fun n _ => eq_refl))
    as (resp & active & inactive & Hrun & _ & Htotal & _).
  exists resp. split; [exact Hrun|]. rewrite Htotal. reflexivity.
Defined.

(** ** User management *)

Lemma updateUserSchema_role (body : Joi.user_body)
  (value : Joi.updateUser_value) :
  Joi.updateUserSchema body = inr value ->
  Joi.new_role value = None \/ Joi.new_role value = Some "USER"
  \/ Joi.new_role value = Some "ADMIN".
Proof.
  unfold Joi.updateUserSchema.
  destruct (Joi.string_max _ _ _ _) as [|name]; [discriminate|].
  destruct (Joi.string_valid2 _ _ _ _) as [|role] eqn:Hr; [discriminate|].
  destruct (Joi.no_unknown _); [discriminate|].
  intros [= <-]. simpl.
  apply string_valid2_value in Hr. destruct Hr as [[-> _]|[-> | ->]]; auto.
Qed.

(** X18. An administrator cannot lock themselves out through the user
    routes: whatever the target, the body and the store's behaviour, if
    the acting user has a row with role ADMIN before [PUT /users/:userId]
    or [DELETE /users/:userId], they still have a row with role ADMIN
    and the same email afterwards, and the delete leaves their row
    exactly as it was. *)
Theorem admin_keeps_own_access (fault : nat -> option js_error)
  (user : Auth.req_user) (me userId : string) (body : Joi.user_body)
  (w : Users.world) (mine : Users.row) :
  Auth.user_id user = Some me ->
  Users.users w !! me = Some mine ->
  Users.role mine = "ADMIN" ->
  (exists mine',
     Users.users (fst (Users.updateUser fault user userId body w)) !! me
     = Some mine'
     /\ Users.role mine' = "ADMIN"
     /\ Users.email mine' = Users.email mine)
  /\ Users.users (fst (Users.deleteUser fault user userId w)) !! me
     = Some mine.
Proof.
  intros Hme Hmine Hrole.
  assert (Users.is_self user userId = String.eqb me userId) as Hself
    by (unfold Users.is_self; rewrite Hme; reflexivity).
  split.
  - unfold Users.updateUser, Users.findUnique, Users.update.
    destruct (Joi.updateUserSchema body) as [m|value] eqn:Hv; simpl; [eauto|].
    destruct (negb (Js.truthy userId)); simpl; [eauto|].
    rewrite Hself.
    destruct (String.eqb me userId) eqn:E; simpl.
    + apply String.eqb_eq in E. subst userId.
      destruct (updateUserSchema_role body value Hv) as [Hr|[Hr|Hr]];
        rewrite Hr; simpl; [|eauto|].
      * destruct (fault (Users.ops w)); simpl; [eauto|]. rewrite Hmine. simpl.
        destruct (fault (S (Users.ops w))); simpl; [eauto|].
        rewrite ?Hmine. simpl. rewrite lookup_insert_eq.
        eexists. split; [reflexivity|]. simpl. auto.
      * destruct (fault (Users.ops w)); simpl; [eauto|]. rewrite Hmine. simpl.
        destruct (fault (S (Users.ops w))); simpl; [eauto|].
        rewrite ?Hmine. simpl. rewrite lookup_insert_eq.
        eexists. split; [reflexivity|]. simpl. auto.
    + assert (userId <> me) as Hne
        by (intros ->; rewrite String.eqb_refl in E; discriminate).
      destruct (fault (Users.ops w)); simpl; [eauto|].
      destruct (Users.users w !! userId) as [old|] eqn:Hold; simpl; [|eauto].
      destruct (fault (S (Users.ops w))); simpl; [eauto|].
      rewrite ?Hold. simpl. rewrite lookup_insert_ne by exact Hne. eauto.
  - unfold Users.deleteUser, Users.findUnique, Users.delete.
    destruct (negb (Js.truthy userId)); simpl; [exact Hmine|].
    rewrite Hself.
    destruct (String.eqb me userId) eqn:E; simpl; [exact Hmine|].
    assert (userId <> me) as Hne
      by (intros ->; rewrite String.eqb_refl in E; discriminate).
    destruct (fault (Users.ops w)); simpl; [exact Hmine|].
    destruct (Users.users w !! userId) as [old|] eqn:Hold; simpl;
      [|exact Hmine].
    destruct (fault (S (Users.ops w))); simpl; [exact Hmine|].
    rewrite ?Hold. simpl. rewrite lookup_delete_ne by exact Hne. exact Hmine.
Qed.

Lemma admin_keeps_own_access_witness :
  exists mine',
    Users.users
      (fst (Users.updateUser no_fault acting_admin "u2"
              (user_body Joi.StrAbsent (Joi.Str "USER")) users_world)) !! "u2"
    = Some mine'
    /\ Users.role mine' = "ADMIN".
Proof.
  destruct (admin_keeps_own_access no_fault acting_admin "u2" "u2"
              (user_body Joi.StrAbsent (Joi.Str "USER")) users_world
              {| Users.id := "u2"; Users.email := "ann@example.com";
                 Users.name := Some "Ann"; Users.role := "ADMIN" |}
              eq_refl eq_refl eq_refl) as [(mine' & Hrow & Hrole & _) _].
  exists mine'. split; [exact Hrow|exact Hrole].
Defined.

(** ** Paging through the call history *)

Section Paging.

Import Store.

Lemma insert_desc_sorted {A : Type} (key : A -> Z) (x : A) (l : list A) :
  StronglySorted (fun a b => key b <= key a) l ->
  StronglySorted (fun a b => key b <= key a) (insert_desc key x l)
  /\ Permutation (insert_desc key x l) (x :: l).
Proof.
  induction l as [|y l IH]; simpl; intros Hs.
  - split; [repeat constructor|reflexivity].
  - destruct (key y <=? key x) eqn:E.
    + apply Z.leb_le in E. split; [|reflexivity].
      constructor; [exact Hs|]. constructor; [exact E|].
      apply StronglySorted_inv in Hs as [_ Hall].
      eapply Forall_impl; [exact Hall|]. simpl. intros z Hz. lia.
    + apply Z.leb_gt in E.
      apply StronglySorted_inv in Hs as [Hs Hall].
      destruct (IH Hs) as [IHs IHp]. split.
      * constructor; [exact IHs|].
        rewrite IHp. constructor; [lia|exact Hall].
      * rewrite IHp. apply perm_swap.
Qed.

Lemma sort_desc_sorted {A : Type} (key : A -> Z) (l : list A) :
  StronglySorted (fun a b => key b <= key a) (sort_desc key l)
  /\ Permutation (sort_desc key l) l.
Proof.
  unfold sort_desc. induction l as [|x l [IHs IHp]]; simpl.
  - split; [constructor|reflexivity].
  - destruct (insert_desc_sorted key x _ IHs) as [Hs Hp].
    split; [exact Hs|]. rewrite Hp, IHp. reflexivity.
Qed.

(** Whatever the database's ranking of ties, the answer holds the rows
    of the query, largest key first. *)
Lemma ordered_sorted {A : Type} (key tie : A -> Z) (l : list A) :
  StronglySorted (fun a b => key b <= key a) (ordered key tie l)
  /\ Permutation (ordered key tie l) l.
Proof.
  unfold ordered.
  destruct (sort_desc_sorted key (sort_desc tie l)) as [Hs Hp].
  destruct (sort_desc_sorted tie l) as [_ Hp'].
  split; [exact Hs|]. rewrite Hp. exact Hp'.
Qed.

(** Two arrangements of the same rows, both largest key first, are the
    same list when no two rows share a key. *)
Lemma sorted_perm_unique {A : Type} (key : A -> Z) (l1 : list A) :
  forall l2,
    NoDup (map key l1) ->
    Permutation l1 l2 ->
    StronglySorted (fun a b => key b <= key a) l1 ->
    StronglySorted (fun a b => key b <= key a) l2 ->
    l1 = l2.
Proof.
  induction l1 as [|x l1 IH]; intros l2 Hnd Hp Hs1 Hs2.
  - apply Permutation_nil in Hp. congruence.
  - destruct l2 as [|y l2];
      [symmetry in Hp; apply Permutation_nil in Hp; discriminate|].
    simpl in Hnd. apply NoDup_cons in Hnd as [Hx Hnd].
    apply StronglySorted_inv in Hs1 as [Hs1 Hall1].
    apply StronglySorted_inv in Hs2 as [Hs2 Hall2].
    assert (x = y) as ->.
    { assert (y ∈ x :: l1) as Hy by (rewrite Hp; left).
      assert (x ∈ y :: l2) as Hx' by (rewrite <- Hp; left).
      apply elem_of_cons in Hy as [->|Hy]; [reflexivity|].
      apply elem_of_cons in Hx' as [->|Hx']; [reflexivity|].
      exfalso. apply Hx.
      rewrite Forall_forall in Hall1, Hall2.
      assert (key x = key y) as ->.
      { specialize (Hall1 y Hy). specialize (Hall2 x Hx'). simpl in *. lia. }
      apply list_elem_of_fmap. exists y. auto. }
    f_equal. apply IH; auto.
    eapply Permutation_cons_inv. exact Hp.
Qed.

Lemma ordered_distinct_keys {A : Type} (key tie tie' : A -> Z) (l : list A) :
  NoDup (map key l) ->
  ordered key tie l = ordered key tie' l.
Proof.
  intros Hnd.
  destruct (ordered_sorted key tie l) as [Hs Hp].
  destruct (ordered_sorted key tie' l) as [Hs' Hp'].
  apply (sorted_perm_unique key); auto.
  - rewrite Hp. exact Hnd.
  - rewrite Hp, Hp'. reflexivity.
Qed.

(** A list that is largest key first is left as it is. *)
Lemma sort_desc_sorted_id {A : Type} (key : A -> Z) (l : list A) :
  StronglySorted (fun a b => key b <= key a) l -> sort_desc key l = l.
Proof.
  unfold sort_desc. induction l as [|x l IH]; intros Hs; [reflexivity|].
  apply StronglySorted_inv in Hs as [Hs Hall]. simpl. rewrite (IH Hs).
  destruct l as [|y l]; [reflexivity|]. simpl.
  apply Forall_cons in Hall as [Hy _].
  apply Z.leb_le in Hy. rewrite Hy. reflexivity.
Qed.

Lemma rank_in_bound {A : Type} `{EqDecision A} (L : list A) (x : A) :
  0 <= rank_in L x <= Z.of_nat (length L).
Proof.
  induction L as [|y L IH]; simpl; [lia|].
  destruct (decide (x = y)); lia.
Qed.

Lemma rank_in_tail {A : Type} `{EqDecision A} (y : A) (L : list A) (x : A) :
  x <> y -> rank_in (y :: L) x = rank_in L x.
Proof. intros Hne. simpl. destruct (decide (x = y)); [contradiction|reflexivity]. Qed.

Lemma rank_in_elem {A : Type} `{EqDecision A} (L : list A) (x : A) :
  x ∈ L -> 0 < rank_in L x.
Proof.
  induction L as [|y L IH]; intros Hx; [apply elem_of_nil in Hx; destruct Hx|].
  simpl. destruct (decide (x = y)); [lia|].
  apply elem_of_cons in Hx as [->|Hx]; [contradiction|]. apply IH, Hx.
Qed.

Lemma sorted_key_ext {A : Type} (f g : A -> Z) (l : list A) :
  (forall y, y ∈ l -> f y = g y) ->
  StronglySorted (fun a b => g b <= g a) l ->
  StronglySorted (fun a b => f b <= f a) l.
Proof.
  induction l as [|x l IH]; intros Hfg Hs; [constructor|].
  apply StronglySorted_inv in Hs as [Hs Hall]. constructor.
  - apply IH; [|exact Hs]. intros y Hy. apply Hfg. right. exact Hy.
  - rewrite Forall_forall in Hall. apply Forall_forall. intros z Hz.
    rewrite (Hfg x) by left. rewrite (Hfg z) by (right; exact Hz).
    apply Hall, Hz.
Qed.

Lemma rank_in_sorted {A : Type} `{EqDecision A} (L : list A) :
  NoDup L ->
  StronglySorted (fun a b => rank_in L b <= rank_in L a) L
  /\ NoDup (map (rank_in L) L).
Proof.
  induction L as [|x L IH]; intros Hnd; [split; constructor|].
  apply NoDup_cons in Hnd as [Hx Hnd]. destruct (IH Hnd) as [Hs Hd].
  assert (forall y, y ∈ L -> rank_in (x :: L) y = rank_in L y) as Htail.
  { intros y Hy. apply rank_in_tail. intros ->. contradiction. }
  assert (rank_in (x :: L) x = Z.of_nat (S (length L))) as Hhead.
  { simpl. destruct (decide (x = x)); [reflexivity|contradiction]. }
  assert (map (rank_in (x :: L)) L = map (rank_in L) L) as Hmap.
  { apply map_ext_in. intros y Hy. apply Htail, list_elem_of_In, Hy. }
  split.
  - constructor.
    + exact (sorted_key_ext _ _ L Htail Hs).
    + apply Forall_forall. intros y Hy. rewrite Hhead, (Htail y Hy).
      pose proof (rank_in_bound L y). lia.
  - change (map (rank_in (x :: L)) (x :: L))
      with (rank_in (x :: L) x :: map (rank_in (x :: L)) L).
    rewrite Hmap. apply NoDup_cons. split; [|exact Hd].
    rewrite Hhead. intros Hin. apply list_elem_of_fmap in Hin as (y & Hy & _).
    pose proof (rank_in_bound L y). lia.
Qed.

(** The model leaves the database its choice: any arrangement [L] of
    distinct rows that is largest key first is the answer for the
    ranking that follows [L]. *)
Lemma ordered_any_order {A : Type} `{EqDecision A} (key : A -> Z)
  (l L : list A) :
  NoDup L ->
  Permutation L l ->
  StronglySorted (fun a b => key b <= key a) L ->
  ordered key (rank_in L) l = L.
Proof.
  intros Hnd Hp Hs. unfold ordered.
  destruct (rank_in_sorted L Hnd) as [Hrs Hrd].
  destruct (sort_desc_sorted (rank_in L) l) as [Hss Hsp].
  assert (L = sort_desc (rank_in L) l) as <-.
  { apply (sorted_perm_unique (rank_in L)); auto.
    rewrite Hsp. exact Hp. }
  apply sort_desc_sorted_id, Hs.
Qed.

(** A numeric query with limit and offset in range is accepted as it
    is, with the chosen sort key. *)
Lemma callHistorySchema_accepts (limit offset : Z) (sortBy : Joi.raw_str)
  (s : string) :
  1 <= limit <= 100 -> 0 <= offset ->
  Joi.sortBy_valid sortBy = inr s ->
  Joi.callHistorySchema
    {| Joi.q_limit := Joi.Int limit; Joi.q_offset := Joi.Int offset;
       Joi.q_sortBy := sortBy; Joi.q_unknown := [] |}
  = inr {| Joi.limit := limit; Joi.offset := offset; Joi.sortBy := s |}.
Proof.
  intros Hl Ho Hs. unfold Joi.callHistorySchema, Joi.number_integer. simpl.
  replace (limit <? 1) with false by (symmetry; apply Z.ltb_ge; lia).
  replace (100 <? limit) with false by (symmetry; apply Z.ltb_ge; lia).
  replace (offset <? 0) with false by (symmetry; apply Z.ltb_ge; lia).
  rewrite Hs. reflexivity.
Qed.

(** The answer of the handler when nothing goes wrong. *)
Lemma callHistory_success (fault : nat -> option js_error)
  (call_tie : nat -> Call.row -> Z) (agentId : string)
  (q : Joi.history_query) (v : Joi.history_value) (w : world) :
  Joi.callHistorySchema q = inr v ->
  agentId <> "" ->
  is_Some (agents (database w) !! agentId) ->
  (forall n, (ops w <= n < ops w + 3)%nat -> fault n = None) ->
  let page :=
    firstn (Z.to_nat (Joi.limit v))
      (skipn (Z.to_nat (Joi.offset v))
         (ordered (Dashboard.sort_key (Joi.sortBy v)) (call_tie (S (ops w)))
            (calls_of_agent agentId (database w)))) in
  let total := Z.of_nat (length (calls_of_agent agentId (database w))) in
  snd (Dashboard.callHistory fault call_tie agentId q w) =
  Ok (res_json
        (JObj [("success", JBool true);
               ("data",
                JObj [("calls", JArr (map Dashboard.formatCall page));
                      ("pagination",
                       JObj [("total", JNum total);
                             ("limit", JNum (Joi.limit v));
                             ("offset", JNum (Joi.offset v));
                             ("hasMore",
                              JBool (Joi.offset v + Joi.limit v <? total))])])])).
Proof.
  intros Hv Hid [a Ha] Hok.
  assert (fault (ops w) = None) as F0 by (apply Hok; lia).
  assert (fault (S (ops w)) = None) as F1 by (apply Hok; lia).
  assert (fault (S (S (ops w))) = None) as F2 by (apply Hok; lia).
  unfold Dashboard.callHistory, agent_findUnique, call_findMany, call_count.
  rewrite Hv, (truthy_nonempty _ Hid), F0, Ha. simpl.
  rewrite F1. simpl. rewrite F2. reflexivity.
Qed.

End Paging.

(** X19. Paging covers the history exactly once when the store orders
    the agent's calls the same way at every request, as it must when no
    two of them share the sort key; the order among calls of equal key
    is otherwise the database's choice at each query. On an unchanging
    store that accepts every operation, under either condition, a
    client that asks [GET /call-history/:agentId] for [limit] records at
    offset 0 and goes on at [offset + limit] while [hasMore] is set
    stops after finitely many requests, and the pages put end to end
    are all the stored calls of the agent, each once, largest key
    first. *)
Theorem callHistory_pages_cover (fault : nat -> option js_error)
  (tie : nat -> nat -> Store.Call.row -> Z)
  (agentId : string) (sortBy : Joi.raw_str) (s : string) (limit : Z)
  (w : Store.world) (fuel : nat) :
  let rows := calls_of_agent agentId (Store.database w) in
  let answer k :=
    Store.ordered (Dashboard.sort_key s) (tie k (S (Store.ops w))) rows in
  1 <= limit <= 100 ->
  Joi.sortBy_valid sortBy = inr s ->
  agentId <> "" ->
  is_Some (Store.agents (Store.database w) !! agentId) ->
  (forall n, (Store.ops w <= n < Store.ops w + 3)%nat -> fault n = None) ->
  NoDup (map (Dashboard.sort_key s) rows)
  \/ (forall k, answer k = answer 0%nat) ->
  (length rows < fuel)%nat ->
  page_through fault tie fuel 0 agentId sortBy limit 0 w
  = Some (map Dashboard.formatCall (answer 0%nat))
  /\ Permutation (answer 0%nat) rows
  /\ StronglySorted
       (fun a b => Dashboard.sort_key s b <= Dashboard.sort_key s a)
       (answer 0%nat).
Proof.
  intros rows answer Hl Hs Hid Ha Hok Hsame Hfuel.
  assert (forall k, answer k = answer 0%nat) as Hk.
  { destruct Hsame as [Hnd|Hk]; [|exact Hk].
    intros k. apply ordered_distinct_keys, Hnd. }
  set (L := answer 0%nat) in *.
  destruct (ordered_sorted (Dashboard.sort_key s)
              (tie 0%nat (S (Store.ops w))) rows) as [Hsorted Hperm].
  split; [|split; [exact Hperm|exact Hsorted]].
  assert (length L = length rows) as HlenL
    by (rewrite <- (Hk 0%nat); apply ordered_length).
  assert (forall fuel k offset,
            0 <= offset ->
            (length L - Z.to_nat offset < fuel)%nat ->
            page_through fault tie fuel k agentId sortBy limit offset w
            = Some (map Dashboard.formatCall (skipn (Z.to_nat offset) L)))
    as Hgen.
  { clear fuel Hfuel. induction fuel as [|fuel IH]; intros k offset Ho Hf;
      [lia|].
    cbn [page_through].
    rewrite (callHistory_success fault (tie k) agentId _ _ w
               (callHistorySchema_accepts limit offset sortBy s Hl Ho Hs)
               Hid Ha Hok).
    cbn [Joi.limit Joi.offset Joi.sortBy]. fold rows.
    change (Store.ordered (Dashboard.sort_key s) (tie k (S (Store.ops w)))
              rows) with (answer k).
    rewrite (Hk k). rewrite <- HlenL.
    cbn [res_body res_json jpath jget assoc String.eqb Ascii.eqb Bool.eqb].
    destruct (offset + limit <? Z.of_nat (length L)) eqn:Hmore.
    - apply Z.ltb_lt in Hmore.
      rewrite (IH (S k) (offset + limit)) by lia.
      simpl. f_equal. rewrite <- map_app. f_equal.
      replace (Z.to_nat (offset + limit))
        with (Z.to_nat offset + Z.to_nat limit)%nat by lia.
      rewrite <- (drop_drop L). apply take_drop.
    - apply Z.ltb_ge in Hmore. f_equal. f_equal.
      apply take_ge. rewrite length_drop. lia. }
  rewrite (Hgen fuel 0%nat 0); [reflexivity|lia|simpl; lia].
Qed.

Lemma callHistory_pages_cover_witness :
  exists items,
    page_through no_fault shifting_ties 4 0 "agent_1" (Joi.Str "duration") 2 0
      history_world
    = Some items
    /\ length items = 3%nat.
Proof.
  destruct (callHistory_pages_cover no_fault shifting_ties "agent_1"
              (Joi.Str "duration") "duration" 2 history_world 4)
    as (Hpages & _ & _);
    [lia | reflexivity | discriminate | eexists; reflexivity
     | intros n _; reflexivity | | vm_compute; lia |].
  - left. vm_compute.
    repeat (apply NoDup_cons; split;
            [rewrite ?elem_of_cons, elem_of_nil; intros H;
             repeat (destruct H as [H|H]; [discriminate H|]); exact H|]).
    apply NoDup_nil. exact I.
  - eexists. split; [exact Hpages|]. vm_compute. reflexivity.
Defined.

(** Without either condition the pages need not cover the history: when
    the three calls of the agent tie on the sort key and the database
    ranks them one way at the first request and the other way at the
    second, a client reading two records a page gets one call twice and
    one call never. *)
Lemma callHistory_pages_can_repeat :
  page_through no_fault shifting_ties 4 0 "agent_1" (Joi.Str "cost") 2 0
    history_world
  = Some (map Dashboard.formatCall
            [stored_call "c2" "agent_1" 3000 30000;
             stored_call "c3" "agent_1" 2000 90000;
             stored_call "c2" "agent_1" 3000 30000]).
Proof. vm_compute. reflexivity. Qed.



(** ** The bootstrap and the accounts it finds *)

Lemma findUnique_None_emails (e : string) (users : list SuperAdmin.user) :
  SuperAdmin.findUnique e users = None -> e ∉ map SuperAdmin.email users.
Proof.
  unfold SuperAdmin.findUnique.
  induction users as [|u users IH]; simpl.
  - intros _ H. apply elem_of_nil in H. exact H.
  - destruct (String.eqb (SuperAdmin.email u) e) eqn:E; [discriminate|].
    intros Hnone Hin. apply elem_of_cons in Hin as [->|Hin].
    + rewrite String.eqb_refl in E. discriminate.
    + exact (IH Hnone Hin).
Qed.

Lemma update_promote_emails (e : string) (users : list SuperAdmin.user) :
  map SuperAdmin.email (SuperAdmin.update e SuperAdmin.promote users)
  = map SuperAdmin.email users
  /\ forall u, In u users ->
       exists u', In u' (SuperAdmin.update e SuperAdmin.promote users)
                  /\ SuperAdmin.email u' = SuperAdmin.email u
                  /\ SuperAdmin.passwordHash u' = SuperAdmin.passwordHash u
                  /\ SuperAdmin.name u' = SuperAdmin.name u.
Proof.
  induction users as [|x users [IHm IHin]]; simpl.
  - split; [reflexivity|]. intros u [].
  - destruct (String.eqb (SuperAdmin.email x) e); simpl.
    + split; [reflexivity|]. intros u [->|Hu].
      * exists (SuperAdmin.promote u). simpl. auto.
      * exists u. auto.
    + split; [rewrite IHm; reflexivity|]. intros u [->|Hu].
      * exists u. auto.
      * destruct (IHin u Hu) as (u' & Hu' & He). exists u'. auto.
Qed.

(** X21. The bootstrap only ever adds or promotes. Whatever is
    configured, it keeps the emails of the table distinct, and every
    account that was there is still there with the same email, the same
    password hash and the same name: an existing account with the
    configured email is never given the configured password. With the
    email or the password missing it changes nothing at all. *)
Theorem ensureSuperAdmin_keeps_accounts (cfg : SuperAdmin.env)
  (hash : string -> string) (users : list SuperAdmin.user) :
  let users' := fst (SuperAdmin.ensureSuperAdmin cfg hash users) in
  (NoDup (map SuperAdmin.email users) -> NoDup (map SuperAdmin.email users'))
  /\ (forall u, In u users ->
        exists u', In u' users'
                   /\ SuperAdmin.email u' = SuperAdmin.email u
                   /\ SuperAdmin.passwordHash u' = SuperAdmin.passwordHash u
                   /\ SuperAdmin.name u' = SuperAdmin.name u)
  /\ (Js.truthy_opt (SuperAdmin.SUPERADMIN_EMAIL cfg) = false
      \/ Js.truthy_opt (SuperAdmin.SUPERADMIN_PASSWORD cfg) = false ->
      users' = users).
Proof.
  cbn zeta. unfold SuperAdmin.ensureSuperAdmin.
  destruct (Js.truthy_opt (SuperAdmin.SUPERADMIN_EMAIL cfg)) eqn:He; simpl;
    [|repeat split; eauto].
  destruct (Js.truthy_opt (SuperAdmin.SUPERADMIN_PASSWORD cfg)) eqn:Hp; simpl;
    [|repeat split; eauto].
  set (mail := default "" (SuperAdmin.SUPERADMIN_EMAIL cfg)).
  destruct (SuperAdmin.findUnique mail users) as [existing|] eqn:Hf.
  - destruct (negb (String.eqb (SuperAdmin.role existing) "SUPERADMIN"));
      simpl.
    + destruct (update_promote_emails mail users) as [Hm Hin].
      split; [rewrite Hm; auto|]. split; [exact Hin|].
      intros [H|H]; discriminate.
    + split; [auto|]. split; [eauto|]. intros [H|H]; discriminate.
  - simpl. unfold SuperAdmin.create. split; [|split].
    + intros ND. rewrite map_app. simpl. apply NoDup_app.
      split; [exact ND|]. split; [|apply NoDup_singleton].
      intros x Hx Hin. apply list_elem_of_singleton in Hin. subst x.
      exact (findUnique_None_emails _ _ Hf Hx).
    + intros u Hu. exists u. split; [apply in_or_app; left; exact Hu|auto].
    + intros [H|H]; discriminate.
Qed.

Lemma ensureSuperAdmin_keeps_accounts_witness :
  NoDup (map SuperAdmin.email
           (fst (SuperAdmin.ensureSuperAdmin bootstrap_env (fun p => p)
                   bootstrap_users))).
Proof.
  destruct (ensureSuperAdmin_keeps_accounts bootstrap_env (fun p => p)
              bootstrap_users) as [Hnd _].
  apply Hnd. vm_compute.
  repeat (apply NoDup_cons; split;
          [rewrite ?elem_of_cons, elem_of_nil; intros H;
           repeat (destruct H as [H|H]; [discriminate H|]); exact H|]).
  apply NoDup_nil. exact I.
Defined.

(** ** A second run of the call sync *)

Section SecondRun.

Import Store.

Variable fault : nat -> option js_error.
Variable clock : nat -> Z.

Lemma find_call_Some_in (id : string) (rows : list Call.row) (r : Call.row) :
  find_call id rows = Some r ->
  r ∈ rows /\ Call.call_id (Call.fields r) = id.
Proof.
  unfold find_call. intros Hf. apply List.find_some in Hf as [Hin Heq].
  split; [apply list_elem_of_In, Hin|apply String.eqb_eq, Heq].
Qed.

Lemma find_call_Some_ids (id : string) (rows : list Call.row) (r : Call.row) :
  find_call id rows = Some r ->
  id ∈ map (fun x => Call.call_id (Call.fields x)) rows.
Proof.
  intros Hf. apply find_call_Some_in in Hf as [Hin <-].
  apply list_elem_of_fmap. exists r. auto.
Qed.

Lemma processCall_ids_kept (w : world) (c : Retell.call) (id : string) :
  id ∈ call_ids (database w) ->
  id ∈ call_ids (database (fst (Dashboard.processCall fault clock w c))).
Proof.
  unfold Dashboard.processCall, call_upsert, call_ids.
  destruct (Dashboard.callData c) as [d|]; [|auto].
  destruct (fault (ops w)); [auto|].
  destruct (agents (database w) !! Call.agent_id d); [|auto].
  destruct (find_call _ _) as [old|]; simpl; intros Hin.
  - destruct (replace_call_ids (Call.call_id d)
                {| Call.fields := d; Call.created_at := Call.created_at old;
                   Call.updated_at := clock (ops w) |}
                (calls (database w)) eq_refl) as [-> _].
    exact Hin.
  - rewrite map_app. apply elem_of_app. left. exact Hin.
Qed.

(** If no call of the loop failed, every call of the loop has a row
    when the loop ends. *)
Lemma processCalls_all_written (cs : list Retell.call) :
  forall (w : world) (k : Dashboard.counters),
    failures (outcomes fault clock cs w) = 0%nat ->
    forall c, c ∈ cs ->
      Retell.call_id c
      ∈ call_ids (database (fst (Dashboard.processCalls fault clock cs w k))).
Proof.
  induction cs as [|c0 cs IH]; intros w k Hnone c Hc.
  - apply elem_of_nil in Hc. destruct Hc.
  - rewrite processCalls_cons. simpl in Hnone. unfold failures in Hnone.
    simpl in Hnone.
    destruct (snd (Dashboard.processCall fault clock w c0)) eqn:Ho;
      simpl in Hnone; try discriminate.
    all: apply elem_of_cons in Hc as [->|Hc]; [|apply IH; assumption].
    all: apply (processCalls_preserves fault clock
                  (fun d => Retell.call_id c0 ∈ call_ids d));
      [intros w1 c1; apply processCall_ids_kept|].
    all: destruct (processCall_written fault clock w c0)
           as (d & r & _ & _ & _ & Hrow & _); [rewrite Ho; discriminate|].
    all: exact (find_call_Some_ids _ _ _ Hrow).
Qed.

(** A call whose row is there, at a time later than the creation of
    every row, is never counted as created, and no row is added. *)
Lemma processCall_again (w : world) (c : Retell.call) :
  (forall r, r ∈ calls (database w) ->
     forall n, Call.created_at r < clock n) ->
  Retell.call_id c ∈ call_ids (database w) ->
  snd (Dashboard.processCall fault clock w c) <> Dashboard.Created
  /\ call_ids (database (fst (Dashboard.processCall fault clock w c)))
     = call_ids (database w)
  /\ forall r,
       r ∈ calls (database (fst (Dashboard.processCall fault clock w c))) ->
       forall n, Call.created_at r < clock n.
Proof.
  intros Hold Hin. unfold Dashboard.processCall, call_upsert, call_ids.
  destruct (Dashboard.callData c) as [d|] eqn:Hd;
    [|simpl; repeat split; auto; discriminate].
  destruct (callData_ok c d Hd) as (Hid & _).
  destruct (fault (ops w)); [simpl; repeat split; auto; discriminate|].
  destruct (agents (database w) !! Call.agent_id d);
    [|simpl; repeat split; auto; discriminate].
  destruct (find_call (Call.call_id d) (calls (database w))) as [old|] eqn:Hf.
  - destruct (find_call_Some_in _ _ _ Hf) as [Hmem _]. simpl.
    pose proof (Hold old Hmem (ops w)) as Hlt.
    destruct (replace_call_ids (Call.call_id d)
                {| Call.fields := d; Call.created_at := Call.created_at old;
                   Call.updated_at := clock (ops w) |}
                (calls (database w)) eq_refl) as [Hids Hrows].
    split; [|split].
    + destruct (Call.created_at old =? clock (ops w)) eqn:E;
        [apply Z.eqb_eq in E; lia|discriminate].
    + exact Hids.
    + intros x Hx n. destruct (Hrows x Hx) as [->|Hx'];
        [simpl; apply Hold, Hmem|apply Hold, Hx'].
  - exfalso. apply (find_call_None_ids _ _ Hf). rewrite Hid. exact Hin.
Qed.

Lemma processCalls_again (cs : list Retell.call) :
  forall (w : world) (k : Dashboard.counters),
    (forall r, r ∈ calls (database w) ->
       forall n, Call.created_at r < clock n) ->
    (forall c, c ∈ cs -> Retell.call_id c ∈ call_ids (database w)) ->
    Dashboard.syncedCount (snd (Dashboard.processCalls fault clock cs w k))
    = Dashboard.syncedCount k
    /\ call_ids (database (fst (Dashboard.processCalls fault clock cs w k)))
       = call_ids (database w).
Proof.
  induction cs as [|c cs IH]; intros w k Hold Hin; [split; reflexivity|].
  rewrite processCalls_cons.
  destruct (processCall_again w c Hold) as (Hnot & Hids & Hold');
    [apply Hin; left|].
  destruct (IH (fst (Dashboard.processCall fault clock w c))
              (Dashboard.count (snd (Dashboard.processCall fault clock w c)) k)
              Hold') as [Hk Hids'].
  { intros c' Hc'. rewrite Hids. apply Hin. right. exact Hc'. }
  rewrite Hk, Hids', Hids. split; [|reflexivity].
  destruct (snd (Dashboard.processCall fault clock w c));
    [congruence|reflexivity|reflexivity].
Qed.

End SecondRun.

(** X22. A second run of the call sync over the same fetched calls
    creates nothing. If a first run reported no errors, then a later
    run with the same body and the same fetched calls, started on the
    database the first run left, at a time when the clock is past the
    creation time of every stored call, answers 200 with [callsSynced]
    0, leaves the identifiers of the calls table as they were, and
    counts every filtered call as updated or as an error. This holds
    whatever the store rejects in the second run and whatever roster the
    provider then gives. *)
Theorem syncCalls_twice
  (fault1 fault2 : nat -> option js_error) (clock1 clock2 : nat -> Z)
  (fetch1 fetch2 : Z -> Z -> option (result (list Retell.call)))
  (now1 now2 : Z) (body : Joi.sync_body) (value : Joi.sync_value)
  (agents1 agents2 : result (option (list Retell.agent)))
  (c0 : Retell.call) (cs : list Retell.call)
  (w w1 w2 : Store.world) (resp1 : http_response) :
  Joi.syncCallsSchema body = inr value ->
  fetch1 (now1 - Joi.days value * 86400000) now1 = Some (Ok (c0 :: cs)) ->
  fetch2 (now2 - Joi.days value * 86400000) now2 = Some (Ok (c0 :: cs)) ->
  Dashboard.syncCalls fault1 clock1 fetch1 now1 body agents1 w
  = Some (w1, Ok resp1) ->
  jget "errors" (res_body resp1) = Some (JNum 0) ->
  Store.database w2 = Store.database w1 ->
  (forall r, r ∈ Store.calls (Store.database w1) ->
     forall n, Store.Call.created_at r < clock2 n) ->
  exists w2' resp2 updated errors,
    Dashboard.syncCalls fault2 clock2 fetch2 now2 body agents2 w2
    = Some (w2', Ok resp2)
    /\ res_status resp2 = StNum 200
    /\ jget "callsSynced" (res_body resp2) = Some (JNum 0)
    /\ jget "callsUpdated" (res_body resp2) = Some (JNum updated)
    /\ jget "errors" (res_body resp2) = Some (JNum errors)
    /\ updated + errors
       = Z.of_nat (length (Dashboard.filterCalls (Joi.agentId value)
                             (c0 :: cs)))
    /\ call_ids (Store.database w2') = call_ids (Store.database w1).
Proof.
  intros Hv Hf1 Hf2 Hrun1 Herr1 Hdb Hold.
  set (filtered := Dashboard.filterCalls (Joi.agentId value) (c0 :: cs)).
  (* the first run wrote every filtered call *)
  assert (forall c, c ∈ filtered ->
            Retell.call_id c ∈ call_ids (Store.database w1)) as Hall.
  { destruct (syncCalls_phases fault1 clock1 fetch1 now1 body value agents1
                c0 cs w Hv Hf1)
      as (m1 & wa & w1' & r1 & _ & _ & Hrun & Hdb1 & _ & _ & _ & _ & _ & He).
    cbn zeta in Hrun, Hdb1, He. fold filtered in Hrun, Hdb1, He.
    rewrite Hrun in Hrun1. injection Hrun1 as -> ->.
    rewrite He in Herr1. injection Herr1 as Hzero.
    set (wb := Dashboard.ensureAgents fault1 clock1 m1 _ wa) in *.
    destruct (processCalls_counters fault1 clock1 filtered wb no_counts)
      as [Hcount _].
    cbn zeta in Hcount. rewrite Hzero in Hcount. simpl in Hcount.
    intros c Hc. rewrite Hdb1.
    apply processCalls_all_written; [lia|exact Hc]. }
  destruct (syncCalls_phases fault2 clock2 fetch2 now2 body value agents2
              c0 cs w2 Hv Hf2)
    as (m2 & wa & w2' & resp2 & Hwa & _ & Hrun & Hdb2 & _ & Hst & _ & Hs
        & Hu & He).
  cbn zeta in Hrun, Hdb2, Hs, Hu, He. fold filtered in Hrun, Hdb2, Hs, Hu, He.
  set (wb := Dashboard.ensureAgents fault2 clock2 m2 _ wa) in *.
  assert (Store.calls (Store.database wb) = Store.calls (Store.database w1))
    as Hcalls.
  { unfold wb. rewrite ensureAgents_calls, Hwa, Hdb. reflexivity. }
  destruct (processCalls_again fault2 clock2 filtered wb no_counts)
    as [Hsynced Hids].
  { rewrite Hcalls. exact Hold. }
  { unfold call_ids. rewrite Hcalls. exact Hall. }
  destruct (processCalls_counters fault2 clock2 filtered wb no_counts)
    as [_ Hsum].
  cbn zeta in Hsum. rewrite Hsynced in Hsum. simpl in Hsum.
  eexists w2', resp2, _, _.
  split; [exact Hrun|]. split; [exact Hst|].
  split; [rewrite Hs, Hsynced; reflexivity|].
  split; [exact Hu|]. split; [exact He|].
  split; [lia|].
  rewrite Hdb2, Hids. unfold call_ids. rewrite Hcalls. reflexivity.
Qed.

Lemma syncCalls_twice_witness :
  exists w1 resp1 w2 resp2,
    Dashboard.syncCalls no_fault sample_clock fetched_two_calls 1700000000000
      (sync_body Joi.NumAbsent Joi.StrAbsent) (Ok None) empty_world
    = Some (w1, Ok resp1)
    /\ Dashboard.syncCalls first_op_fails later_clock fetched_two_calls
         1700000001000 (sync_body Joi.NumAbsent Joi.StrAbsent) (Ok None) w1
       = Some (w2, Ok resp2)
    /\ jget "callsSynced" (res_body resp1) = Some (JNum 2)
    /\ jget "callsSynced" (res_body resp2) = Some (JNum 0)
    /\ call_ids (Store.database w2) = ["c1"; "c2"].
Proof.
  destruct (Dashboard.syncCalls no_fault sample_clock fetched_two_calls
              1700000000000 (sync_body Joi.NumAbsent Joi.StrAbsent) (Ok None)
              empty_world) as [[w1 [resp1|e]]|] eqn:Hrun1;
    [|vm_compute in Hrun1; discriminate..].
  assert (map Store.Call.created_at (Store.calls (Store.database w1))
          = [1700000000002; 1700000000003]
          /\ call_ids (Store.database w1) = ["c1"; "c2"]
          /\ jget "callsSynced" (res_body resp1) = Some (JNum 2)
          /\ jget "errors" (res_body resp1) = Some (JNum 0))
    as (Hrows & Hids1 & Hsynced1 & Herr1).
  { vm_compute in Hrun1. injection Hrun1 as <- <-. vm_compute. auto. }
  destruct (syncCalls_twice no_fault first_op_fails sample_clock later_clock
              fetched_two_calls fetched_two_calls 1700000000000 1700000001000
              (sync_body Joi.NumAbsent Joi.StrAbsent)
              {| Joi.days := 30; Joi.agentId := None |}
              (Ok None) (Ok None)
              (provider_call "c1" "agent_1" 1000 61000 (Some 60000))
              [provider_call "c2" "agent_2" 3000 33000 (Some 30000)]
              empty_world w1 w1 resp1)
    as (w2 & resp2 & u & e & Hrun2 & _ & Hs2 & _ & _ & _ & Hids);
    [reflexivity|reflexivity|reflexivity|exact Hrun1|exact Herr1|reflexivity| |].
  - intros r Hr n. unfold later_clock.
    assert (Store.Call.created_at r
            ∈ map Store.Call.created_at (Store.calls (Store.database w1)))
      as Hat by (apply list_elem_of_fmap; exists r; auto).
    rewrite Hrows in Hat.
    apply elem_of_cons in Hat as [->|Hat]; [lia|].
    apply list_elem_of_singleton in Hat. rewrite Hat. lia.
  - exists w1, resp1, w2, resp2.
    split; [reflexivity|]. split; [exact Hrun2|].
    split; [exact Hsynced1|]. split; [exact Hs2|].
    rewrite Hids. exact Hids1.
Defined.

(** X23. The created counter compares two timestamps, so it can count an
    update. When a call already has a row, the store accepts the write,
    and the clock at the write shows the creation time of that row, the
    call is counted as created although no row is added: the
    identifiers of the calls table are the same before and after. *)
Theorem processCall_same_tick (fault : nat -> option js_error)
  (clock : nat -> Z) (w : Store.world) (c : Retell.call)
  (d : Store.Call.data) (old : Store.Call.row) :
  Dashboard.callData c = Ok d ->
  fault (Store.ops w) = None ->
  is_Some (Store.agents (Store.database w) !! Retell.agent_id c) ->
  Store.find_call (Retell.call_id c) (Store.calls (Store.database w))
  = Some old ->
  Store.Call.created_at old = clock (Store.ops w) ->
  snd (Dashboard.processCall fault clock w c) = Dashboard.Created
  /\ call_ids (Store.database (fst (Dashboard.processCall fault clock w c)))
     = call_ids (Store.database w)
  /\ Dashboard.syncedCount
       (snd (Dashboard.processCalls fault clock [c] w no_counts)) = 1.
Proof.
  intros Hd Hf [a Ha] Hrow Hat.
  assert (snd (Dashboard.processCall fault clock w c) = Dashboard.Created
          /\ call_ids (Store.database
                         (fst (Dashboard.processCall fault clock w c)))
             = call_ids (Store.database w)) as [Ho Hids].
  { unfold Dashboard.processCall, Store.call_upsert, call_ids. rewrite Hd, Hf.
    destruct (callData_ok c d Hd) as (Hid & Hag & _).
    rewrite Hag, Ha, Hid, Hrow. simpl. rewrite Hat, Z.eqb_refl.
    split; [reflexivity|].
    rewrite <- Hid.
    destruct (replace_call_ids (Store.Call.call_id d)
                {| Store.Call.fields := d;
                   Store.Call.created_at := clock (Store.ops w);
                   Store.Call.updated_at := clock (Store.ops w) |}
                (Store.calls (Store.database w)) eq_refl) as [Hids _].
    exact Hids. }
  split; [exact Ho|]. split; [exact Hids|].
  rewrite processCalls_cons, Ho. reflexivity.
Qed.

Lemma processCall_same_tick_witness :
  snd (Dashboard.processCall no_fault stopped_clock history_world
         (provider_call "c1" "agent_1" 1000 61000 (Some 60000)))
  = Dashboard.Created
  /\ call_ids (Store.database
                 (fst (Dashboard.processCall no_fault stopped_clock
                         history_world
                         (provider_call "c1" "agent_1" 1000 61000
                            (Some 60000)))))
     = ["c1"; "c2"; "c3"].
Proof.
  destruct (processCall_same_tick no_fault stopped_clock history_world
              (provider_call "c1" "agent_1" 1000 61000 (Some 60000)) _
              (stored_call "c1" "agent_1" 1000 60000) eq_refl)
    as (Ho & Hids & _);
    [reflexivity|eexists; reflexivity|reflexivity|reflexivity|].
  split; [exact Ho|]. rewrite Hids. reflexivity.
Defined.

(** ** Deactivation and update of an agent *)

(** X24. A deactivation can be undone through [PUT /agents/:agentId].
    For an agent that has a row, with the store accepting the four
    operations, [DELETE /agents/:agentId] followed by an update whose
    body validates to the status ACTIVE alone answers 200 and leaves the
    agent ACTIVE under the name and the creation time it had before the
    deletion; the calls table and the other agents are as they were. *)
Theorem deleteAgent_undone_by_update (fault : nat -> option js_error)
  (clock : nat -> Z) (agentId : string) (body : Joi.agent_update_body)
  (old : Store.Agent.row) (w : Store.world) :
  agentId <> "" ->
  Store.agents (Store.database w) !! agentId = Some old ->
  (forall n, (Store.ops w <= n < Store.ops w + 4)%nat -> fault n = None) ->
  Joi.updateAgentSchema body
  = inr {| Joi.new_agent_name := None; Joi.new_status := Some "ACTIVE" |} ->
  let w1 := fst (Dashboard.deleteAgent fault clock agentId w) in
  let w2 := fst (Dashboard.updateAgent fault clock agentId body w1) in
  exists resp a2,
    snd (Dashboard.updateAgent fault clock agentId body w1) = Ok resp
    /\ res_status resp = StNum 200
    /\ jpath ["data"; "status"] (res_body resp) = Some (JStr "ACTIVE")
    /\ Store.agents (Store.database w2) !! agentId = Some a2
    /\ Store.Agent.status a2 = "ACTIVE"
    /\ Store.Agent.agent_name a2 = Store.Agent.agent_name old
    /\ Store.Agent.created_at a2 = Store.Agent.created_at old
    /\ Store.calls (Store.database w2) = Store.calls (Store.database w)
    /\ forall id, id <> agentId ->
         Store.agents (Store.database w2) !! id
         = Store.agents (Store.database w) !! id.
Proof.
  intros Hne Hold Hok Hv. cbn zeta.
  assert (fault (Store.ops w) = None) as F0 by (apply Hok; lia).
  assert (fault (S (Store.ops w)) = None) as F1 by (apply Hok; lia).
  assert (fault (S (S (Store.ops w))) = None) as F2 by (apply Hok; lia).
  assert (fault (S (S (S (Store.ops w)))) = None) as F3 by (apply Hok; lia).
  unfold Dashboard.deleteAgent, Dashboard.updateAgent,
    Store.agent_findUnique, Store.agent_update.
  rewrite Hv, (truthy_nonempty _ Hne). simpl. rewrite F0, Hold. simpl.
  rewrite F1, ?Hold. simpl. rewrite F2. simpl. rewrite lookup_insert_eq.
  simpl. rewrite F3. simpl. rewrite ?lookup_insert_eq. simpl.
  eexists _, _. split; [reflexivity|]. split; [reflexivity|].
  split; [reflexivity|]. rewrite ?lookup_insert_eq.
  split; [reflexivity|]. simpl. repeat split.
  intros id Hid. rewrite !lookup_insert_ne by congruence. reflexivity.
Qed.

Lemma deleteAgent_undone_by_update_witness :
  exists a2,
    Store.agents
      (Store.database
         (fst (Dashboard.updateAgent no_fault sample_clock "agent_1"
                 {| Joi.u_agent_name := Joi.StrAbsent;
                    Joi.u_status := Joi.Str "ACTIVE"; Joi.u_unknown := [] |}
                 (fst (Dashboard.deleteAgent no_fault sample_clock "agent_1"
                         history_world))))) !! "agent_1" = Some a2
    /\ Store.Agent.status a2 = "ACTIVE"
    /\ Store.Agent.agent_name a2 = "Agent agent_1".
Proof.
  destruct (deleteAgent_undone_by_update no_fault sample_clock "agent_1"
              {| Joi.u_agent_name := Joi.StrAbsent;
                 Joi.u_status := Joi.Str "ACTIVE"; Joi.u_unknown := [] |}
              (stored_agent "agent_1") history_world)
    as (resp & a2 & _ & _ & _ & Ha2 & Hst & Hname & _).
  - discriminate.
  - reflexivity.
  - intros n _. reflexivity.
  - reflexivity.
  - exists a2. split; [exact Ha2|]. split; [exact Hst|]. exact Hname.
Defined.

(** ** Reading back what the call sync wrote *)

(** A run of the call sync that reports no error has written a row for
    every filtered call. *)
Lemma syncCalls_clean_run_written (fault : nat -> option js_error)
  (clock : nat -> Z)
  (fetch : Z -> Z -> option (result (list Retell.call)))
  (now : Z) (body : Joi.sync_body) (value : Joi.sync_value)
  (agents : result (option (list Retell.agent)))
  (c0 : Retell.call) (cs : list Retell.call)
  (w w1 : Store.world) (resp1 : http_response) :
  Joi.syncCallsSchema body = inr value ->
  fetch (now - Joi.days value * 86400000) now = Some (Ok (c0 :: cs)) ->
  Dashboard.syncCalls fault clock fetch now body agents w
  = Some (w1, Ok resp1) ->
  jget "errors" (res_body resp1) = Some (JNum 0) ->
  forall c, c ∈ Dashboard.filterCalls (Joi.agentId value) (c0 :: cs) ->
    Retell.call_id c ∈ call_ids (Store.database w1).
Proof.
  intros Hv Hf Hrun1 Herr1.
  set (filtered := Dashboard.filterCalls (Joi.agentId value) (c0 :: cs)).
  destruct (syncCalls_phases fault clock fetch now body value agents
              c0 cs w Hv Hf)
    as (m1 & wa & w1' & r1 & _ & _ & Hrun & Hdb1 & _ & _ & _ & _ & _ & He).
  cbn zeta in Hrun, Hdb1, He. fold filtered in Hrun, Hdb1, He.
  rewrite Hrun in Hrun1. injection Hrun1 as -> ->.
  rewrite He in Herr1. injection Herr1 as Hzero.
  set (wb := Dashboard.ensureAgents fault clock m1 _ wa) in *.
  destruct (processCalls_counters fault clock filtered wb no_counts)
    as [Hcount _].
  cbn zeta in Hcount. rewrite Hzero in Hcount. simpl in Hcount.
  intros c Hc. rewrite Hdb1.
  apply processCalls_all_written; [lia|exact Hc].
Qed.

(** X25. What a clean run of the call sync wrote can be read back. On a
    store whose calls all have a row for their agent, after a run that
    reported no error, [GET /calls/:callId] for any filtered call with a
    non-empty identifier (on the database the run left, the store
    accepting the read) answers 200 with that call identifier, and its
    [agent] is an object, never [null]. *)
Theorem sync_then_callById (fault fault' : nat -> option js_error)
  (clock : nat -> Z)
  (fetch : Z -> Z -> option (result (list Retell.call)))
  (now : Z) (body : Joi.sync_body) (value : Joi.sync_value)
  (agents : result (option (list Retell.agent)))
  (c0 c : Retell.call) (cs : list Retell.call)
  (w w1 wr : Store.world) (resp1 : http_response) :
  Joi.syncCallsSchema body = inr value ->
  fetch (now - Joi.days value * 86400000) now = Some (Ok (c0 :: cs)) ->
  fk_ok (Store.database w) ->
  Dashboard.syncCalls fault clock fetch now body agents w
  = Some (w1, Ok resp1) ->
  jget "errors" (res_body resp1) = Some (JNum 0) ->
  c ∈ Dashboard.filterCalls (Joi.agentId value) (c0 :: cs) ->
  Retell.call_id c <> "" ->
  Store.database wr = Store.database w1 ->
  fault' (Store.ops wr) = None ->
  exists resp fields,
    snd (Dashboard.callById fault' (Retell.call_id c) wr) = Ok resp
    /\ res_status resp = StNum 200
    /\ jpath ["data"; "call_id"] (res_body resp)
       = Some (JStr (Retell.call_id c))
    /\ jpath ["data"; "agent"] (res_body resp) = Some (JObj fields).
Proof.
  intros Hv Hf Hfk Hrun Herr Hc Hne Hdb Hok.
  pose proof (syncCalls_clean_run_written fault clock fetch now body value
                agents c0 cs w w1 resp1 Hv Hf Hrun Herr c Hc) as Hin.
  assert (fk_ok (Store.database w1)) as Hfk1.
  { apply (syncCalls_preserves fault clock fk_ok fetch now body agents
             w w1 (Ok resp1)); [| |exact Hrun|exact Hfk].
    - intros m w0 id. apply ensureAgent_fk.
    - intros w0 c1. apply processCall_fk. }
  destruct (Store.find_call (Retell.call_id c)
              (Store.calls (Store.database w1))) as [r|] eqn:Hrow;
    [|exfalso; exact (find_call_None_ids _ _ Hrow Hin)].
  destruct (find_call_Some_in _ _ _ Hrow) as [Hmem Hid].
  destruct (Hfk1 r Hmem) as [a Ha].
  unfold Dashboard.callById, Store.call_findUnique.
  rewrite (truthy_nonempty _ Hne), Hok, Hdb, Hrow. simpl.
  rewrite Hdb. unfold Dashboard.formatCallWithAgent. rewrite Ha, Hid.
  eexists _, _. repeat split.
Qed.

Lemma sync_then_callById_witness :
  exists w1 resp1 resp,
    Dashboard.syncCalls no_fault sample_clock fetched_two_calls 1700000000000
      (sync_body Joi.NumAbsent Joi.StrAbsent) (Ok None) empty_world
    = Some (w1, Ok resp1)
    /\ snd (Dashboard.callById no_fault "c2" w1) = Ok resp
    /\ jpath ["data"; "call_id"] (res_body resp) = Some (JStr "c2").
Proof.
  destruct (Dashboard.syncCalls no_fault sample_clock fetched_two_calls
              1700000000000 (sync_body Joi.NumAbsent Joi.StrAbsent) (Ok None)
              empty_world) as [[w1 [resp1|e]]|] eqn:Hrun1;
    [|vm_compute in Hrun1; discriminate..].
  assert (jget "errors" (res_body resp1) = Some (JNum 0)) as Herr1.
  { vm_compute in Hrun1. injection Hrun1 as <- <-. reflexivity. }
  destruct (sync_then_callById no_fault no_fault sample_clock
              fetched_two_calls 1700000000000
              (sync_body Joi.NumAbsent Joi.StrAbsent)
              {| Joi.days := 30; Joi.agentId := None |} (Ok None)
              (provider_call "c1" "agent_1" 1000 61000 (Some 60000))
              (provider_call "c2" "agent_2" 3000 33000 (Some 30000))
              [provider_call "c2" "agent_2" 3000 33000 (Some 30000)]
              empty_world w1 w1 resp1)
    as (resp & fields & Hread & _ & Hid & _);
    [reflexivity|reflexivity| |exact Hrun1|exact Herr1| |discriminate
    |reflexivity|reflexivity|].
  - intros r Hr. simpl in Hr. apply elem_of_nil in Hr. destruct Hr.
  - simpl. right. left.
  - exists w1, resp1, resp. split; [reflexivity|].
    split; [exact Hread|exact Hid].
Defined.
